(** * Dynamic Power Limiter (src/src/PowerLimiter.cpp)

    A shallow embedding of [PowerLimiterClass] and the properties of its
    control loop.

    Conventions of the model.
    - C++ [int32_t]/[uint32_t]/[uint16_t] values are integers of [Z]; every
      arithmetic operation of the source is followed by the wrap-around of
      its result type ([i32], [u32], [u16]).
    - C++ [float]/[double] values are rationals of [Q]: the model follows
      the order and the sign of the readings, not the rounding error of
      binary floating point (nor NaN or infinities).
    - [millis()] returns one value throughout a call of [loop()].
    - The member fields of [PowerLimiterClass] are the fields of the record
      of the same name; the commands handed to the inverter and the lines
      printed to [MessageOutput] are collected in two more fields.
    - An inverter is an object shared with the radio layer: the limiter
      keeps a reference ([InverterRef]) and reads the object through the
      environment of the current call. *)

From Stdlib Require Import ZArith QArith Qround Bool List Lia.
Import ListNotations.

Open Scope Z_scope.

(** ** Machine arithmetic *)

Definition u32 (z : Z) : Z := z mod 2 ^ 32.
Definition u16 (z : Z) : Z := z mod 2 ^ 16.
Definition i32 (z : Z) : Z := (z + 2 ^ 31) mod 2 ^ 32 - 2 ^ 31.

Definition in_i32 (z : Z) : Prop := - 2 ^ 31 <= z < 2 ^ 31.
Definition in_u32 (z : Z) : Prop := 0 <= z < 2 ^ 32.

(** [a < b] on floats. *)
Definition Qlt_bool (a b : Q) : bool := negb (Qle_bool b a).

(** conversion of a float to an integer: the fraction is dropped. *)
Definition Qtrunc (q : Q) : Z := Z.quot (Qnum q) (Zpos (Qden q)).

(** [round()] of <cmath>: to the nearest integer, halfway cases away from
    zero. *)
Definition round (q : Q) : Z :=
  if Qle_bool 0 q then Qfloor (q + (1 # 2))%Q else Qceiling (q - (1 # 2))%Q.

(** ** Data model *)

Inductive Status : Type :=
| Initializing
| DisabledByConfig
| DisabledByMqtt
| WaitingForValidTimestamp
| PowerMeterDisabled
| PowerMeterTimeout
| PowerMeterPending
| InverterInvalid
| InverterChanged
| InverterOffline
| InverterCommandsDisabled
| InverterLimitPending
| InverterPowerCmdPending
| InverterDevInfoPending
| InverterStatsPending
| UnconditionalSolarPassthrough
| NoVeDirect
| Settling
| Stable.

Definition Status_eqb (a b : Status) : bool :=
  match a, b with
  | Initializing, Initializing
  | DisabledByConfig, DisabledByConfig
  | DisabledByMqtt, DisabledByMqtt
  | WaitingForValidTimestamp, WaitingForValidTimestamp
  | PowerMeterDisabled, PowerMeterDisabled
  | PowerMeterTimeout, PowerMeterTimeout
  | PowerMeterPending, PowerMeterPending
  | InverterInvalid, InverterInvalid
  | InverterChanged, InverterChanged
  | InverterOffline, InverterOffline
  | InverterCommandsDisabled, InverterCommandsDisabled
  | InverterLimitPending, InverterLimitPending
  | InverterPowerCmdPending, InverterPowerCmdPending
  | InverterDevInfoPending, InverterDevInfoPending
  | InverterStatsPending, InverterStatsPending
  | UnconditionalSolarPassthrough, UnconditionalSolarPassthrough
  | NoVeDirect, NoVeDirect
  | Settling, Settling
  | Stable, Stable => true
  | _, _ => false
  end.

Inductive Mode : Type :=
| Normal
| Disabled
| UnconditionalFullSolarPassthrough.

Definition Mode_eqb (a b : Mode) : bool :=
  match a, b with
  | Normal, Normal | Disabled, Disabled
  | UnconditionalFullSolarPassthrough, UnconditionalFullSolarPassthrough => true
  | _, _ => false
  end.

Inductive LastCommandSuccess : Type := CMD_OK | CMD_NOK | CMD_PENDING.

Definition is_pending (c : LastCommandSuccess) : bool :=
  match c with CMD_PENDING => true | _ => false end.

Inductive ChannelType_t : Type := TYPE_AC | TYPE_DC.
Inductive FieldId_t : Type := FLD_UDC | FLD_PDC | FLD_PAC | FLD_EFF.
Definition ChannelNum_t : Type := nat.
Definition CH0 : ChannelNum_t := 0%nat.

(** What the limiter reads of an inverter object. *)
Record InverterAbstract : Type := mkInverter {
  serial : Z;
  isReachable : bool;
  isProducing : bool;
  getEnableCommands : bool;
  (* SystemConfigPara() *)
  getLastLimitCommandSuccess : LastCommandSuccess;
  SystemConfigPara_getLastUpdateCommand : Z;
  (* PowerCommand() *)
  getLastPowerCommandSuccess : LastCommandSuccess;
  PowerCommand_getLastUpdateCommand : Z;
  (* DevInfo() *)
  getMaxPower : Z;
  (* Statistics() *)
  Statistics_getLastUpdate : Z;
  getChannelsByType_DC : list ChannelNum_t;
  getChannelFieldValue : ChannelType_t -> ChannelNum_t -> FieldId_t -> Q
}.

Definition InverterRef : Type := nat.

Inductive DrainStrategy : Type := EMPTY_WHEN_FULL | EMPTY_AT_NIGHT.

Definition DrainStrategy_eqb (a b : DrainStrategy) : bool :=
  match a, b with
  | EMPTY_WHEN_FULL, EMPTY_WHEN_FULL | EMPTY_AT_NIGHT, EMPTY_AT_NIGHT => true
  | _, _ => false
  end.

(** The fields of [CONFIG_T] the limiter reads. *)
Record CONFIG_T : Type := mkConfig {
  PowerLimiter_Enabled : bool;
  PowerLimiter_VerboseLogging : bool;
  PowerLimiter_SolarPassThroughEnabled : bool;
  PowerLimiter_SolarPassThroughLosses : Z;
  PowerLimiter_BatteryDrainStategy : DrainStrategy;
  PowerLimiter_IsInverterBehindPowerMeter : bool;
  PowerLimiter_InverterId : Z;
  PowerLimiter_InverterChannelId : ChannelNum_t;
  PowerLimiter_TargetPowerConsumption : Z;
  PowerLimiter_TargetPowerConsumptionHysteresis : Z;
  PowerLimiter_LowerPowerLimit : Z;
  PowerLimiter_UpperPowerLimit : Z;
  PowerLimiter_BatterySocStartThreshold : Z;
  PowerLimiter_BatterySocStopThreshold : Z;
  PowerLimiter_VoltageStartThreshold : Q;
  PowerLimiter_VoltageStopThreshold : Q;
  PowerLimiter_VoltageLoadCorrectionFactor : Q;
  PowerLimiter_RestartHour : Z;
  PowerLimiter_FullSolarPassThroughSoc : Z;
  PowerLimiter_FullSolarPassThroughStartVoltage : Q;
  PowerLimiter_FullSolarPassThroughStopVoltage : Q;
  PowerMeter_Enabled : bool;
  Vedirect_Enabled : bool;
  Battery_Enabled : bool
}.

(** [struct tm], the two fields that are read. *)
Record tm : Type := mkTm { tm_hour : Z; tm_min : Z }.

(** The collaborators as one call of the limiter sees them. *)
Record Env : Type := mkEnv {
  config : CONFIG_T;
  millis : Z;
  getLocalTime : option tm;
  (* Hoymiles *)
  getInverterByPos : Z -> option InverterRef;
  deref : InverterRef -> InverterAbstract;
  (* PowerMeter *)
  getPowerTotal : Q;
  getLastPowerMeterUpdate : Z;
  (* VeDirectMppt *)
  isDataValid : bool;
  veFrame_V : Q;
  veFrame_I : Q;
  veFrame_PPV : Z;
  (* Battery.getStats() *)
  isValid : bool;
  getSoC : Z;
  getSoCAgeSeconds : Z;
  (* HuaweiCan *)
  getAutoPowerStatus : bool
}.

(** Requests handed to the inverter's command queue. *)
Inductive Command : Type :=
| sendPowerControlRequest (inv : InverterRef) (turnOn : bool)
| sendActivePowerControlRequest_AbsolutNonPersistent (inv : InverterRef) (limit : Q)
| sendRestartControlRequest (inv : InverterRef).

(** Lines written to [MessageOutput]. *)
Inductive LogMsg : Type :=
| LogStatus (s : Status)
| LogStoppingInverter
| LogStartingInverter
| LogSendInverterRestart
| LogNtpNotReady
| LogNoInverterProgrammerError
| LogScalingPowerLimit (total producing : Z)
| LogRestartDisabled
| LogRestartNoLocalTime
| LogNextInverterRestart (at_millis : Z)
| LogVerbose (site : nat).

Record PowerLimiterClass : Type := mkPL {
  _lastRequestedPowerLimit : Z;
  _lastPowerLimitMillis : Z;
  _shutdownTimeout : Z;
  _lastStatus : Status;
  _lastStatusPrinted : Z;
  _lastCalculation : Z;
  _calculationBackoffMs : Z;
  _mode : Mode;
  _inverter : option InverterRef;
  _batteryDischargeEnabled : bool;
  _nextInverterRestart : Z;
  _nextCalculateCheck : Z;
  _fullSolarPassThroughEnabled : bool;
  _verboseLogging : bool;
  (* outputs *)
  sent : list Command;
  MessageOutput : list LogMsg
}.

(** Field updates. *)
Definition set_lastRequestedPowerLimit (v : Z) (s : PowerLimiterClass) :=
  mkPL v (_lastPowerLimitMillis s) (_shutdownTimeout s) (_lastStatus s)
    (_lastStatusPrinted s) (_lastCalculation s) (_calculationBackoffMs s)
    (_mode s) (_inverter s) (_batteryDischargeEnabled s)
    (_nextInverterRestart s) (_nextCalculateCheck s)
    (_fullSolarPassThroughEnabled s) (_verboseLogging s) (sent s)
    (MessageOutput s).
Definition set_lastPowerLimitMillis (v : Z) (s : PowerLimiterClass) :=
  mkPL (_lastRequestedPowerLimit s) v (_shutdownTimeout s) (_lastStatus s)
    (_lastStatusPrinted s) (_lastCalculation s) (_calculationBackoffMs s)
    (_mode s) (_inverter s) (_batteryDischargeEnabled s)
    (_nextInverterRestart s) (_nextCalculateCheck s)
    (_fullSolarPassThroughEnabled s) (_verboseLogging s) (sent s)
    (MessageOutput s).
Definition set_shutdownTimeout (v : Z) (s : PowerLimiterClass) :=
  mkPL (_lastRequestedPowerLimit s) (_lastPowerLimitMillis s) v (_lastStatus s)
    (_lastStatusPrinted s) (_lastCalculation s) (_calculationBackoffMs s)
    (_mode s) (_inverter s) (_batteryDischargeEnabled s)
    (_nextInverterRestart s) (_nextCalculateCheck s)
    (_fullSolarPassThroughEnabled s) (_verboseLogging s) (sent s)
    (MessageOutput s).
Definition set_lastStatus (v : Status) (s : PowerLimiterClass) :=
  mkPL (_lastRequestedPowerLimit s) (_lastPowerLimitMillis s)
    (_shutdownTimeout s) v
    (_lastStatusPrinted s) (_lastCalculation s) (_calculationBackoffMs s)
    (_mode s) (_inverter s) (_batteryDischargeEnabled s)
    (_nextInverterRestart s) (_nextCalculateCheck s)
    (_fullSolarPassThroughEnabled s) (_verboseLogging s) (sent s)
    (MessageOutput s).
Definition set_lastStatusPrinted (v : Z) (s : PowerLimiterClass) :=
  mkPL (_lastRequestedPowerLimit s) (_lastPowerLimitMillis s)
    (_shutdownTimeout s) (_lastStatus s)
    v (_lastCalculation s) (_calculationBackoffMs s)
    (_mode s) (_inverter s) (_batteryDischargeEnabled s)
    (_nextInverterRestart s) (_nextCalculateCheck s)
    (_fullSolarPassThroughEnabled s) (_verboseLogging s) (sent s)
    (MessageOutput s).
Definition set_lastCalculation (v : Z) (s : PowerLimiterClass) :=
  mkPL (_lastRequestedPowerLimit s) (_lastPowerLimitMillis s)
    (_shutdownTimeout s) (_lastStatus s)
    (_lastStatusPrinted s) v (_calculationBackoffMs s)
    (_mode s) (_inverter s) (_batteryDischargeEnabled s)
    (_nextInverterRestart s) (_nextCalculateCheck s)
    (_fullSolarPassThroughEnabled s) (_verboseLogging s) (sent s)
    (MessageOutput s).
Definition set_calculationBackoffMs (v : Z) (s : PowerLimiterClass) :=
  mkPL (_lastRequestedPowerLimit s) (_lastPowerLimitMillis s)
    (_shutdownTimeout s) (_lastStatus s)
    (_lastStatusPrinted s) (_lastCalculation s) v
    (_mode s) (_inverter s) (_batteryDischargeEnabled s)
    (_nextInverterRestart s) (_nextCalculateCheck s)
    (_fullSolarPassThroughEnabled s) (_verboseLogging s) (sent s)
    (MessageOutput s).
Definition set_mode (v : Mode) (s : PowerLimiterClass) :=
  mkPL (_lastRequestedPowerLimit s) (_lastPowerLimitMillis s)
    (_shutdownTimeout s) (_lastStatus s)
    (_lastStatusPrinted s) (_lastCalculation s) (_calculationBackoffMs s)
    v (_inverter s) (_batteryDischargeEnabled s)
    (_nextInverterRestart s) (_nextCalculateCheck s)
    (_fullSolarPassThroughEnabled s) (_verboseLogging s) (sent s)
    (MessageOutput s).
Definition set_inverter (v : option InverterRef) (s : PowerLimiterClass) :=
  mkPL (_lastRequestedPowerLimit s) (_lastPowerLimitMillis s)
    (_shutdownTimeout s) (_lastStatus s)
    (_lastStatusPrinted s) (_lastCalculation s) (_calculationBackoffMs s)
    (_mode s) v (_batteryDischargeEnabled s)
    (_nextInverterRestart s) (_nextCalculateCheck s)
    (_fullSolarPassThroughEnabled s) (_verboseLogging s) (sent s)
    (MessageOutput s).
Definition set_batteryDischargeEnabled (v : bool) (s : PowerLimiterClass) :=
  mkPL (_lastRequestedPowerLimit s) (_lastPowerLimitMillis s)
    (_shutdownTimeout s) (_lastStatus s)
    (_lastStatusPrinted s) (_lastCalculation s) (_calculationBackoffMs s)
    (_mode s) (_inverter s) v
    (_nextInverterRestart s) (_nextCalculateCheck s)
    (_fullSolarPassThroughEnabled s) (_verboseLogging s) (sent s)
    (MessageOutput s).
Definition set_nextInverterRestart (v : Z) (s : PowerLimiterClass) :=
  mkPL (_lastRequestedPowerLimit s) (_lastPowerLimitMillis s)
    (_shutdownTimeout s) (_lastStatus s)
    (_lastStatusPrinted s) (_lastCalculation s) (_calculationBackoffMs s)
    (_mode s) (_inverter s) (_batteryDischargeEnabled s)
    v (_nextCalculateCheck s)
    (_fullSolarPassThroughEnabled s) (_verboseLogging s) (sent s)
    (MessageOutput s).
Definition set_nextCalculateCheck (v : Z) (s : PowerLimiterClass) :=
  mkPL (_lastRequestedPowerLimit s) (_lastPowerLimitMillis s)
    (_shutdownTimeout s) (_lastStatus s)
    (_lastStatusPrinted s) (_lastCalculation s) (_calculationBackoffMs s)
    (_mode s) (_inverter s) (_batteryDischargeEnabled s)
    (_nextInverterRestart s) v
    (_fullSolarPassThroughEnabled s) (_verboseLogging s) (sent s)
    (MessageOutput s).
Definition set_fullSolarPassThroughEnabled (v : bool) (s : PowerLimiterClass) :=
  mkPL (_lastRequestedPowerLimit s) (_lastPowerLimitMillis s)
    (_shutdownTimeout s) (_lastStatus s)
    (_lastStatusPrinted s) (_lastCalculation s) (_calculationBackoffMs s)
    (_mode s) (_inverter s) (_batteryDischargeEnabled s)
    (_nextInverterRestart s) (_nextCalculateCheck s)
    v (_verboseLogging s) (sent s)
    (MessageOutput s).
Definition set_verboseLogging (v : bool) (s : PowerLimiterClass) :=
  mkPL (_lastRequestedPowerLimit s) (_lastPowerLimitMillis s)
    (_shutdownTimeout s) (_lastStatus s)
    (_lastStatusPrinted s) (_lastCalculation s) (_calculationBackoffMs s)
    (_mode s) (_inverter s) (_batteryDischargeEnabled s)
    (_nextInverterRestart s) (_nextCalculateCheck s)
    (_fullSolarPassThroughEnabled s) v (sent s)
    (MessageOutput s).
Definition set_sent (v : list Command) (s : PowerLimiterClass) :=
  mkPL (_lastRequestedPowerLimit s) (_lastPowerLimitMillis s)
    (_shutdownTimeout s) (_lastStatus s)
    (_lastStatusPrinted s) (_lastCalculation s) (_calculationBackoffMs s)
    (_mode s) (_inverter s) (_batteryDischargeEnabled s)
    (_nextInverterRestart s) (_nextCalculateCheck s)
    (_fullSolarPassThroughEnabled s) (_verboseLogging s) v
    (MessageOutput s).
Definition set_MessageOutput (v : list LogMsg) (s : PowerLimiterClass) :=
  mkPL (_lastRequestedPowerLimit s) (_lastPowerLimitMillis s)
    (_shutdownTimeout s) (_lastStatus s)
    (_lastStatusPrinted s) (_lastCalculation s) (_calculationBackoffMs s)
    (_mode s) (_inverter s) (_batteryDischargeEnabled s)
    (_nextInverterRestart s) (_nextCalculateCheck s)
    (_fullSolarPassThroughEnabled s) (_verboseLogging s) (sent s)
    v.

(** ** The monad of member functions

    A member function is a function of the object's state that returns a
    value and the state it leaves. *)

Definition M (A : Type) : Type := PowerLimiterClass -> A * PowerLimiterClass.

Definition ret {A} (a : A) : M A := fun s => (a, s).
Definition bind {A B} (m : M A) (k : A -> M B) : M B :=
  fun s => let (a, s') := m s in k a s'.
Definition get {A} (f : PowerLimiterClass -> A) : M A := fun s => (f s, s).
Definition modify (f : PowerLimiterClass -> PowerLimiterClass) : M unit :=
  fun s => (tt, f s).

Declare Scope pl_scope.
Delimit Scope pl_scope with pl.
Notation "x <- m ;; k" := (bind m (fun x => k))
  (at level 61, m at next level, right associativity) : pl_scope.
Notation "m ;; k" := (bind m (fun _ => k))
  (at level 61, right associativity) : pl_scope.
Open Scope pl_scope.

Definition println (m : LogMsg) : M unit :=
  modify (fun s => set_MessageOutput (MessageOutput s ++ [m]) s).
Definition send (c : Command) : M unit :=
  modify (fun s => set_sent (sent s ++ [c]) s).
(** printing under [if (_verboseLogging)]; [site] is the line of the first
    printf of the block. The arguments of these printfs are variables and
    calls that read the collaborators without another effect, so the model
    records that the block printed, not what. *)
Definition verbose (site : nat) : M unit :=
  v <- get _verboseLogging ;;
  if v then println (LogVerbose site) else ret tt.

(** ** The member functions of PowerLimiterClass *)

Section PowerLimiter.

(** the collaborators during the call. *)
Variable env : Env.

(** [static constexpr uint32_t _calculationBackoffMsDefault] is declared in
    PowerLimiter.h; the functions are read for any value of it. *)
Variable _calculationBackoffMsDefault : Z.

Let cfg : CONFIG_T := config env.

(** announceStatus(): prints the status when it changed, or every ten
    seconds; stays silent while disabled by configuration. *)
Definition announceStatus (status : Status) : M unit :=
  lastStatus <- get _lastStatus ;;
  lastStatusPrinted <- get _lastStatusPrinted ;;
  if Status_eqb lastStatus status
     && (millis env <? u32 (lastStatusPrinted + 10 * 1000))
  then ret tt
  else if Status_eqb status DisabledByConfig && Status_eqb lastStatus status
  then ret tt
  else
    println (LogStatus status) ;;
    modify (set_lastStatus status) ;;
    modify (set_lastStatusPrinted (millis env)).

(** commitPowerLimit() *)
Definition commitPowerLimit (inverter : InverterRef) (limit : Z)
    (enablePowerProduction : bool) : M unit :=
  (if negb enablePowerProduction && isProducing (deref env inverter)
   then println LogStoppingInverter ;;
        send (sendPowerControlRequest inverter false)
   else ret tt) ;;
  send (sendActivePowerControlRequest_AbsolutNonPersistent inverter
          (inject_Z limit)) ;;
  modify (set_lastRequestedPowerLimit limit) ;;
  modify (set_lastPowerLimitMillis (millis env)) ;;
  (if enablePowerProduction && negb (isProducing (deref env inverter))
   then println LogStartingInverter ;;
        send (sendPowerControlRequest inverter true)
   else ret tt).

(** shutdown(Status) *)
Definition shutdown (status : Status) : M bool :=
  announceStatus status ;;
  inverter <- get _inverter ;;
  shutdownTimeout <- get _shutdownTimeout ;;
  let done : M bool :=
    modify (set_inverter None) ;;
    modify (set_shutdownTimeout 0) ;;
    ret false in
  match inverter with
  | None => done
  | Some inv =>
    if negb (isProducing (deref env inv))
       || ((0 <? shutdownTimeout) && (shutdownTimeout <? millis env))
    then done
    else if negb (isReachable (deref env inv)) then ret true
    else
      (if shutdownTimeout =? 0
       then modify (set_shutdownTimeout (u32 (millis env + 10 * 1000)))
       else ret tt) ;;
      if is_pending (getLastLimitCommandSuccess (deref env inv)) then ret true
      else if is_pending (getLastPowerCommandSuccess (deref env inv))
      then ret true
      else
        commitPowerLimit inv (PowerLimiter_LowerPowerLimit cfg) false ;;
        ret true
  end.

(** Modelled from the spec: the overload [shutdown()] without argument is
    declared in PowerLimiter.h, which is not among the sources. It drives
    the shutdown again and preserves the status that led to it, that is,
    it passes the last announced status. *)
Definition shutdown_again : M bool :=
  lastStatus <- get _lastStatus ;;
  shutdown lastStatus.

(** inverterPowerDcToAc() *)
Definition inverterPowerDcToAc (inverter : InverterRef) (dcPower : Z) : Z :=
  let inverterEfficiencyPercent :=
    getChannelFieldValue (deref env inverter) TYPE_AC CH0 FLD_EFF in
  let inverterEfficiencyFactor : Q :=
    if Qlt_bool 0 inverterEfficiencyPercent
    then (inverterEfficiencyPercent / 100)%Q else (967 # 1000)%Q in
  let lossesFactor : Q :=
    (1 - inject_Z (PowerLimiter_SolarPassThroughLosses cfg) / 100)%Q in
  i32 (Qtrunc (inject_Z dcPower * inverterEfficiencyFactor * lossesFactor)%Q).

(** getLoadCorrectedVoltage() *)
Definition getLoadCorrectedVoltage : M Q :=
  inverter <- get _inverter ;;
  match inverter with
  | None => println LogNoInverterProgrammerError ;; ret 0%Q
  | Some inv =>
    let channel := PowerLimiter_InverterChannelId cfg in
    let acPower := getChannelFieldValue (deref env inv) TYPE_AC CH0 FLD_PAC in
    let dcVoltage :=
      getChannelFieldValue (deref env inv) TYPE_DC channel FLD_UDC in
    if Qle_bool dcVoltage 0 then ret 0%Q
    else ret (dcVoltage
              + acPower * PowerLimiter_VoltageLoadCorrectionFactor cfg)%Q
  end.

(** testThreshold() *)
Definition testThreshold (socThreshold voltThreshold : Q)
    (compare : Q -> Q -> bool) : M bool :=
  if Battery_Enabled cfg && Qlt_bool 0 socThreshold
     && isValid env && (getSoCAgeSeconds env <? 60)
  then ret (compare (inject_Z (getSoC env)) socThreshold)
  else if Qle_bool voltThreshold 0 then ret false
  else
    v <- getLoadCorrectedVoltage ;;
    ret (compare v voltThreshold).

(** the three comparisons handed to testThreshold(). *)
Definition cmp_ge (a b : Q) : bool := Qle_bool b a.
Definition cmp_le (a b : Q) : bool := Qle_bool a b.
Definition cmp_lt (a b : Q) : bool := Qlt_bool a b.

Definition isStartThresholdReached : M bool :=
  testThreshold (inject_Z (PowerLimiter_BatterySocStartThreshold cfg))
    (PowerLimiter_VoltageStartThreshold cfg) cmp_ge.

Definition isStopThresholdReached : M bool :=
  testThreshold (inject_Z (PowerLimiter_BatterySocStopThreshold cfg))
    (PowerLimiter_VoltageStopThreshold cfg) cmp_le.

Definition isBelowStopThreshold : M bool :=
  testThreshold (inject_Z (PowerLimiter_BatterySocStopThreshold cfg))
    (PowerLimiter_VoltageStopThreshold cfg) cmp_lt.

(** canUseDirectSolarPower(); [||] evaluates its operands from the left
    and stops at the first that holds. *)
Definition canUseDirectSolarPower : M bool :=
  if negb (PowerLimiter_SolarPassThroughEnabled cfg) then ret false
  else
    below <- isBelowStopThreshold ;;
    if below || negb (Vedirect_Enabled cfg) || negb (isDataValid env)
    then ret false
    else ret (20 <=? veFrame_PPV env).

(** getSolarChargePower() *)
Definition getSolarChargePower : M Z :=
  usable <- canUseDirectSolarPower ;;
  if negb usable then ret 0
  else ret (i32 (Qtrunc (veFrame_V env * veFrame_I env)%Q)).

(** useFullSolarPassthrough() *)
Definition useFullSolarPassthrough : M bool :=
  if negb (PowerLimiter_SolarPassThroughEnabled cfg) then ret false
  else
    start <- testThreshold
               (inject_Z (PowerLimiter_FullSolarPassThroughSoc cfg))
               (PowerLimiter_FullSolarPassThroughStartVoltage cfg) cmp_ge ;;
    (if start then modify (set_fullSolarPassThroughEnabled true)
     else ret tt) ;;
    stop <- testThreshold
               (inject_Z (PowerLimiter_FullSolarPassThroughSoc cfg))
               (PowerLimiter_FullSolarPassThroughStopVoltage cfg) cmp_lt ;;
    (if stop then modify (set_fullSolarPassThroughEnabled false)
     else ret tt) ;;
    get _fullSolarPassThroughEnabled.

(** calcPowerLimit() *)
Definition calcPowerLimit (inverter : InverterRef)
    (solarPowerEnabled batteryDischargeEnabled : bool) : M Z :=
  let newPowerLimit := i32 (round (getPowerTotal env)) in
  if negb solarPowerEnabled && negb batteryDischargeEnabled then ret 0
  else
    let newPowerLimit :=
      if PowerLimiter_IsInverterBehindPowerMeter cfg
      then
        let acPower :=
          i32 (Qtrunc (getChannelFieldValue (deref env inverter)
                         TYPE_AC CH0 FLD_PAC)) in
        i32 (newPowerLimit + acPower)
      else newPowerLimit in
    let newPowerLimit :=
      i32 (newPowerLimit - PowerLimiter_TargetPowerConsumption cfg) in
    solarChargePower <- getSolarChargePower ;;
    let adjustedVictronChargePower :=
      inverterPowerDcToAc inverter solarChargePower in
    (* the second operand of [&&] is evaluated only if the first holds *)
    full <- (if batteryDischargeEnabled then useFullSolarPassthrough
             else ret false) ;;
    let finish (newPowerLimit : Z) : M Z :=
      if solarPowerEnabled && negb batteryDischargeEnabled
      then verbose 476 ;;
           ret (Z.min newPowerLimit adjustedVictronChargePower)
      else ret newPowerLimit in
    if batteryDischargeEnabled && full
    then finish (if newPowerLimit >? adjustedVictronChargePower
                 then newPowerLimit else adjustedVictronChargePower)
    else if getAutoPowerStatus env then ret 0
    else finish newPowerLimit.

(** the loop over the DC channels in setNewPowerLimit(): the channels whose
    FLD_PDC is above 2.0. *)
Fixpoint countProducing (inv : InverterAbstract) (dcChnls : list ChannelNum_t)
    : Z :=
  match dcChnls with
  | [] => 0
  | c :: rest =>
    (if Qlt_bool 2 (getChannelFieldValue inv TYPE_DC c FLD_PDC)
     then 1 else 0) + countProducing inv rest
  end.

(** setNewPowerLimit() *)
Definition setNewPowerLimit (inverter : InverterRef) (newPowerLimit : Z)
    : M bool :=
  if newPowerLimit <? PowerLimiter_LowerPowerLimit cfg then shutdown_again
  else
    let effPowerLimit :=
      Z.min newPowerLimit (PowerLimiter_UpperPowerLimit cfg) in
    let dcChnls := getChannelsByType_DC (deref env inverter) in
    let dcTotalChnls := Z.of_nat (length dcChnls) in
    let dcProdChnls := countProducing (deref env inverter) dcChnls in
    effPowerLimit <-
      (if (0 <? dcProdChnls) && negb (dcProdChnls =? dcTotalChnls)
       then println (LogScalingPowerLimit dcTotalChnls dcProdChnls) ;;
            ret (i32 (round (inject_Z effPowerLimit * inject_Z dcTotalChnls
                             / inject_Z dcProdChnls)%Q))
       else ret effPowerLimit) ;;
    let effPowerLimit := Z.min effPowerLimit (getMaxPower (deref env inverter)) in
    lastRequestedPowerLimit <- get _lastRequestedPowerLimit ;;
    let diff := i32 (Z.abs (i32 (effPowerLimit - lastRequestedPowerLimit))) in
    let hysteresis := PowerLimiter_TargetPowerConsumptionHysteresis cfg in
    lastPowerLimitMillis <- get _lastPowerLimitMillis ;;
    let ageMillis := u32 (millis env - lastPowerLimitMillis) in
    if (diff <? hysteresis) && (ageMillis <? 60 * 1000)
    then verbose 558 ;; ret false
    else
      verbose 565 ;;
      commitPowerLimit inverter effPowerLimit true ;;
      ret true.

(** calcNextInverterRestart() *)
Definition calcNextInverterRestart : M unit :=
  if PowerLimiter_RestartHour cfg <? 0
  then modify (set_nextInverterRestart 1) ;; println LogRestartDisabled
  else
    match getLocalTime env with
    | Some timeinfo =>
      let dayMinutes := u16 (tm_hour timeinfo * 60 + tm_min timeinfo) in
      let targetMinutes := u16 (PowerLimiter_RestartHour cfg * 60) in
      (if PowerLimiter_RestartHour cfg >? tm_hour timeinfo
       then modify (set_nextInverterRestart (u32 (targetMinutes - dayMinutes)))
       else modify (set_nextInverterRestart
                      (u32 (1440 - dayMinutes + targetMinutes)))) ;;
      verbose 680 ;;
      n <- get _nextInverterRestart ;;
      modify (set_nextInverterRestart (u32 (n * 60000))) ;;
      n <- get _nextInverterRestart ;;
      modify (set_nextInverterRestart (u32 (n + millis env)))
    | None =>
      println LogRestartNoLocalTime ;;
      modify (set_nextInverterRestart 0)
    end ;;
    n <- get _nextInverterRestart ;;
    println (LogNextInverterRestart n).

(** unconditionalSolarPassthrough() *)
Definition unconditionalSolarPassthrough (inverter : InverterRef) : M unit :=
  if negb (Vedirect_Enabled cfg) || negb (isDataValid env)
  then shutdown NoVeDirect ;; ret tt
  else
    let solarPower := i32 (Qtrunc (veFrame_V env * veFrame_I env)%Q) in
    setNewPowerLimit inverter (inverterPowerDcToAc inverter solarPower) ;;
    announceStatus UnconditionalSolarPassthrough.

(** the battery charging cycle conditions of loop(). *)
Definition updateBatteryDischargeEnabled : M unit :=
  stop <- isStopThresholdReached ;;
  if stop then modify (set_batteryDischargeEnabled false)
  else
    (if negb (PowerLimiter_SolarPassThroughEnabled cfg)
     then start <- isStartThresholdReached ;;
          if start then modify (set_batteryDischargeEnabled true) else ret tt
     else ret tt) ;;
    (if PowerLimiter_SolarPassThroughEnabled cfg
        && DrainStrategy_eqb (PowerLimiter_BatteryDrainStategy cfg)
             EMPTY_AT_NIGHT
     then start <- isStartThresholdReached ;;
          if start then modify (set_batteryDischargeEnabled true)
          else usable <- canUseDirectSolarPower ;;
               modify (set_batteryDischargeEnabled (negb usable))
     else ret tt) ;;
    (if PowerLimiter_SolarPassThroughEnabled cfg
     then start <- isStartThresholdReached ;;
          if start && DrainStrategy_eqb (PowerLimiter_BatteryDrainStategy cfg)
                        EMPTY_WHEN_FULL
          then modify (set_batteryDischargeEnabled true) else ret tt
     else ret tt).

(** the restart scheduler of loop(). *)
Definition checkInverterRestart (inverter : InverterRef) : M unit :=
  nextInverterRestart <- get _nextInverterRestart ;;
  (if (1 <? nextInverterRestart) && (nextInverterRestart <=? millis env)
   then println LogSendInverterRestart ;;
        send (sendRestartControlRequest inverter) ;;
        calcNextInverterRestart
   else ret tt) ;;
  nextInverterRestart <- get _nextInverterRestart ;;
  if (0 <=? PowerLimiter_RestartHour cfg) && (nextInverterRestart =? 0)
  then
    nextCalculateCheck <- get _nextCalculateCheck ;;
    if nextCalculateCheck <? millis env
    then
      match getLocalTime env with
      | Some _ => calcNextInverterRestart
      | None =>
        println LogNtpNotReady ;;
        modify (set_nextCalculateCheck (u32 (nextCalculateCheck + 5000)))
      end
    else ret tt
  else ret tt.

(** the last part of loop(), after the test of the calculation backoff:
    one calculation of the power limit. [_inverter] is the inverter loop()
    picked up, [inverter], until setNewPowerLimit() returns. *)
Definition calculate (inverter : InverterRef) : M unit :=
  verbose 231 ;;
  checkInverterRestart inverter ;;
  updateBatteryDischargeEnabled ;;
  verbose 287 ;; verbose 295 ;; verbose 300 ;; verbose 305 ;; verbose 309 ;;
  solarPowerEnabled <- canUseDirectSolarPower ;;
  batteryDischargeEnabled <- get _batteryDischargeEnabled ;;
  newPowerLimit <- calcPowerLimit inverter solarPowerEnabled
                     batteryDischargeEnabled ;;
  limitUpdated <- setNewPowerLimit inverter newPowerLimit ;;
  verbose 320 ;;
  modify (set_lastCalculation (millis env)) ;;
  if negb limitUpdated
  then
    calculationBackoffMs <- get _calculationBackoffMs ;;
    modify (set_calculationBackoffMs
              (Z.min 1024 (u32 (calculationBackoffMs * 2)))) ;;
    announceStatus Stable
  else modify (set_calculationBackoffMs _calculationBackoffMsDefault).

(** loop() *)
Definition loop : M unit :=
  modify (set_verboseLogging (PowerLimiter_VerboseLogging cfg)) ;;
  match getLocalTime env with
  | None => announceStatus WaitingForValidTimestamp
  | Some _ =>
  shutdownTimeout <- get _shutdownTimeout ;;
  if 0 <? shutdownTimeout then shutdown_again ;; ret tt
  else if negb (PowerLimiter_Enabled cfg)
  then shutdown DisabledByConfig ;; ret tt
  else
  mode <- get _mode ;;
  if Mode_eqb Disabled mode then shutdown DisabledByMqtt ;; ret tt
  else
  match getInverterByPos env (PowerLimiter_InverterId cfg) with
  | None => shutdown InverterInvalid ;; ret tt
  | Some currentInverter =>
  previous <- get _inverter ;;
  if match previous with
     | Some inv =>
       negb (serial (deref env inv) =? serial (deref env currentInverter))
     | None => false
     end
  then shutdown InverterChanged ;; ret tt
  else
  modify (set_inverter (Some currentInverter)) ;;
  let inverter := deref env currentInverter in
  if negb (isReachable inverter) then announceStatus InverterOffline
  else if negb (getEnableCommands inverter)
  then announceStatus InverterCommandsDisabled
  else if is_pending (getLastLimitCommandSuccess inverter)
  then announceStatus InverterLimitPending
  else if is_pending (getLastPowerCommandSuccess inverter)
  then announceStatus InverterPowerCmdPending
  else if getMaxPower inverter <=? 0
  then announceStatus InverterDevInfoPending
  else if Mode_eqb UnconditionalFullSolarPassthrough mode
  then unconditionalSolarPassthrough currentInverter
  else if negb (PowerMeter_Enabled cfg)
  then shutdown PowerMeterDisabled ;; ret tt
  else if 30 * 1000 <? u32 (millis env - getLastPowerMeterUpdate env)
  then shutdown PowerMeterTimeout ;; ret tt
  else
  let lastUpdateCmd :=
    Z.max (SystemConfigPara_getLastUpdateCommand inverter)
          (PowerCommand_getLastUpdateCommand inverter) in
  let settlingEnd := u32 (lastUpdateCmd + 3 * 1000) in
  if millis env <? settlingEnd then announceStatus Settling
  else if Statistics_getLastUpdate inverter <=? settlingEnd
  then announceStatus InverterStatsPending
  else if getLastPowerMeterUpdate env <=? settlingEnd
  then announceStatus PowerMeterPending
  else
  lastCalculation <- get _lastCalculation ;;
  calculationBackoffMs <- get _calculationBackoffMs ;;
  if millis env <? u32 (lastCalculation + calculationBackoffMs)
  then announceStatus Stable
  else calculate currentInverter
  end
  end.

End PowerLimiter.

(** Modelled from the spec: setMode() is defined in PowerLimiter.h, which
    is not among the sources. The mode is set from outside (MQTT, web
    application), between two calls of loop(), and persists until it is set
    again. *)
Definition setMode (m : Mode) : M unit := modify (set_mode m).


(** * Statements *)

(** ** What is observed of a call *)

(** the power limit requests among the commands handed to the inverter. *)
Definition is_limit_request (c : Command) : bool :=
  match c with
  | sendActivePowerControlRequest_AbsolutNonPersistent _ _ => true
  | _ => false
  end.

Definition limitRequests (cmds : list Command) : list Command :=
  filter is_limit_request cmds.

(** a call that took the object from [s] to [s'] committed a limit. *)
Definition committedLimit (s s' : PowerLimiterClass) : Prop :=
  exists inv limit,
    limitRequests (sent s')
    = limitRequests (sent s)
      ++ [sendActivePowerControlRequest_AbsolutNonPersistent inv limit].

(** the commands of one commit of [limit] with power production enabled. *)
Definition commitCommands (env : Env) (inverter : InverterRef) (limit : Z)
    : list Command :=
  sendActivePowerControlRequest_AbsolutNonPersistent inverter (inject_Z limit)
  :: (if isProducing (deref env inverter) then []
      else [sendPowerControlRequest inverter true]).

(** ** Threshold evaluator *)


(** ** Solar availability oracle *)



(** the start and the stop condition of the full solar passthrough. *)
Definition fullPassthroughStart (env : Env) (s : PowerLimiterClass) : bool :=
  fst (testThreshold env
         (inject_Z (PowerLimiter_FullSolarPassThroughSoc (config env)))
         (PowerLimiter_FullSolarPassThroughStartVoltage (config env))
         cmp_ge s).

Definition fullPassthroughStop (env : Env) (s : PowerLimiterClass) : bool :=
  fst (testThreshold env
         (inject_Z (PowerLimiter_FullSolarPassThroughSoc (config env)))
         (PowerLimiter_FullSolarPassThroughStopVoltage (config env))
         cmp_lt s).

(** useFullSolarPassthrough() called once per measurement of a sequence. *)
Fixpoint sweep (measurements : list Env) (s : PowerLimiterClass)
    : PowerLimiterClass :=
  match measurements with
  | [] => s
  | env :: rest => sweep rest (snd (useFullSolarPassthrough env s))
  end.

(** C7 as the spec states it, for every configuration. *)
Definition fullPassthroughLatch_as_stated : Prop :=
  forall (measurements : list Env) (env : Env) (s : PowerLimiterClass),
    let s1 := sweep measurements s in
    let s2 := snd (useFullSolarPassthrough env s1) in
    (fullPassthroughStart env s1 = true ->
       _fullSolarPassThroughEnabled s2 = true)
    /\ (fullPassthroughStop env s1 = true ->
          _fullSolarPassThroughEnabled s2 = false)
    /\ (fullPassthroughStart env s1 = false ->
        fullPassthroughStop env s1 = false ->
          _fullSolarPassThroughEnabled s2 = _fullSolarPassThroughEnabled s1).

(** ** Power limit calculator *)

(** the power required to compensate the household consumption, as
    calcPowerLimit() computes it before it looks at the solar power: the
    rounded total of the power meter, plus the inverter's AC power if the
    inverter is behind the power meter, minus the target consumption. *)
Definition rawPowerLimit (env : Env) (inverter : InverterRef) : Z :=
  let newPowerLimit := i32 (round (getPowerTotal env)) in
  let newPowerLimit :=
    if PowerLimiter_IsInverterBehindPowerMeter (config env)
    then i32 (newPowerLimit
              + i32 (Qtrunc (getChannelFieldValue (deref env inverter)
                               TYPE_AC CH0 FLD_PAC)))
    else newPowerLimit in
  i32 (newPowerLimit - PowerLimiter_TargetPowerConsumption (config env)).

(** the AC equivalent of the solar charge power. *)
Definition solarAcPower (env : Env) (inverter : InverterRef)
    (s : PowerLimiterClass) : Z :=
  inverterPowerDcToAc env inverter (fst (getSolarChargePower env s)).

(** C1 as the spec states it: the external power source is looked at in
    the cases 3 and 4 only. *)
Definition calcPowerLimit_as_stated : Prop :=
  forall (env : Env) (inverter : InverterRef)
         (solarPowerEnabled batteryDischargeEnabled : bool)
         (s : PowerLimiterClass),
    let raw := rawPowerLimit env inverter in
    let solarAC := solarAcPower env inverter s in
    fst (calcPowerLimit env inverter solarPowerEnabled
           batteryDischargeEnabled s)
    = if batteryDischargeEnabled
      then if fst (useFullSolarPassthrough env s) then Z.max raw solarAC
           else if getAutoPowerStatus env then 0 else raw
      else if solarPowerEnabled then Z.min raw solarAC else 0.

(** ** Limit committer *)

(** the effective limit of setNewPowerLimit(): what it computes from the
    requested limit between the test of the lower bound and the
    hysteresis. *)
Definition effPowerLimit (env : Env) (inverter : InverterRef)
    (newPowerLimit : Z) : Z :=
  let inv := deref env inverter in
  let effPowerLimit :=
    Z.min newPowerLimit (PowerLimiter_UpperPowerLimit (config env)) in
  let dcChnls := getChannelsByType_DC inv in
  let dcTotalChnls := Z.of_nat (length dcChnls) in
  let dcProdChnls := countProducing inv dcChnls in
  let effPowerLimit :=
    if (0 <? dcProdChnls) && negb (dcProdChnls =? dcTotalChnls)
    then i32 (round (inject_Z effPowerLimit * inject_Z dcTotalChnls
                     / inject_Z dcProdChnls)%Q)
    else effPowerLimit in
  Z.min effPowerLimit (getMaxPower inv).

(** the DC channels whose last power reading exceeds 2 W. *)
Definition producingChannels (inv : InverterAbstract) : list ChannelNum_t :=
  filter (fun c => Qlt_bool 2 (getChannelFieldValue inv TYPE_DC c FLD_PDC))
    (getChannelsByType_DC inv).

(** the requested limit clamped to the configured upper limit and scaled by
    total/producing channels, in the words of C3. *)
Definition scaledLimit (env : Env) (inverter : InverterRef) (requested : Z)
    : Z :=
  let inv := deref env inverter in
  let clamped := Z.min requested (PowerLimiter_UpperPowerLimit (config env)) in
  let producing := Z.of_nat (length (producingChannels inv)) in
  let total := Z.of_nat (length (getChannelsByType_DC inv)) in
  if (0 <? producing) && (producing <? total)
  then round (inject_Z clamped * (inject_Z total / inject_Z producing))%Q
  else clamped.

(** the effective limit in the words of C3. *)
Definition effPowerLimit_stated (env : Env) (inverter : InverterRef)
    (requested : Z) : Z :=
  Z.min (scaledLimit env inverter requested)
    (getMaxPower (deref env inverter)).

(** C3 as the spec states it, the part below the lower power limit: no
    limit command is sent. *)
Definition noLimitBelowLowerBound_as_stated : Prop :=
  forall (env : Env) (inverter : InverterRef) (requested : Z)
         (s : PowerLimiterClass),
    requested < PowerLimiter_LowerPowerLimit (config env) ->
    limitRequests (sent (snd (setNewPowerLimit env inverter requested s)))
    = limitRequests (sent s).

(** ** Shutdown *)





(** ** Restart scheduler *)


(** ** Control loop *)

(** the object as loop() has it once it picked up [currentInverter]. *)
Definition bound (env : Env) (currentInverter : InverterRef)
    (s : PowerLimiterClass) : PowerLimiterClass :=
  set_inverter (Some currentInverter)
    (set_verboseLogging (PowerLimiter_VerboseLogging (config env)) s).

(** the tests of loop() before it looks at the mode of operation (priority
    steps 1 to 10), all passed with [currentInverter] as the configured
    inverter. *)
Definition dispatchGuards (env : Env) (s : PowerLimiterClass)
    (currentInverter : InverterRef) : bool :=
  let inverter := deref env currentInverter in
  match getLocalTime env with Some _ => true | None => false end
  && negb (0 <? _shutdownTimeout s)
  && PowerLimiter_Enabled (config env)
  && negb (Mode_eqb Disabled (_mode s))
  && match getInverterByPos env (PowerLimiter_InverterId (config env)) with
     | Some c => Nat.eqb c currentInverter
     | None => false
     end
  && negb match _inverter s with
          | Some inv =>
            negb (serial (deref env inv) =? serial inverter)
          | None => false
          end
  && isReachable inverter
  && getEnableCommands inverter
  && negb (is_pending (getLastLimitCommandSuccess inverter))
  && negb (is_pending (getLastPowerCommandSuccess inverter))
  && negb (getMaxPower inverter <=? 0).

(** the tests of loop() between the mode of operation and the calculation
    (priority steps 11 to 15), all passed: the call runs the calculation. *)
Definition calculationGuards (env : Env) (s : PowerLimiterClass)
    (currentInverter : InverterRef) : bool :=
  let inverter := deref env currentInverter in
  let settlingEnd :=
    u32 (Z.max (SystemConfigPara_getLastUpdateCommand inverter)
               (PowerCommand_getLastUpdateCommand inverter) + 3 * 1000) in
  dispatchGuards env s currentInverter
  && negb (Mode_eqb UnconditionalFullSolarPassthrough (_mode s))
  && PowerMeter_Enabled (config env)
  && negb (30 * 1000 <? u32 (millis env - getLastPowerMeterUpdate env))
  && negb (millis env <? settlingEnd)
  && negb (Statistics_getLastUpdate inverter <=? settlingEnd)
  && negb (getLastPowerMeterUpdate env <=? settlingEnd)
  && negb (millis env <? u32 (_lastCalculation s + _calculationBackoffMs s)).

(** what happens to the limiter over time: a call of loop() with the
    collaborators as they are at that time, or a change of the mode. *)
Inductive Event : Type :=
| Tick (env : Env)
| SetMode (m : Mode).

Fixpoint run (calculationBackoffMsDefault : Z) (events : list Event)
    (s : PowerLimiterClass) : PowerLimiterClass :=
  match events with
  | [] => s
  | Tick env :: rest =>
    run calculationBackoffMsDefault rest
      (snd (loop env calculationBackoffMsDefault s))
  | SetMode m :: rest =>
    run calculationBackoffMsDefault rest (snd (setMode m s))
  end.

(** Modelled from the spec: the initial values of the member fields are set
    in PowerLimiter.h, which is not among the sources. At startup the mode
    is Normal, the status Initializing, the backoff has its default and no
    inverter is bound. *)
Definition at_startup (calculationBackoffMsDefault : Z)
    (s : PowerLimiterClass) : Prop :=
  _mode s = Normal /\ _lastStatus s = Initializing
  /\ _calculationBackoffMs s = calculationBackoffMsDefault
  /\ _inverter s = None /\ _shutdownTimeout s = 0.

(** C4 as the spec states it, the part on commits: every call of loop()
    that commits a limit resets the backoff. *)
Definition backoffReset_as_stated : Prop :=
  forall (calculationBackoffMsDefault : Z) (events : list Event)
         (s0 : PowerLimiterClass) (env : Env),
    0 <= calculationBackoffMsDefault <= 1024 ->
    at_startup calculationBackoffMsDefault s0 ->
    let s := run calculationBackoffMsDefault events s0 in
    let s' := snd (loop env calculationBackoffMsDefault s) in
    committedLimit s s' ->
    _calculationBackoffMs s' = calculationBackoffMsDefault.

(** C10 as the spec states it: every call that reaches the test of the
    mode in the unconditional mode announces the unconditional solar
    passthrough. *)
Definition unconditionalPassthrough_as_stated : Prop :=
  forall (env : Env) (calculationBackoffMsDefault : Z)
         (s : PowerLimiterClass) (currentInverter : InverterRef),
    dispatchGuards env s currentInverter = true ->
    _mode s = UnconditionalFullSolarPassthrough ->
    _lastStatus (snd (loop env calculationBackoffMsDefault s))
    = UnconditionalSolarPassthrough.

(** the environment with other readings of the power meter. *)
Definition with_power_meter (env : Env) (enabled : bool) (powerTotal : Q)
    (lastPowerMeterUpdate : Z) : Env :=
  let c := config env in
  {| config :=
       {| PowerLimiter_Enabled := PowerLimiter_Enabled c;
          PowerLimiter_VerboseLogging := PowerLimiter_VerboseLogging c;
          PowerLimiter_SolarPassThroughEnabled :=
            PowerLimiter_SolarPassThroughEnabled c;
          PowerLimiter_SolarPassThroughLosses :=
            PowerLimiter_SolarPassThroughLosses c;
          PowerLimiter_BatteryDrainStategy :=
            PowerLimiter_BatteryDrainStategy c;
          PowerLimiter_IsInverterBehindPowerMeter :=
            PowerLimiter_IsInverterBehindPowerMeter c;
          PowerLimiter_InverterId := PowerLimiter_InverterId c;
          PowerLimiter_InverterChannelId := PowerLimiter_InverterChannelId c;
          PowerLimiter_TargetPowerConsumption :=
            PowerLimiter_TargetPowerConsumption c;
          PowerLimiter_TargetPowerConsumptionHysteresis :=
            PowerLimiter_TargetPowerConsumptionHysteresis c;
          PowerLimiter_LowerPowerLimit := PowerLimiter_LowerPowerLimit c;
          PowerLimiter_UpperPowerLimit := PowerLimiter_UpperPowerLimit c;
          PowerLimiter_BatterySocStartThreshold :=
            PowerLimiter_BatterySocStartThreshold c;
          PowerLimiter_BatterySocStopThreshold :=
            PowerLimiter_BatterySocStopThreshold c;
          PowerLimiter_VoltageStartThreshold :=
            PowerLimiter_VoltageStartThreshold c;
          PowerLimiter_VoltageStopThreshold :=
            PowerLimiter_VoltageStopThreshold c;
          PowerLimiter_VoltageLoadCorrectionFactor :=
            PowerLimiter_VoltageLoadCorrectionFactor c;
          PowerLimiter_RestartHour := PowerLimiter_RestartHour c;
          PowerLimiter_FullSolarPassThroughSoc :=
            PowerLimiter_FullSolarPassThroughSoc c;
          PowerLimiter_FullSolarPassThroughStartVoltage :=
            PowerLimiter_FullSolarPassThroughStartVoltage c;
          PowerLimiter_FullSolarPassThroughStopVoltage :=
            PowerLimiter_FullSolarPassThroughStopVoltage c;
          PowerMeter_Enabled := enabled;
          Vedirect_Enabled := Vedirect_Enabled c;
          Battery_Enabled := Battery_Enabled c |};
     millis := millis env;
     getLocalTime := getLocalTime env;
     getInverterByPos := getInverterByPos env;
     deref := deref env;
     getPowerTotal := powerTotal;
     getLastPowerMeterUpdate := lastPowerMeterUpdate;
     isDataValid := isDataValid env;
     veFrame_V := veFrame_V env;
     veFrame_I := veFrame_I env;
     veFrame_PPV := veFrame_PPV env;
     isValid := isValid env;
     getSoC := getSoC env;
     getSoCAgeSeconds := getSoCAgeSeconds env;
     getAutoPowerStatus := getAutoPowerStatus env |}.

(** ** Vocabulary of the proofs *)

(** [logs m]: [m] only prints; the fields of the object and the commands
    sent stay as they are. *)
Definition logs {A} (m : M A) : Prop :=
  forall s, exists l, snd (m s) = set_MessageOutput (MessageOutput s ++ l) s.

(** [keeps f m]: [m] leaves what [f] reads of the object as it is. *)
Definition keeps {A X} (f : PowerLimiterClass -> X) (m : M A) : Prop :=
  forall s, f (snd (m s)) = f s.

(** [f] does not look at the field written by [set]. *)
Definition ignores {X V} (f : PowerLimiterClass -> X)
    (set : V -> PowerLimiterClass -> PowerLimiterClass) : Prop :=
  forall v s, f (set v s) = f s.

(** what the backoff of a calculation depends on: the bound inverter, the
    shutdown timer, the backoff itself and the limits requested so far. *)
Definition core (s : PowerLimiterClass)
    : option InverterRef * Z * Z * list Command :=
  (_inverter s, _shutdownTimeout s, _calculationBackoffMs s,
   limitRequests (sent s)).

(** * Sample inputs *)

(** an inverter of serial 1164 with the DC channels 1 and 2 and a maximum
    power of 600 W; no command is pending, the last command was answered
    at 1000 ms, the statistics are of 9000 ms. *)
Definition sample_inverter_with (reachable producing : bool)
    (stats : ChannelType_t -> ChannelNum_t -> FieldId_t -> Q)
    : InverterAbstract :=
  {| serial := 1164;
     isReachable := reachable;
     isProducing := producing;
     getEnableCommands := true;
     getLastLimitCommandSuccess := CMD_OK;
     SystemConfigPara_getLastUpdateCommand := 1000;
     getLastPowerCommandSuccess := CMD_OK;
     PowerCommand_getLastUpdateCommand := 1000;
     getMaxPower := 600;
     Statistics_getLastUpdate := 9000;
     getChannelsByType_DC := [1%nat; 2%nat];
     getChannelFieldValue := stats |}.

(** in reach and producing 100 W at an efficiency of 95 %, 50 W on each DC
    channel at 26 V. *)
Definition sample_inverter : InverterAbstract :=
  sample_inverter_with true true
    (fun t c f =>
       match t, f with
       | TYPE_AC, FLD_PAC => 100%Q
       | TYPE_AC, FLD_EFF => 95%Q
       | TYPE_DC, FLD_UDC => 26%Q
       | TYPE_DC, FLD_PDC => 50%Q
       | _, _ => 0%Q
       end).

(** the same with DC channel 1 producing alone. *)
Definition sample_inverter_half : InverterAbstract :=
  sample_inverter_with true true
    (fun t c f =>
       match t, f, c with
       | TYPE_AC, FLD_PAC, _ => 100%Q
       | TYPE_AC, FLD_EFF, _ => 95%Q
       | TYPE_DC, FLD_UDC, _ => 26%Q
       | TYPE_DC, FLD_PDC, 1%nat => 50%Q
       | _, _, _ => 0%Q
       end).


(** switched off: in reach, not producing, 26 V on the DC side. *)
Definition sample_inverter_off : InverterAbstract :=
  sample_inverter_with true false
    (fun t c f =>
       match t, f with
       | TYPE_DC, FLD_UDC => 26%Q
       | _, _ => 0%Q
       end).

(** in reach, 28 V on the DC side, no AC power. *)
Definition sample_inverter_28V : InverterAbstract :=
  sample_inverter_with true true
    (fun t c f =>
       match t, f with
       | TYPE_DC, FLD_UDC => 28%Q
       | _, _ => 0%Q
       end).

(** a configuration: limits between 10 W and 800 W, hysteresis 5 W, target
    consumption 10 W, 3 % of losses; SoC thresholds start 80 %, stop 20 %,
    full passthrough 90 %; voltage thresholds start 28 V, stop 22 V, full
    passthrough start 29 V, stop 27 V. *)
Definition sample_config_with (solarPassThrough vedirect battery : bool)
    (restartHour : Z) : CONFIG_T :=
  {| PowerLimiter_Enabled := true;
     PowerLimiter_VerboseLogging := false;
     PowerLimiter_SolarPassThroughEnabled := solarPassThrough;
     PowerLimiter_SolarPassThroughLosses := 3;
     PowerLimiter_BatteryDrainStategy := EMPTY_WHEN_FULL;
     PowerLimiter_IsInverterBehindPowerMeter := false;
     PowerLimiter_InverterId := 0;
     PowerLimiter_InverterChannelId := 0%nat;
     PowerLimiter_TargetPowerConsumption := 10;
     PowerLimiter_TargetPowerConsumptionHysteresis := 5;
     PowerLimiter_LowerPowerLimit := 10;
     PowerLimiter_UpperPowerLimit := 800;
     PowerLimiter_BatterySocStartThreshold := 80;
     PowerLimiter_BatterySocStopThreshold := 20;
     PowerLimiter_VoltageStartThreshold := 28;
     PowerLimiter_VoltageStopThreshold := 22;
     PowerLimiter_VoltageLoadCorrectionFactor := 1 # 1000;
     PowerLimiter_RestartHour := restartHour;
     PowerLimiter_FullSolarPassThroughSoc := 90;
     PowerLimiter_FullSolarPassThroughStartVoltage := 29;
     PowerLimiter_FullSolarPassThroughStopVoltage := 27;
     PowerMeter_Enabled := true;
     Vedirect_Enabled := vedirect;
     Battery_Enabled := battery |}.

(** solar passthrough, solar charger and battery interface enabled, no
    restart configured. *)
Definition sample_config : CONFIG_T := sample_config_with true true true (-1).

(** the collaborators at the clock [now], at [hour]:30 local time: one
    inverter, 500 W drawn from the grid and read 1 s ago, the solar charger
    at 26 V with valid data, the battery read 3 s ago. *)
Definition sample_env_with (cfg : CONFIG_T) (now hour : Z)
    (inverter : InverterAbstract) (solarCurrent : Q) (solarPower : Z)
    (soc : Z) (autoPower : bool) : Env :=
  {| config := cfg;
     millis := now;
     getLocalTime := Some {| tm_hour := hour; tm_min := 30 |};
     getInverterByPos := fun _ => Some 0%nat;
     deref := fun _ => inverter;
     getPowerTotal := 500;
     getLastPowerMeterUpdate := now - 1000;
     isDataValid := true;
     veFrame_V := 26;
     veFrame_I := solarCurrent;
     veFrame_PPV := solarPower;
     isValid := true;
     getSoC := soc;
     getSoCAgeSeconds := 3;
     getAutoPowerStatus := autoPower |}.

(** at the clock [now], 10:30: 260 W of solar power, the battery at 50 %. *)
Definition sample_env_at (now : Z) : Env :=
  sample_env_with sample_config now 10 sample_inverter 10 260 50 false.

Definition sample_env : Env := sample_env_at 20000.



(** the battery at 95 %, above the full passthrough threshold of 90 %, with
    solar passthrough switched off in the configuration. *)
Definition sample_env_full_no_passthrough : Env :=
  sample_env_with (sample_config_with false true true (-1)) 20000 10
    sample_inverter 10 260 95 false.

(** the same with solar passthrough switched on. *)
Definition sample_env_full : Env :=
  sample_env_with sample_config 20000 10 sample_inverter 10 260 95 false.

(** on the voltage fallback, at 28 V: between the stop voltage of 27 V and
    the start voltage of 29 V of the full passthrough. *)
Definition sample_env_between : Env :=
  sample_env_with (sample_config_with true true false (-1)) 20000 10
    sample_inverter_28V 10 260 50 false.

(** the external power source (the Huawei PSU) is active. *)
Definition sample_env_auto_power : Env :=
  sample_env_with sample_config 20000 10 sample_inverter 10 260 50 true.

(** one of the two DC channels is producing. *)
Definition sample_env_half : Env :=
  sample_env_with sample_config 20000 10 sample_inverter_half 10 260 50 false.


(** the solar charger switched off in the configuration. *)
Definition sample_env_no_vedirect : Env :=
  sample_env_with (sample_config_with true false true (-1)) 20000 10
    sample_inverter 10 260 50 false.

(** restart configured for 11 o'clock; it is 10:30. *)
Definition sample_env_restart_11 : Env :=
  sample_env_with (sample_config_with true true true 11) 20000 10
    sample_inverter 10 260 50 false.


(** at night, 3:30: no solar power, the battery at 50 %, below its start
    threshold of 80 %, the inverter off. *)
Definition sample_env_night (now : Z) : Env :=
  sample_env_with sample_config now 3 sample_inverter_off 0 0 50 false.

(** in the morning, 8:30: 390 W of solar power, the inverter still off. *)
Definition sample_env_morning (now : Z) : Env :=
  sample_env_with sample_config now 8 sample_inverter_off 15 390 50 false.

(** the limiter at startup, with a default backoff of 128 ms. *)
Definition sample_startup : PowerLimiterClass :=
  {| _lastRequestedPowerLimit := 0;
     _lastPowerLimitMillis := 0;
     _shutdownTimeout := 0;
     _lastStatus := Initializing;
     _lastStatusPrinted := 0;
     _lastCalculation := 0;
     _calculationBackoffMs := 128;
     _mode := Normal;
     _inverter := None;
     _batteryDischargeEnabled := false;
     _nextInverterRestart := 0;
     _nextCalculateCheck := 5000;
     _fullSolarPassThroughEnabled := false;
     _verboseLogging := true;
     sent := [];
     MessageOutput := [] |}.

(** the limiter bound to inverter 0. *)
Definition sample_bound : PowerLimiterClass :=
  set_inverter (Some 0%nat) sample_startup.

(** a limit of 200 W was committed at 15000 ms. *)
Definition sample_committed : PowerLimiterClass :=
  set_lastPowerLimitMillis 15000
    (set_lastRequestedPowerLimit 200 sample_bound).


(** the limiter in the mode set by MQTT. *)
Definition sample_unconditional : PowerLimiterClass :=
  set_mode UnconditionalFullSolarPassthrough sample_startup.

(** * The rest of PowerLimiterClass (src/src/PowerLimiter.cpp) *)

From Stdlib Require Import Lqa Sorted.
From Stdlib Require String.
Import String.StringSyntax.
Delimit Scope string_scope with string.

(** ** Status texts *)




(** ** What the web application and MQTT read *)

Section PowerLimiterState.

Variable env : Env.

(** the macros PL_UI_STATE_INACTIVE, PL_UI_STATE_CHARGING,
    PL_UI_STATE_USE_SOLAR_ONLY and PL_UI_STATE_USE_SOLAR_AND_BATTERY are
    defined in PowerLimiter.h; the function is read for any values of
    them. *)
Variables PL_UI_STATE_INACTIVE PL_UI_STATE_CHARGING : Z.
Variables PL_UI_STATE_USE_SOLAR_ONLY PL_UI_STATE_USE_SOLAR_AND_BATTERY : Z.

(** getPowerLimiterState() *)
Definition getPowerLimiterState : M Z :=
  inverter <- get _inverter ;;
  match inverter with
  | None => ret PL_UI_STATE_INACTIVE
  | Some inv =>
    if negb (isReachable (deref env inv)) then ret PL_UI_STATE_INACTIVE
    else
      batteryDischargeEnabled <- get _batteryDischargeEnabled ;;
      if isProducing (deref env inv) && batteryDischargeEnabled
      then ret PL_UI_STATE_USE_SOLAR_AND_BATTERY
      else if isProducing (deref env inv) && negb batteryDischargeEnabled
      then ret PL_UI_STATE_USE_SOLAR_ONLY
      else if negb (isProducing (deref env inv))
      then ret PL_UI_STATE_CHARGING
      else ret PL_UI_STATE_INACTIVE
  end.

End PowerLimiterState.

(** getLastRequestedPowerLimit() *)
Definition getLastRequestedPowerLimit : M Z := get _lastRequestedPowerLimit.

(** * The battery interface (src/src/Battery.cpp,
      src/src/VictronSmartShunt.cpp)

    testThreshold() reads the state of charge through Battery.getStats().
    BatteryClass owns at most one provider, chosen by init(); the state
    is passed explicitly, and the calls made on the providers and the
    lines printed are collected in two more fields. The mutex taken by
    each member function is not modelled: the model is sequential. *)

(** the classes of providers that init() can make. *)
Inductive BatteryProvider : Type :=
| PylontechCanReceiver
| JkBms_Controller
| VictronSmartShunt.

(** [PinMapping_t], the two pins of the battery interface. *)
Record PinMapping_t : Type := mkPinMapping {
  battery_rx : Z;
  battery_tx : Z
}.

(** The collaborators of the battery interface during one call. *)
Record BatteryEnv : Type := mkBatteryEnv {
  (* Configuration.get() *)
  Configuration_get : CONFIG_T;
  Battery_VerboseLogging : bool;
  Battery_Provider : Z;
  Mqtt_PublishInterval : Z;
  (* PinMapping.get() *)
  PinMapping_get : PinMapping_t;
  (* MqttSettings.getConnected() *)
  MqttSettings_getConnected : bool;
  (* millis() *)
  battery_millis : Z;
  (* init() of the providers whose sources are not at hand *)
  PylontechCanReceiver_init : bool -> bool;
  JkBms_Controller_init : bool -> bool
}.

(** Calls made on a provider, on its stats and on VeDirectShunt. *)
Inductive BatteryCall : Type :=
| provider_deinit (p : BatteryProvider)
| provider_init (p : BatteryProvider) (verboseLogging : bool)
| provider_loop (p : BatteryProvider)
| stats_mqttPublish (p : BatteryProvider)
| VeDirectShunt_init (rx tx : Z) (verboseLogging : bool).

(** Lines printed by the battery interface. *)
Inductive BatteryLog : Type :=
| LogShuntInitialize
| LogShuntInterface (rx tx : Z)
| LogShuntInvalidPin
| LogUnknownProvider (provider : Z).

Record BatteryClass : Type := mkBattery {
  _upProvider : option BatteryProvider;
  _lastMqttPublish : Z;
  (* outputs *)
  battery_calls : list BatteryCall;
  battery_MessageOutput : list BatteryLog
}.

(** what getStats() returns: the static dummy, or the stats of the
    provider. *)
Inductive BatteryStatsRef : Type :=
| sspDummyStats
| provider_getStats (p : BatteryProvider).

Definition battery_call (c : BatteryCall) (b : BatteryClass) : BatteryClass :=
  mkBattery (_upProvider b) (_lastMqttPublish b) (battery_calls b ++ [c])
    (battery_MessageOutput b).

Definition battery_println (m : BatteryLog) (b : BatteryClass)
    : BatteryClass :=
  mkBattery (_upProvider b) (_lastMqttPublish b) (battery_calls b)
    (battery_MessageOutput b ++ [m]).

Definition set_upProvider (p : option BatteryProvider) (b : BatteryClass)
    : BatteryClass :=
  mkBattery p (_lastMqttPublish b) (battery_calls b)
    (battery_MessageOutput b).

Definition set_lastMqttPublish (t : Z) (b : BatteryClass) : BatteryClass :=
  mkBattery (_upProvider b) t (battery_calls b) (battery_MessageOutput b).

Module VictronSmartShuntProvider.

(** VictronSmartShunt::init() *)
Definition init (env : BatteryEnv) (verboseLogging : bool)
    (b : BatteryClass) : bool * BatteryClass :=
  let b := battery_println LogShuntInitialize b in
  let pin := PinMapping_get env in
  let b :=
    battery_println (LogShuntInterface (battery_rx pin) (battery_tx pin)) b in
  if battery_rx pin <? 0
  then (false, battery_println LogShuntInvalidPin b)
  else
    let tx := battery_tx pin in
    let rx := battery_rx pin in
    (true, battery_call (VeDirectShunt_init rx tx verboseLogging) b).

End VictronSmartShuntProvider.

Module Battery.

(** the init() of a provider: of VictronSmartShunt as above, of the other
    two as the environment has it. *)
Definition provider_init_run (env : BatteryEnv) (p : BatteryProvider)
    (verboseLogging : bool) (b : BatteryClass) : bool * BatteryClass :=
  let b := battery_call (provider_init p verboseLogging) b in
  match p with
  | PylontechCanReceiver => (PylontechCanReceiver_init env verboseLogging, b)
  | JkBms_Controller => (JkBms_Controller_init env verboseLogging, b)
  | VictronSmartShunt => VictronSmartShuntProvider.init env verboseLogging b
  end.

(** one case of the switch of init(): make the provider and drop it again
    if its init() fails. *)
Definition make_provider (env : BatteryEnv) (p : BatteryProvider)
    (verboseLogging : bool) (b : BatteryClass) : BatteryClass :=
  let b := set_upProvider (Some p) b in
  let (ok, b) := provider_init_run env p verboseLogging b in
  if negb ok then set_upProvider None b else b.

(** BatteryClass::getStats() *)
Definition getStats (b : BatteryClass) : BatteryStatsRef :=
  match _upProvider b with
  | None => sspDummyStats
  | Some p => provider_getStats p
  end.

(** BatteryClass::init() *)
Definition init (env : BatteryEnv) (b : BatteryClass) : BatteryClass :=
  let b :=
    match _upProvider b with
    | Some p => set_upProvider None (battery_call (provider_deinit p) b)
    | None => b
    end in
  if negb (Battery_Enabled (Configuration_get env)) then b
  else
    let verboseLogging := Battery_VerboseLogging env in
    match Battery_Provider env with
    | 0 => make_provider env PylontechCanReceiver verboseLogging b
    | 1 => make_provider env JkBms_Controller verboseLogging b
    | 3 => make_provider env VictronSmartShunt verboseLogging b
    | other => battery_println (LogUnknownProvider other) b
    end.

(** BatteryClass::loop() *)
Definition loop (env : BatteryEnv) (b : BatteryClass) : BatteryClass :=
  match _upProvider b with
  | None => b
  | Some p =>
    let b := battery_call (provider_loop p) b in
    if negb (MqttSettings_getConnected env)
       || (u32 (battery_millis env - _lastMqttPublish b)
           <? u32 (Mqtt_PublishInterval env * 1000))
    then b
    else
      let b := battery_call (stats_mqttPublish p) b in
      set_lastMqttPublish (battery_millis env) b
  end.

End Battery.

(** BatteryClass::loop() called once per environment of the sequence. *)
Fixpoint battery_loops (envs : list BatteryEnv) (b : BatteryClass)
    : BatteryClass :=
  match envs with
  | [] => b
  | env :: rest => battery_loops rest (Battery.loop env b)
  end.

(** the publications of the stats over MQTT among the calls. *)
Definition publications (calls : list BatteryCall) : list BatteryCall :=
  filter (fun c => match c with stats_mqttPublish _ => true | _ => false end)
    calls.

(** * Further statements *)

(** ** Commands *)


(** the inverter is in reach and has answered its last power limit command
    and its last start/stop/restart command. *)
Definition commandable (env : Env) (inv : InverterRef) : bool :=
  isReachable (deref env inv)
  && negb (is_pending (getLastLimitCommandSuccess (deref env inv)))
  && negb (is_pending (getLastPowerCommandSuccess (deref env inv))).

(** the shutdown deadline is set and lies before the clock. *)
Definition deadlinePassed (env : Env) (s : PowerLimiterClass) : bool :=
  (0 <? _shutdownTimeout s) && (_shutdownTimeout s <? millis env).

(** the commands of shutdown() for the inverter [inv]: the stop, then the
    configured lower power limit. *)
Definition shutdownCommands (env : Env) (inv : InverterRef) : list Command :=
  [ sendPowerControlRequest inv false;
    sendActivePowerControlRequest_AbsolutNonPersistent inv
      (inject_Z (PowerLimiter_LowerPowerLimit (config env))) ].

(** what a shutdown or a commit for the inverter [inv] makes of the
    commands and of the last requested limit [limit]: nothing; or the
    commands of a shutdown, for an inverter that is producing, in reach and
    has no command pending; or the commands of a commit of some limit. *)
Definition handsOver (env : Env) (inv : InverterRef) (limit : Z)
    (l : list Command) (limit' : Z) : Prop :=
  (l = [] /\ limit' = limit)
  \/ (commandable env inv = true /\ isProducing (deref env inv) = true
      /\ l = shutdownCommands env inv
      /\ limit' = PowerLimiter_LowerPowerLimit (config env))
  \/ (exists eff, l = commitCommands env inv eff /\ limit' = eff).

(** the limit of the last power limit request among the commands. *)
Definition lastLimitRequest (cmds : list Command) : option Q :=
  match rev (limitRequests cmds) with
  | sendActivePowerControlRequest_AbsolutNonPersistent _ limit :: _ =>
    Some limit
  | _ => None
  end.

(** what getLastRequestedPowerLimit() returns is the limit of the last
    power limit request handed to an inverter, if there was one. *)
Definition limitInSync (s : PowerLimiterClass) : Prop :=
  forall limit : Q,
    lastLimitRequest (sent s) = Some limit ->
    limit = inject_Z (fst (getLastRequestedPowerLimit s)).

(** ** Status announcements *)

(** announceStatus() called with the same status once per environment of
    the sequence. *)
Fixpoint announcements (status : Status) (envs : list Env)
    (s : PowerLimiterClass) : PowerLimiterClass :=
  match envs with
  | [] => s
  | env :: rest =>
    announcements status rest (snd (announceStatus env status s))
  end.

(** ** Thresholds *)

(** the stop thresholds of the configuration lie below its start
    thresholds, and the state of charge is configured for both or for
    none. *)
Definition thresholdsOrdered (cfg : CONFIG_T) : Prop :=
  ((0 < PowerLimiter_BatterySocStopThreshold cfg
    /\ PowerLimiter_BatterySocStopThreshold cfg
       < PowerLimiter_BatterySocStartThreshold cfg)
   \/ (PowerLimiter_BatterySocStopThreshold cfg <= 0
       /\ PowerLimiter_BatterySocStartThreshold cfg <= 0))
  /\ (PowerLimiter_VoltageStopThreshold cfg
      < PowerLimiter_VoltageStartThreshold cfg)%Q.

(** the battery discharge flag as the charging cycle conditions of loop()
    leave it. *)
Definition dischargeAfterCycle (env : Env) (s : PowerLimiterClass) : bool :=
  let start := fst (isStartThresholdReached env s) in
  if fst (isStopThresholdReached env s) then false
  else if negb (PowerLimiter_SolarPassThroughEnabled (config env))
  then start || _batteryDischargeEnabled s
  else
    match PowerLimiter_BatteryDrainStategy (config env) with
    | EMPTY_AT_NIGHT => start || negb (fst (canUseDirectSolarPower env s))
    | EMPTY_WHEN_FULL => start || _batteryDischargeEnabled s
    end.

(** ** Conversion and limits *)

(** the efficiency and the losses are percentages. *)
Definition percentages (env : Env) (inverter : InverterRef) : Prop :=
  (getChannelFieldValue (deref env inverter) TYPE_AC CH0 FLD_EFF <= 100)%Q
  /\ 0 <= PowerLimiter_SolarPassThroughLosses (config env) <= 100.

(** the limits of the configuration are ordered, the inverter can deliver
    the lower one, and the upper one scaled by the number of DC channels
    fits an int32_t. *)
Definition limitsOrdered (env : Env) (inverter : InverterRef) : Prop :=
  0 <= PowerLimiter_LowerPowerLimit (config env)
  /\ PowerLimiter_LowerPowerLimit (config env)
     <= PowerLimiter_UpperPowerLimit (config env)
  /\ PowerLimiter_LowerPowerLimit (config env)
     <= getMaxPower (deref env inverter)
  /\ PowerLimiter_UpperPowerLimit (config env)
     * Z.of_nat (length (getChannelsByType_DC (deref env inverter)))
     < 2 ^ 31.

(** a power limit request with a limit between [lo] and [hi]; any other
    command. *)
Definition limitWithin (lo hi : Z) (c : Command) : Prop :=
  match c with
  | sendActivePowerControlRequest_AbsolutNonPersistent _ limit =>
    exists z, limit = inject_Z z /\ lo <= z <= hi
  | _ => True
  end.

(** ** Restart scheduler *)

(** the local time is a time of day, the restart hour an hour of the day,
    and the clock is more than a day away from its wrap-around. *)
Definition restartSchedulable (env : Env) : Prop :=
  0 <= PowerLimiter_RestartHour (config env) <= 23
  /\ (exists t, getLocalTime env = Some t
                /\ 0 <= tm_hour t <= 23 /\ 0 <= tm_min t <= 59)
  /\ 0 <= millis env /\ millis env + 1440 * 60000 < 2 ^ 32.

(** ** Vocabulary of the proofs *)

(** [cycles m]: [m] leaves the object as it is but for the battery
    discharge flag and the lines it prints. *)
Definition cycles {A} (m : M A) : Prop :=
  forall s, exists b l,
    snd (m s)
    = set_MessageOutput (MessageOutput s ++ l)
        (set_batteryDischargeEnabled b s).

(** what the steps of a calculation before and after setNewPowerLimit()
    leave as it is. *)
Definition committed (s : PowerLimiterClass)
    : Z * Z * Z * option InverterRef * Mode :=
  (_lastRequestedPowerLimit s, _lastPowerLimitMillis s, _shutdownTimeout s,
   _inverter s, _mode s).

(** * Further sample inputs *)

(** the limiter bound to inverter 0 with a restart due at 15000 ms. *)
Definition sample_restart_due : PowerLimiterClass :=
  set_nextInverterRestart 15000 sample_bound.

(** the limiter bound to inverter 7, while inverter 0 is configured. *)
Definition sample_bound_other : PowerLimiterClass :=
  set_inverter (Some 7%nat) sample_startup.

(** two inverters: number 0 of the samples, and number 7 of serial 2275,
    producing and in reach. *)
Definition sample_env_two_inverters : Env :=
  {| config := sample_config;
     millis := 20000;
     getLocalTime := Some {| tm_hour := 10; tm_min := 30 |};
     getInverterByPos := fun _ => Some 0%nat;
     deref := fun inv =>
       match inv with
       | 7%nat =>
         {| serial := 2275;
            isReachable := true;
            isProducing := true;
            getEnableCommands := true;
            getLastLimitCommandSuccess := CMD_OK;
            SystemConfigPara_getLastUpdateCommand := 1000;
            getLastPowerCommandSuccess := CMD_OK;
            PowerCommand_getLastUpdateCommand := 1000;
            getMaxPower := 300;
            Statistics_getLastUpdate := 9000;
            getChannelsByType_DC := [1%nat];
            getChannelFieldValue := fun _ _ _ => 0%Q |}
       | _ => sample_inverter
       end;
     getPowerTotal := 500;
     getLastPowerMeterUpdate := 19000;
     isDataValid := true;
     veFrame_V := 26;
     veFrame_I := 10;
     veFrame_PPV := 260;
     isValid := true;
     getSoC := 50;
     getSoCAgeSeconds := 3;
     getAutoPowerStatus := false |}.
(** * Properties *)

(** ** Arithmetic facts *)

Lemma i32_id (z : Z) : in_i32 z -> i32 z = z.
Proof.
  unfold in_i32, i32. intros H.
  rewrite Z.mod_small by lia. lia.
Qed.

Lemma u32_id (z : Z) : in_u32 z -> u32 z = z.
Proof. unfold in_u32, u32. intros H. apply Z.mod_small. lia. Qed.

Lemma u16_id (z : Z) : 0 <= z < 2 ^ 16 -> u16 z = z.
Proof. unfold u16. intros H. apply Z.mod_small. lia. Qed.

Lemma Qlt_bool_iff (a b : Q) : Qlt_bool a b = true <-> (a < b)%Q.
Proof.
  unfold Qlt_bool. rewrite negb_true_iff.
  split; intros H.
  - apply Qnot_le_lt. intros Hle. apply Qle_bool_iff in Hle. congruence.
  - destruct (Qle_bool b a) eqn:E; [|reflexivity].
    apply Qle_bool_iff in E. exfalso. exact (Qlt_not_le _ _ H E).
Qed.

Lemma Qle_bool_false_iff (a b : Q) : Qle_bool a b = false <-> (b < a)%Q.
Proof.
  rewrite <- Qlt_bool_iff. unfold Qlt_bool.
  destruct (Qle_bool a b); simpl; split; congruence.
Qed.

(** ** Running member functions *)

Lemma run_bind {A B} (m : M A) (k : A -> M B) (s : PowerLimiterClass) :
  bind m k s = k (fst (m s)) (snd (m s)).
Proof. unfold bind. destruct (m s). reflexivity. Qed.

Lemma set_MessageOutput_nil (s : PowerLimiterClass) :
  set_MessageOutput (MessageOutput s ++ []) s = s.
Proof. destruct s. unfold set_MessageOutput. simpl. rewrite app_nil_r. reflexivity. Qed.

Lemma set_MessageOutput_app (s : PowerLimiterClass) (l l' : list LogMsg) :
  set_MessageOutput
    (MessageOutput (set_MessageOutput (MessageOutput s ++ l) s) ++ l')
    (set_MessageOutput (MessageOutput s ++ l) s)
  = set_MessageOutput (MessageOutput s ++ (l ++ l')) s.
Proof. unfold set_MessageOutput. simpl. rewrite app_assoc. reflexivity. Qed.

Lemma logs_ret {A} (a : A) : logs (ret a).
Proof. intros s. exists []. simpl. symmetry. apply set_MessageOutput_nil. Qed.

Lemma logs_get {A} (f : PowerLimiterClass -> A) : logs (get f).
Proof. intros s. exists []. simpl. symmetry. apply set_MessageOutput_nil. Qed.

Lemma logs_println (m : LogMsg) : logs (println m).
Proof. intros s. exists [m]. reflexivity. Qed.

Lemma logs_bind {A B} (m : M A) (k : A -> M B) :
  logs m -> (forall a, logs (k a)) -> logs (bind m k).
Proof.
  intros Hm Hk s. rewrite run_bind.
  destruct (Hm s) as [l Hl].
  destruct (Hk (fst (m s)) (snd (m s))) as [l' Hl'].
  exists (l ++ l'). rewrite Hl'. rewrite Hl. apply set_MessageOutput_app.
Qed.

Lemma logs_verbose (site : nat) : logs (verbose site).
Proof.
  unfold verbose. apply logs_bind; [apply logs_get|].
  intros []; [apply logs_println | apply logs_ret].
Qed.

Create HintDb plogs.
#[local] Hint Resolve logs_ret logs_get logs_println logs_verbose : plogs.

Ltac logs_step :=
  first
    [ solve [auto with plogs]
    | apply logs_bind; [|intros ?]
    | match goal with
      | |- logs (if ?c then _ else _) => destruct c
      | |- logs (match ?c with _ => _ end) => destruct c
      end ].

Ltac logs_tac := repeat logs_step.

Lemma logs_getLoadCorrectedVoltage env : logs (getLoadCorrectedVoltage env).
Proof. unfold getLoadCorrectedVoltage. logs_tac. Qed.
#[local] Hint Resolve logs_getLoadCorrectedVoltage : plogs.

Lemma logs_testThreshold env soc volt compare :
  logs (testThreshold env soc volt compare).
Proof. unfold testThreshold. logs_tac. Qed.
#[local] Hint Resolve logs_testThreshold : plogs.

Lemma logs_isStartThresholdReached env : logs (isStartThresholdReached env).
Proof. unfold isStartThresholdReached. logs_tac. Qed.

Lemma logs_isStopThresholdReached env : logs (isStopThresholdReached env).
Proof. unfold isStopThresholdReached. logs_tac. Qed.

Lemma logs_isBelowStopThreshold env : logs (isBelowStopThreshold env).
Proof. unfold isBelowStopThreshold. logs_tac. Qed.
#[local] Hint Resolve logs_isStartThresholdReached logs_isStopThresholdReached
  logs_isBelowStopThreshold : plogs.

Lemma logs_canUseDirectSolarPower env : logs (canUseDirectSolarPower env).
Proof. unfold canUseDirectSolarPower. logs_tac. Qed.
#[local] Hint Resolve logs_canUseDirectSolarPower : plogs.

Lemma logs_getSolarChargePower env : logs (getSolarChargePower env).
Proof. unfold getSolarChargePower. logs_tac. Qed.
#[local] Hint Resolve logs_getSolarChargePower : plogs.

(** ** Threshold evaluator *)





(** the value of testThreshold() depends on the object through the bound
    inverter only. *)
Lemma testThreshold_value env soc volt compare (s s' : PowerLimiterClass) :
  _inverter s = _inverter s' ->
  fst (testThreshold env soc volt compare s)
  = fst (testThreshold env soc volt compare s').
Proof.
  intros H. unfold testThreshold.
  destruct (_ && _ && _ && _); [reflexivity|].
  destruct (Qle_bool volt 0); [reflexivity|].
  rewrite !run_bind. unfold getLoadCorrectedVoltage, get.
  rewrite !run_bind. simpl. rewrite H.
  destruct (_inverter s'); [|reflexivity].
  destruct (Qle_bool _ 0); reflexivity.
Qed.

Lemma logs_inverter {A} (m : M A) (s : PowerLimiterClass) :
  logs m -> _inverter (snd (m s)) = _inverter s.
Proof. intros H. destruct (H s) as [l ->]. reflexivity. Qed.

Lemma logs_latch {A} (m : M A) (s : PowerLimiterClass) :
  logs m ->
  _fullSolarPassThroughEnabled (snd (m s)) = _fullSolarPassThroughEnabled s.
Proof. intros H. destruct (H s) as [l ->]. reflexivity. Qed.

(** ** Solar availability oracle *)




(** useFullSolarPassthrough() with solar passthrough enabled, step by
    step. *)
Lemma useFullSolarPassthrough_enabled (env : Env) (s : PowerLimiterClass) :
  PowerLimiter_SolarPassThroughEnabled (config env) = true ->
  let latch :=
    if fullPassthroughStop env s then false
    else if fullPassthroughStart env s then true
    else _fullSolarPassThroughEnabled s in
  fst (useFullSolarPassthrough env s) = latch
  /\ _fullSolarPassThroughEnabled (snd (useFullSolarPassthrough env s))
     = latch.
Proof.
  intros Hen latch. unfold useFullSolarPassthrough. rewrite Hen.
  change (negb true) with false. cbv iota.
  set (tstart := testThreshold env _ _ cmp_ge).
  set (tstop := testThreshold env _ _ cmp_lt).
  assert (Ls : logs tstart) by apply logs_testThreshold.
  assert (Lp : logs tstop) by apply logs_testThreshold.
  rewrite run_bind.
  set (s1 := snd (tstart s)).
  assert (I1 : _inverter s1 = _inverter s) by (apply logs_inverter, Ls).
  assert (F1 : _fullSolarPassThroughEnabled s1
               = _fullSolarPassThroughEnabled s) by (apply logs_latch, Ls).
  rewrite run_bind.
  set (upd := if fst (tstart s) then _ else _).
  set (s2 := snd (upd s1)).
  assert (I2 : _inverter s2 = _inverter s).
  { unfold s2, upd. destruct (fst (tstart s)); simpl; exact I1. }
  assert (F2 : _fullSolarPassThroughEnabled s2
               = if fst (tstart s) then true
                 else _fullSolarPassThroughEnabled s).
  { unfold s2, upd. destruct (fst (tstart s)); simpl; [reflexivity|exact F1]. }
  rewrite run_bind.
  set (s3 := snd (tstop s2)).
  assert (F3 : _fullSolarPassThroughEnabled s3
               = _fullSolarPassThroughEnabled s2) by (apply logs_latch, Lp).
  assert (V : fst (tstop s2) = fullPassthroughStop env s).
  { unfold tstop, fullPassthroughStop. apply testThreshold_value. exact I2. }
  rewrite run_bind. rewrite V.
  unfold fullPassthroughStart. fold tstart.
  destruct (fullPassthroughStop env s); simpl.
  - split; reflexivity.
  - rewrite F3, F2. split; reflexivity.
Qed.

(** C7, counterexample. With solar passthrough disabled in the
    configuration the start condition (SoC 95 %, threshold 90 %) does not
    set the latch: useFullSolarPassthrough() returns false before it tests
    a threshold. *)
Lemma fullPassthroughLatch_gated_by_config :
  PowerLimiter_SolarPassThroughEnabled (config sample_env_full_no_passthrough)
  = false
  /\ fullPassthroughStart sample_env_full_no_passthrough sample_bound = true
  /\ useFullSolarPassthrough sample_env_full_no_passthrough sample_bound
     = (false, sample_bound)
  /\ _fullSolarPassThroughEnabled sample_bound = false
  /\ ~ fullPassthroughLatch_as_stated.
Proof.
  split; [reflexivity|]. split; [reflexivity|]. split; [reflexivity|].
  split; [reflexivity|].
  intros H.
  destruct (H [] sample_env_full_no_passthrough sample_bound) as (H1 & _).
  specialize (H1 eq_refl). discriminate H1.
Qed.

(** C7, amended. While solar passthrough is enabled in the configuration,
    for every sequence of measurements, a measurement meeting the stop
    condition sets the latch false, a measurement meeting the start
    condition and not the stop condition sets it true, and for a measurement
    meeting neither the latch keeps its value; the call returns the latch.
    While solar passthrough is disabled the call returns false and leaves
    the latch as it is. *)
Theorem useFullSolarPassthrough_latch (measurements : list Env) (env : Env)
    (s : PowerLimiterClass) :
  let s1 := sweep measurements s in
  let r := fst (useFullSolarPassthrough env s1) in
  let s2 := snd (useFullSolarPassthrough env s1) in
  (PowerLimiter_SolarPassThroughEnabled (config env) = true ->
     r = _fullSolarPassThroughEnabled s2
     /\ (fullPassthroughStop env s1 = true ->
           _fullSolarPassThroughEnabled s2 = false)
     /\ (fullPassthroughStart env s1 = true ->
         fullPassthroughStop env s1 = false ->
           _fullSolarPassThroughEnabled s2 = true)
     /\ (fullPassthroughStart env s1 = false ->
         fullPassthroughStop env s1 = false ->
           _fullSolarPassThroughEnabled s2
           = _fullSolarPassThroughEnabled s1))
  /\ (PowerLimiter_SolarPassThroughEnabled (config env) = false ->
        r = false /\ s2 = s1).
Proof.
  intros s1 r s2. split.
  - intros Hen.
    destruct (useFullSolarPassthrough_enabled env s1 Hen) as [Hr Hl].
    fold r in Hr. fold s2 in Hl.
    split; [congruence|].
    split; [|split].
    + intros Hp. rewrite Hl, Hp. reflexivity.
    + intros Hs Hp. rewrite Hl, Hp, Hs. reflexivity.
    + intros Hs Hp. rewrite Hl, Hp, Hs. reflexivity.
  - intros Hdis. unfold r, s2, useFullSolarPassthrough.
    rewrite Hdis. split; reflexivity.
Qed.

Lemma useFullSolarPassthrough_latch_witness :
  (* rising above the start threshold, then falling between the two *)
  (PowerLimiter_SolarPassThroughEnabled (config sample_env_full) = true
   /\ fullPassthroughStart sample_env_full sample_bound = true
   /\ fullPassthroughStop sample_env_full sample_bound = false
   /\ _fullSolarPassThroughEnabled
        (snd (useFullSolarPassthrough sample_env_full sample_bound)) = true)
  /\ (fullPassthroughStart sample_env_between
        (sweep [sample_env_full] sample_bound) = false
      /\ fullPassthroughStop sample_env_between
           (sweep [sample_env_full] sample_bound) = false
      /\ _fullSolarPassThroughEnabled
           (snd (useFullSolarPassthrough sample_env_between
                   (sweep [sample_env_full] sample_bound))) = true)
  /\ (fullPassthroughStop sample_env
        (sweep [sample_env_full; sample_env_between] sample_bound) = true
      /\ _fullSolarPassThroughEnabled
           (snd (useFullSolarPassthrough sample_env
                   (sweep [sample_env_full; sample_env_between]
                      sample_bound))) = false)
  /\ (PowerLimiter_SolarPassThroughEnabled
        (config sample_env_full_no_passthrough) = false
      /\ snd (useFullSolarPassthrough sample_env_full_no_passthrough
                sample_bound) = sample_bound).
Proof.
  pose proof (useFullSolarPassthrough_latch [] sample_env_full sample_bound)
    as [A _].
  pose proof (useFullSolarPassthrough_latch [sample_env_full]
                sample_env_between sample_bound) as [B _].
  pose proof (useFullSolarPassthrough_latch
                [sample_env_full; sample_env_between]
                sample_env sample_bound) as [C _].
  pose proof (useFullSolarPassthrough_latch [] sample_env_full_no_passthrough
                sample_bound) as [_ D].
  destruct (A eq_refl) as (_ & _ & A3 & _).
  destruct (B eq_refl) as (_ & _ & _ & B4).
  destruct (C eq_refl) as (_ & C2 & _ & _).
  destruct (D eq_refl) as (_ & D2).
  split; [|split; [|split]].
  - split; [reflexivity|]. split; [reflexivity|]. split; [reflexivity|].
    exact (A3 eq_refl eq_refl).
  - split; [reflexivity|]. split; [reflexivity|].
    rewrite (B4 eq_refl eq_refl). reflexivity.
  - split; [reflexivity|]. exact (C2 eq_refl).
  - split; [reflexivity|]. exact D2.
Defined.

(** ** Restart scheduler *)


Lemma calcNextInverterRestart_value (env : Env) (s : PowerLimiterClass)
    (t : tm) :
  0 <= PowerLimiter_RestartHour (config env) ->
  getLocalTime env = Some t ->
  let restartHour := PowerLimiter_RestartHour (config env) in
  let dayMinutes := u16 (tm_hour t * 60 + tm_min t) in
  let targetMinutes := u16 (restartHour * 60) in
  let minutes :=
    if restartHour >? tm_hour t then u32 (targetMinutes - dayMinutes)
    else u32 (1440 - dayMinutes + targetMinutes) in
  _nextInverterRestart (snd (calcNextInverterRestart env s))
  = u32 (u32 (minutes * 60000) + millis env).
Proof.
  intros H Ht. simpl. unfold calcNextInverterRestart.
  assert (E : (PowerLimiter_RestartHour (config env) <? 0) = false)
    by (apply Z.ltb_ge; exact H).
  rewrite E, Ht.
  unfold verbose, println, modify, get, bind, ret.
  destruct (PowerLimiter_RestartHour (config env) >? tm_hour t);
    simpl; destruct (_verboseLogging s); reflexivity.
Qed.



(** ** Fields a member function leaves as they are *)

Lemma keeps_ret {A X} (f : PowerLimiterClass -> X) (a : A) : keeps f (ret a).
Proof. intros s. reflexivity. Qed.

Lemma keeps_get {A X} (f : PowerLimiterClass -> X)
    (g : PowerLimiterClass -> A) : keeps f (get g).
Proof. intros s. reflexivity. Qed.

Lemma keeps_modify {X} (f : PowerLimiterClass -> X)
    (g : PowerLimiterClass -> PowerLimiterClass) :
  (forall s, f (g s) = f s) -> keeps f (modify g).
Proof. intros H s. apply H. Qed.

Lemma keeps_bind {A B X} (f : PowerLimiterClass -> X) (m : M A)
    (k : A -> M B) :
  keeps f m -> (forall a, keeps f (k a)) -> keeps f (bind m k).
Proof.
  intros Hm Hk s. rewrite run_bind. rewrite Hk. apply Hm.
Qed.

Lemma keeps_logs {A X} (f : PowerLimiterClass -> X) (m : M A) :
  ignores f set_MessageOutput -> logs m -> keeps f m.
Proof. intros Hf Hm s. destruct (Hm s) as [l ->]. apply Hf. Qed.

Ltac ignores_tac := intros ? ?; reflexivity.

Ltac keeps_step :=
  first
    [ apply keeps_ret
    | apply keeps_get
    | apply keeps_modify; intros ?; reflexivity
    | apply keeps_logs; [ignores_tac | solve [auto with plogs]]
    | match goal with
      | |- keeps _ (bind _ _) => apply keeps_bind; [|intros ?]
      | |- keeps _ (if ?c then _ else _) => destruct c
      | |- keeps _ (match ?c with _ => _ end) => destruct c
      end ].

Ltac keeps_tac := repeat keeps_step.

Lemma keeps_announceStatus {X} (f : PowerLimiterClass -> X) env status :
  ignores f set_lastStatus -> ignores f set_lastStatusPrinted ->
  ignores f set_MessageOutput ->
  keeps f (announceStatus env status).
Proof.
  intros H1 H2 H3. unfold announceStatus.
  apply keeps_bind; [apply keeps_get|intros lastStatus].
  apply keeps_bind; [apply keeps_get|intros lastStatusPrinted].
  destruct (_ && _); [apply keeps_ret|].
  destruct (_ && _); [apply keeps_ret|].
  apply keeps_bind; [apply keeps_modify; intros s; apply H3|intros _].
  apply keeps_bind; [apply keeps_modify; intros s; apply H1|intros _].
  apply keeps_modify; intros s; apply H2.
Qed.

(** ** Shutdown *)

(** shutdown(), after its announcement, as a function of the state. *)
Lemma shutdown_eq env status (s : PowerLimiterClass) :
  shutdown env status s
  = let s1 := snd (announceStatus env status s) in
    let done := (false, set_shutdownTimeout 0 (set_inverter None s1)) in
    match _inverter s1 with
    | None => done
    | Some inv =>
      if negb (isProducing (deref env inv))
         || ((0 <? _shutdownTimeout s1)
             && (_shutdownTimeout s1 <? millis env))
      then done
      else if negb (isReachable (deref env inv)) then (true, s1)
      else
        let s2 :=
          if _shutdownTimeout s1 =? 0
          then set_shutdownTimeout (u32 (millis env + 10 * 1000)) s1
          else s1 in
        if is_pending (getLastLimitCommandSuccess (deref env inv))
        then (true, s2)
        else if is_pending (getLastPowerCommandSuccess (deref env inv))
        then (true, s2)
        else
          (true,
           snd (commitPowerLimit env inv
                  (PowerLimiter_LowerPowerLimit (config env)) false s2))
    end.
Proof.
  unfold shutdown. rewrite run_bind.
  set (s1 := snd (announceStatus env status s)).
  cbv beta zeta. unfold get. rewrite !run_bind. cbn [fst snd].
  destruct (_inverter s1) as [inv|]; [|reflexivity].
  destruct (_ || _); [reflexivity|].
  destruct (negb (isReachable _)); [reflexivity|].
  rewrite run_bind.
  destruct (_shutdownTimeout s1 =? 0); cbn [fst snd modify ret];
    (destruct (is_pending (getLastLimitCommandSuccess _)); [reflexivity|]);
    (destruct (is_pending (getLastPowerCommandSuccess _)); [reflexivity|]);
    rewrite run_bind; reflexivity.
Qed.




Lemma keeps_inverter_commitPowerLimit env inverter limit enable :
  keeps _inverter (commitPowerLimit env inverter limit enable).
Proof. unfold commitPowerLimit, send, println. keeps_tac. Qed.





(** ** Limit committer *)

Lemma commitPowerLimit_enable env inverter limit (s : PowerLimiterClass) :
  let s' := snd (commitPowerLimit env inverter limit true s) in
  sent s' = sent s ++ commitCommands env inverter limit
  /\ _lastRequestedPowerLimit s' = limit
  /\ _lastPowerLimitMillis s' = millis env
  /\ _calculationBackoffMs s' = _calculationBackoffMs s
  /\ _inverter s' = _inverter s
  /\ _shutdownTimeout s' = _shutdownTimeout s.
Proof.
  unfold commitPowerLimit, commitCommands, send, println, modify, bind, ret.
  simpl.
  destruct (isProducing (deref env inverter)); simpl;
    rewrite <- ?app_assoc; repeat split; reflexivity.
Qed.

(** setNewPowerLimit() at or above the lower power limit, as a function of
    the state. *)
Lemma setNewPowerLimit_eq env inverter requested (s : PowerLimiterClass) :
  PowerLimiter_LowerPowerLimit (config env) <= requested ->
  exists s1 s2 : PowerLimiterClass,
    (exists l, s1 = set_MessageOutput (MessageOutput s ++ l) s)
    /\ (exists l, s2 = set_MessageOutput (MessageOutput s ++ l) s)
    /\ setNewPowerLimit env inverter requested s
       = let eff := effPowerLimit env inverter requested in
         let diff := i32 (Z.abs (i32 (eff - _lastRequestedPowerLimit s))) in
         let ageMillis := u32 (millis env - _lastPowerLimitMillis s) in
         if (diff <? PowerLimiter_TargetPowerConsumptionHysteresis (config env))
            && (ageMillis <? 60 * 1000)
         then (false, s1)
         else (true, snd (commitPowerLimit env inverter eff true s2)).
Proof.
  intros Hlow.
  assert (E : (requested <? PowerLimiter_LowerPowerLimit (config env)) = false)
    by (apply Z.ltb_ge; exact Hlow).
  unfold setNewPowerLimit, effPowerLimit. rewrite E.
  set (scale := (0 <? _) && negb (_ =? _)). clearbody scale.
  set (hyst := PowerLimiter_TargetPowerConsumptionHysteresis (config env)).
  rewrite run_bind.
  set (scaling := if scale then _ else _).
  assert (Ls : logs scaling).
  { unfold scaling. destruct scale; logs_tac. }
  destruct (Ls s) as [l1 Hl1].
  set (s0 := snd (scaling s)) in *.
  assert (Hv : fst (scaling s)
               = if scale
                 then i32 (round (inject_Z (Z.min requested
                             (PowerLimiter_UpperPowerLimit (config env)))
                           * inject_Z (Z.of_nat (length (getChannelsByType_DC
                                                     (deref env inverter))))
                           / inject_Z (countProducing (deref env inverter)
                                (getChannelsByType_DC (deref env inverter))))%Q)
                 else Z.min requested
                        (PowerLimiter_UpperPowerLimit (config env))).
  { unfold scaling. destruct scale; [rewrite run_bind|]; reflexivity. }
  rewrite Hv. clear Hv.
  set (eff := Z.min (if scale then _ else _) _).
  assert (L0 : _lastRequestedPowerLimit s0 = _lastRequestedPowerLimit s)
    by (rewrite Hl1; reflexivity).
  assert (M0 : _lastPowerLimitMillis s0 = _lastPowerLimitMillis s)
    by (rewrite Hl1; reflexivity).
  unfold get. rewrite !run_bind. cbn [fst snd]. rewrite L0, M0.
  destruct (logs_verbose 558%nat s0) as [l2 Hl2].
  destruct (logs_verbose 565%nat s0) as [l3 Hl3].
  exists (snd (verbose 558 s0)), (snd (verbose 565 s0)).
  split; [|split].
  - exists (l1 ++ l2). rewrite Hl2, Hl1. apply set_MessageOutput_app.
  - exists (l1 ++ l3). rewrite Hl3, Hl1. apply set_MessageOutput_app.
  - cbv zeta.
    destruct (_ && _); rewrite !run_bind; reflexivity.
Qed.

Lemma round_Qeq (q q' : Q) : (q == q')%Q -> round q = round q'.
Proof.
  intros H. unfold round.
  rewrite (Qleb_comp 0%Q 0%Q (Qeq_refl 0%Q) q q' H).
  destruct (Qle_bool 0 q').
  - apply Qfloor_comp. rewrite H. reflexivity.
  - apply Qceiling_comp. rewrite H. reflexivity.
Qed.

Lemma countProducing_filter (inv : InverterAbstract)
    (chnls : list ChannelNum_t) :
  countProducing inv chnls
  = Z.of_nat
      (length (filter
         (fun c => Qlt_bool 2 (getChannelFieldValue inv TYPE_DC c FLD_PDC))
         chnls)).
Proof.
  induction chnls as [|c rest IH]; [reflexivity|].
  cbn [countProducing filter]. rewrite IH.
  destruct (Qlt_bool 2 _); cbn [length]; lia.
Qed.

Lemma countProducing_le (inv : InverterAbstract) (chnls : list ChannelNum_t) :
  0 <= countProducing inv chnls <= Z.of_nat (length chnls).
Proof.
  induction chnls as [|c rest IH]; [simpl; lia|].
  cbn [countProducing length]. destruct (Qlt_bool 2 _); lia.
Qed.

(** the effective limit of the code is the one C3 describes, as long as
    the scaled limit fits the 32 bit integer it is stored in. *)
Lemma effPowerLimit_stated_eq env inverter requested :
  in_i32 (scaledLimit env inverter requested) ->
  effPowerLimit env inverter requested
  = effPowerLimit_stated env inverter requested.
Proof.
  unfold effPowerLimit, effPowerLimit_stated, scaledLimit, producingChannels.
  cbv zeta.
  rewrite <- countProducing_filter.
  pose proof (countProducing_le (deref env inverter)
                (getChannelsByType_DC (deref env inverter))) as Hle.
  set (p := countProducing _ _) in *.
  set (t := Z.of_nat _) in *.
  assert (Hc : negb (p =? t) = (p <? t)).
  { destruct (Z.eqb_spec p t), (Z.ltb_spec p t); simpl; try reflexivity; lia. }
  rewrite Hc.
  destruct ((0 <? p) && (p <? t)); [|reflexivity].
  intros Hin.
  rewrite (round_Qeq _ (inject_Z (Z.min requested
             (PowerLimiter_UpperPowerLimit (config env)))
             * (inject_Z t / inject_Z p))%Q).
  - rewrite (i32_id _ Hin). reflexivity.
  - unfold Qdiv. ring.
Qed.

Lemma limitRequests_app (l l' : list Command) :
  limitRequests (l ++ l') = limitRequests l ++ limitRequests l'.
Proof. apply filter_app. Qed.

Lemma limitRequests_commitCommands env inverter limit :
  limitRequests (commitCommands env inverter limit)
  = [sendActivePowerControlRequest_AbsolutNonPersistent inverter
       (inject_Z limit)].
Proof.
  unfold commitCommands, limitRequests. cbn.
  destruct (isProducing (deref env inverter)); reflexivity.
Qed.

Lemma commitPowerLimit_disable env inverter limit (s : PowerLimiterClass) :
  let s' := snd (commitPowerLimit env inverter limit false s) in
  limitRequests (sent s')
  = limitRequests (sent s)
    ++ [sendActivePowerControlRequest_AbsolutNonPersistent inverter
          (inject_Z limit)]
  /\ _calculationBackoffMs s' = _calculationBackoffMs s.
Proof.
  unfold commitPowerLimit, send, println, modify, bind, ret.
  cbn [negb andb].
  destruct (isProducing (deref env inverter)); cbn;
    rewrite !limitRequests_app; cbn; rewrite ?app_nil_r;
    split; reflexivity.
Qed.

(** the limit requests of a call of shutdown(): none, or the configured
    lower power limit for the bound inverter. *)
Lemma shutdown_limitRequests env status (s : PowerLimiterClass) :
  let s' := snd (shutdown env status s) in
  limitRequests (sent s') = limitRequests (sent s)
  \/ exists inv,
       _inverter s = Some inv
       /\ limitRequests (sent s')
          = limitRequests (sent s)
            ++ [sendActivePowerControlRequest_AbsolutNonPersistent inv
                  (inject_Z (PowerLimiter_LowerPowerLimit (config env)))].
Proof.
  cbv zeta. rewrite shutdown_eq. cbv zeta.
  assert (KI : _inverter (snd (announceStatus env status s)) = _inverter s)
    by (apply keeps_announceStatus; ignores_tac).
  assert (KL : sent (snd (announceStatus env status s)) = sent s)
    by (apply keeps_announceStatus; ignores_tac).
  set (s1 := snd (announceStatus env status s)) in *.
  destruct (_inverter s1) as [inv|] eqn:E;
    [|left; cbn; rewrite KL; reflexivity].
  destruct (_ || _); [left; cbn; rewrite KL; reflexivity|].
  destruct (negb (isReachable _)); [left; cbn; rewrite KL; reflexivity|].
  set (s2 := if _shutdownTimeout s1 =? 0 then _ else s1).
  assert (K2 : sent s2 = sent s)
    by (unfold s2; destruct (_shutdownTimeout s1 =? 0); exact KL).
  destruct (is_pending (getLastLimitCommandSuccess _));
    [left; cbn; rewrite K2; reflexivity|].
  destruct (is_pending (getLastPowerCommandSuccess _));
    [left; cbn; rewrite K2; reflexivity|].
  right. exists inv. split; [congruence|].
  cbn [snd].
  destruct (commitPowerLimit_disable env inv
              (PowerLimiter_LowerPowerLimit (config env)) s2) as [C _].
  cbv zeta in C. rewrite C, K2. reflexivity.
Qed.

(** C3, counterexample. 5 W requested with a lower power limit of 10 W, the
    inverter producing and in reach: the shutdown that is requested stops
    the inverter and sends the lower power limit of 10 W. *)
Lemma setNewPowerLimit_shutdown_sends_lower_limit :
  5 < PowerLimiter_LowerPowerLimit (config sample_env)
  /\ sent sample_bound = []
  /\ setNewPowerLimit sample_env 0%nat 5 sample_bound
     = shutdown sample_env Initializing sample_bound
  /\ fst (setNewPowerLimit sample_env 0%nat 5 sample_bound) = true
  /\ sent (snd (setNewPowerLimit sample_env 0%nat 5 sample_bound))
     = [sendPowerControlRequest 0%nat false;
        sendActivePowerControlRequest_AbsolutNonPersistent 0%nat 10]
  /\ ~ noLimitBelowLowerBound_as_stated.
Proof.
  split; [simpl; lia|]. split; [reflexivity|]. split; [reflexivity|].
  split; [reflexivity|]. split; [reflexivity|].
  intros H.
  specialize (H sample_env 0%nat 5 sample_bound).
  assert (L : 5 < PowerLimiter_LowerPowerLimit (config sample_env))
    by (simpl; lia).
  specialize (H L). vm_compute in H. discriminate H.
Qed.

(** C3, amended. Below the configured lower power limit
    setNewPowerLimit() requests a shutdown instead of committing the
    requested limit, and returns what shutdown() reports; the only limit
    command this can send is the configured lower power limit that
    shutdown() commits for the bound inverter. Otherwise the effective limit
    is the requested value clamped to the upper power limit, then, when the
    number of DC channels with more than 2 W is strictly between 0 and the
    number of DC channels, multiplied by total/producing and rounded, and
    finally clamped to the inverter's maximum power; the call either leaves
    the commands and the last requested limit as they are, or commits
    exactly this limit. *)
Theorem setNewPowerLimit_spec (env : Env) (inverter : InverterRef)
    (requested : Z) (s : PowerLimiterClass) :
  (requested < PowerLimiter_LowerPowerLimit (config env) ->
     let s' := snd (setNewPowerLimit env inverter requested s) in
     setNewPowerLimit env inverter requested s = shutdown_again env s
     /\ (limitRequests (sent s') = limitRequests (sent s)
         \/ exists inv,
              _inverter s = Some inv
              /\ limitRequests (sent s')
                 = limitRequests (sent s)
                   ++ [sendActivePowerControlRequest_AbsolutNonPersistent inv
                         (inject_Z
                            (PowerLimiter_LowerPowerLimit (config env)))]))
  /\ (PowerLimiter_LowerPowerLimit (config env) <= requested ->
      in_i32 (scaledLimit env inverter requested) ->
      let eff := effPowerLimit_stated env inverter requested in
      let r := fst (setNewPowerLimit env inverter requested s) in
      let s' := snd (setNewPowerLimit env inverter requested s) in
      effPowerLimit env inverter requested = eff
      /\ ((r = false /\ sent s' = sent s
           /\ _lastRequestedPowerLimit s' = _lastRequestedPowerLimit s)
          \/ (r = true
              /\ sent s' = sent s ++ commitCommands env inverter eff
              /\ _lastRequestedPowerLimit s' = eff))).
Proof.
  split.
  - intros H s'.
    assert (E : setNewPowerLimit env inverter requested s
                = shutdown_again env s).
    { unfold setNewPowerLimit.
      apply Z.ltb_lt in H. rewrite H. reflexivity. }
    split; [exact E|].
    unfold s'. rewrite E. unfold shutdown_again, get. rewrite run_bind.
    cbn [fst snd]. apply shutdown_limitRequests.
  - intros Hlow Hin eff r s'.
    pose proof (effPowerLimit_stated_eq env inverter requested Hin) as He.
    fold eff in He. split; [exact He|].
    destruct (setNewPowerLimit_eq env inverter requested s Hlow)
      as (s1 & s2 & [l1 H1] & [l2 H2] & Heq).
    unfold r, s'. rewrite Heq. cbv zeta. rewrite He.
    destruct (_ && _); cbn [fst snd].
    + left. rewrite H1. repeat split; reflexivity.
    + right.
      destruct (commitPowerLimit_enable env inverter eff s2)
        as (C1 & C2 & _).
      rewrite C1, C2, H2. repeat split; reflexivity.
Qed.

Lemma setNewPowerLimit_spec_witness :
  (* 5 W requested, lower power limit 10 W *)
  (5 < PowerLimiter_LowerPowerLimit (config sample_env_half)
   /\ setNewPowerLimit sample_env_half 0%nat 5 sample_bound
      = shutdown_again sample_env_half sample_bound)
  (* 250 W requested, one of two channels producing: 500 W committed *)
  /\ (PowerLimiter_LowerPowerLimit (config sample_env_half) <= 250
      /\ in_i32 (scaledLimit sample_env_half 0%nat 250)
      /\ effPowerLimit sample_env_half 0%nat 250 = 500
      /\ sent (snd (setNewPowerLimit sample_env_half 0%nat 250 sample_bound))
         = [sendActivePowerControlRequest_AbsolutNonPersistent 0%nat 500]).
Proof.
  destruct (setNewPowerLimit_spec sample_env_half 0%nat 5 sample_bound)
    as [A _].
  destruct (setNewPowerLimit_spec sample_env_half 0%nat 250 sample_bound)
    as [_ B].
  assert (H5 : 5 < PowerLimiter_LowerPowerLimit (config sample_env_half))
    by (simpl; lia).
  assert (H250 : PowerLimiter_LowerPowerLimit (config sample_env_half) <= 250)
    by (simpl; lia).
  assert (Hin : in_i32 (scaledLimit sample_env_half 0%nat 250)).
  { unfold in_i32. vm_compute. split; [discriminate|reflexivity]. }
  split.
  - split; [exact H5|]. exact (proj1 (A H5)).
  - split; [exact H250|]. split; [exact Hin|].
    destruct (B H250 Hin) as [E _].
    split; [rewrite E; reflexivity|]. reflexivity.
Defined.

(** the difference of two limits as the code computes it, where the
    subtraction does not overflow. *)
Lemma diff_no_overflow (a b : Z) :
  - 2 ^ 31 < a - b < 2 ^ 31 -> i32 (Z.abs (i32 (a - b))) = Z.abs (a - b).
Proof.
  intros H.
  rewrite (i32_id (a - b)) by (unfold in_i32; lia).
  apply i32_id. unfold in_i32. lia.
Qed.

(** C2. For every requested limit at or above the lower power limit,
    setNewPowerLimit() skips the commit (returns false, sends no command,
    leaves the object as it is but for a verbose print) if and only if the
    absolute difference between the effective limit and the last requested
    limit is below the hysteresis and the last command is less than 60
    seconds old. Otherwise it commits the effective limit; in particular it
    does so whenever the last command is at least 60 seconds old, also when
    the difference is zero. *)
Theorem setNewPowerLimit_hysteresis (env : Env) (inverter : InverterRef)
    (requested : Z) (s : PowerLimiterClass) :
  PowerLimiter_LowerPowerLimit (config env) <= requested ->
  let eff := effPowerLimit env inverter requested in
  let last := _lastRequestedPowerLimit s in
  - 2 ^ 31 < eff - last < 2 ^ 31 ->
  let age := u32 (millis env - _lastPowerLimitMillis s) in
  let within :=
    Z.abs (eff - last)
    < PowerLimiter_TargetPowerConsumptionHysteresis (config env)
    /\ age < 60 * 1000 in
  let r := fst (setNewPowerLimit env inverter requested s) in
  let s' := snd (setNewPowerLimit env inverter requested s) in
  let skipped :=
    r = false /\ sent s' = sent s
    /\ _lastRequestedPowerLimit s' = last
    /\ _lastPowerLimitMillis s' = _lastPowerLimitMillis s
    /\ exists l, s' = set_MessageOutput (MessageOutput s ++ l) s in
  let committed :=
    r = true /\ sent s' = sent s ++ commitCommands env inverter eff
    /\ _lastRequestedPowerLimit s' = eff
    /\ _lastPowerLimitMillis s' = millis env in
  (skipped <-> within)
  /\ (~ within -> committed)
  /\ (60 * 1000 <= age -> committed).
Proof.
  intros Hlow eff last Hov age within r s' skipped committed.
  destruct (setNewPowerLimit_eq env inverter requested s Hlow)
    as (s1 & s2 & [l1 H1] & [l2 H2] & Heq).
  cbv zeta in Heq. fold eff last age in Heq.
  rewrite (diff_no_overflow eff last Hov) in Heq.
  assert (Hw : within
               <-> (Z.abs (eff - last)
                    <? PowerLimiter_TargetPowerConsumptionHysteresis
                         (config env))
                   && (age <? 60 * 1000) = true).
  { unfold within. rewrite andb_true_iff, !Z.ltb_lt. reflexivity. }
  destruct (commitPowerLimit_enable env inverter eff s2)
    as (C1 & C2 & C3 & _).
  destruct ((Z.abs (eff - last)
             <? PowerLimiter_TargetPowerConsumptionHysteresis (config env))
            && (age <? 60 * 1000)) eqn:E.
  - assert (Hs : skipped).
    { unfold skipped, r, s'. rewrite Heq. cbn [fst snd]. rewrite H1.
      repeat split; try reflexivity. exists l1. reflexivity. }
    assert (W : within) by (apply Hw; reflexivity).
    split; [tauto|]. split; [tauto|].
    intros Hage. unfold within in W. lia.
  - assert (Hc : committed).
    { unfold committed, r, s'. rewrite Heq. cbn [fst snd].
      rewrite C1, C2, C3, H2. repeat split; reflexivity. }
    assert (W : ~ within) by (intros W; apply Hw in W; discriminate W).
    split; [|tauto].
    split; [|tauto].
    intros (Hr & _). destruct Hc as (Hr' & _). congruence.
Qed.

Lemma setNewPowerLimit_hysteresis_witness :
  (* last limit 200 W, sent 5 s ago; 203 W requested, hysteresis 5 W *)
  (PowerLimiter_LowerPowerLimit (config (sample_env_at 20000)) <= 203
   /\ - 2 ^ 31 < effPowerLimit (sample_env_at 20000) 0%nat 203
                 - _lastRequestedPowerLimit sample_committed < 2 ^ 31
   /\ fst (setNewPowerLimit (sample_env_at 20000) 0%nat 203 sample_committed)
      = false
   /\ sent (snd (setNewPowerLimit (sample_env_at 20000) 0%nat 203
                   sample_committed)) = [])
  (* the same limit of 200 W requested again 60 s after it was sent *)
  /\ (PowerLimiter_LowerPowerLimit (config (sample_env_at 75000)) <= 200
      /\ 60 * 1000
         <= u32 (millis (sample_env_at 75000)
                 - _lastPowerLimitMillis sample_committed)
      /\ fst (setNewPowerLimit (sample_env_at 75000) 0%nat 200
                sample_committed) = true
      /\ sent (snd (setNewPowerLimit (sample_env_at 75000) 0%nat 200
                      sample_committed))
         = [sendActivePowerControlRequest_AbsolutNonPersistent 0%nat 200]).
Proof.
  assert (L1 : PowerLimiter_LowerPowerLimit (config (sample_env_at 20000))
               <= 203) by (simpl; lia).
  assert (O1 : - 2 ^ 31 < effPowerLimit (sample_env_at 20000) 0%nat 203
                 - _lastRequestedPowerLimit sample_committed < 2 ^ 31).
  { vm_compute. split; reflexivity. }
  assert (L2 : PowerLimiter_LowerPowerLimit (config (sample_env_at 75000))
               <= 200) by (simpl; lia).
  assert (O2 : - 2 ^ 31 < effPowerLimit (sample_env_at 75000) 0%nat 200
                 - _lastRequestedPowerLimit sample_committed < 2 ^ 31).
  { vm_compute. split; reflexivity. }
  assert (A2 : 60 * 1000
               <= u32 (millis (sample_env_at 75000)
                       - _lastPowerLimitMillis sample_committed)).
  { vm_compute. discriminate. }
  destruct (setNewPowerLimit_hysteresis (sample_env_at 20000) 0%nat 203
              sample_committed L1 O1) as ([_ S] & _ & _).
  destruct (setNewPowerLimit_hysteresis (sample_env_at 75000) 0%nat 200
              sample_committed L2 O2) as (_ & _ & C).
  split.
  - split; [exact L1|]. split; [exact O1|].
    assert (W : Z.abs (effPowerLimit (sample_env_at 20000) 0%nat 203
                       - _lastRequestedPowerLimit sample_committed)
                < PowerLimiter_TargetPowerConsumptionHysteresis
                    (config (sample_env_at 20000))
                /\ u32 (millis (sample_env_at 20000)
                        - _lastPowerLimitMillis sample_committed)
                   < 60 * 1000).
    { vm_compute. split; reflexivity. }
    destruct (S W) as (R & Q & _).
    split; [exact R|]. exact Q.
  - split; [exact L2|]. split; [exact A2|].
    destruct (C A2) as (R & Q & _).
    split; [exact R|]. exact Q.
Defined.

(** ** Power limit calculator *)

(** the value of useFullSolarPassthrough() depends on the object through
    the bound inverter and the latch only. *)
Lemma useFullSolarPassthrough_value env (s s' : PowerLimiterClass) :
  _inverter s = _inverter s' ->
  _fullSolarPassThroughEnabled s = _fullSolarPassThroughEnabled s' ->
  fst (useFullSolarPassthrough env s) = fst (useFullSolarPassthrough env s').
Proof.
  intros Hi Hl.
  destruct (PowerLimiter_SolarPassThroughEnabled (config env)) eqn:E.
  - destruct (useFullSolarPassthrough_enabled env s E) as [-> _].
    destruct (useFullSolarPassthrough_enabled env s' E) as [-> _].
    unfold fullPassthroughStop, fullPassthroughStart.
    rewrite (testThreshold_value env _ _ cmp_lt s s' Hi).
    rewrite (testThreshold_value env _ _ cmp_ge s s' Hi).
    rewrite Hl. reflexivity.
  - unfold useFullSolarPassthrough. rewrite E. reflexivity.
Qed.

Lemma gtb_max (a b : Z) : (if a >? b then a else b) = Z.max a b.
Proof. destruct (Z.gtb_spec a b); lia. Qed.

(** the scenarios of the decision table on the sample inputs: 500 W drawn
    from the grid, a target consumption of 10 W, 260 W of solar power worth
    239 W on the AC side. *)
Example calcPowerLimit_case1 :
  fst (calcPowerLimit sample_env 0%nat false false sample_bound) = 0.
Proof. reflexivity. Qed.

Example calcPowerLimit_case2 :
  fst (calcPowerLimit sample_env 0%nat true false sample_bound) = 239.
Proof. reflexivity. Qed.

Example calcPowerLimit_case3 :
  fst (calcPowerLimit sample_env 0%nat true true sample_bound) = 490.
Proof. reflexivity. Qed.

Example calcPowerLimit_case5 :
  fst (calcPowerLimit sample_env_full 0%nat true true sample_bound) = 490
  /\ rawPowerLimit sample_env_full 0%nat = 490
  /\ solarAcPower sample_env_full 0%nat sample_bound = 239
  /\ fst (useFullSolarPassthrough sample_env_full sample_bound) = true.
Proof. repeat split; reflexivity. Qed.

(** C1, counterexample. Solar power enabled, discharge disabled (case 2)
    while the external power source is active: 490 W are required and the
    solar power is worth 239 W, so that the table gives 239 W, and
    calcPowerLimit() returns 0. *)
Lemma calcPowerLimit_case2_auto_power :
  getAutoPowerStatus sample_env_auto_power = true
  /\ rawPowerLimit sample_env_auto_power 0%nat = 490
  /\ solarAcPower sample_env_auto_power 0%nat sample_bound = 239
  /\ fst (calcPowerLimit sample_env_auto_power 0%nat true false sample_bound)
     = 0
  /\ ~ calcPowerLimit_as_stated.
Proof.
  split; [reflexivity|]. split; [reflexivity|]. split; [reflexivity|].
  split; [reflexivity|].
  intros H.
  specialize (H sample_env_auto_power 0%nat true false sample_bound).
  vm_compute in H. discriminate H.
Qed.

(** C1, amended. calcPowerLimit() returns 0 when solar is disabled and
    discharge is disabled (case 1); max(raw, AC-equivalent solar power) when
    discharge is enabled and full passthrough is true (case 5); in the other
    cases it returns 0 when the external auto-power source is active, and
    otherwise min(raw, AC-equivalent solar power) when solar is enabled and
    discharge is disabled (case 2) and raw when discharge is enabled and
    full passthrough is false (cases 3/4). Here raw is the rounded total of
    the power meter, plus the inverter's last AC power (as an integer) if
    the inverter is behind the meter, minus the target consumption. *)
Theorem calcPowerLimit_table (env : Env) (inverter : InverterRef)
    (solarPowerEnabled batteryDischargeEnabled : bool)
    (s : PowerLimiterClass) :
  let raw := rawPowerLimit env inverter in
  let solarAC := solarAcPower env inverter s in
  fst (calcPowerLimit env inverter solarPowerEnabled
         batteryDischargeEnabled s)
  = if batteryDischargeEnabled
    then if fst (useFullSolarPassthrough env s) then Z.max raw solarAC
         else if getAutoPowerStatus env then 0 else raw
    else if solarPowerEnabled
         then if getAutoPowerStatus env then 0 else Z.min raw solarAC
         else 0.
Proof.
  intros raw solarAC. unfold calcPowerLimit.
  fold (rawPowerLimit env inverter). fold raw.
  destruct solarPowerEnabled, batteryDischargeEnabled; cbn [negb andb].
  all: try reflexivity.
  all: rewrite run_bind; fold (solarAcPower env inverter s); fold solarAC.
  all: rewrite run_bind.
  all: try (rewrite (useFullSolarPassthrough_value env
                       (snd (getSolarChargePower env s)) s)
              by (first [apply logs_inverter | apply logs_latch];
                  apply logs_getSolarChargePower)).
  all: cbn [ret fst snd].
  all: try rewrite gtb_max.
  all: destruct (getAutoPowerStatus env);
       try destruct (fst (useFullSolarPassthrough env s));
       try reflexivity.
  all: unfold verbose, get; rewrite !run_bind;
       destruct (_verboseLogging _); reflexivity.
Qed.

(** ** The control loop *)

Ltac run_step := rewrite run_bind; cbn [fst snd get modify ret].

Lemma dispatchGuards_true env (s : PowerLimiterClass) (cur : InverterRef) :
  dispatchGuards env s cur = true ->
  (exists t, getLocalTime env = Some t)
  /\ (0 <? _shutdownTimeout s) = false
  /\ PowerLimiter_Enabled (config env) = true
  /\ Mode_eqb Disabled (_mode s) = false
  /\ getInverterByPos env (PowerLimiter_InverterId (config env)) = Some cur
  /\ match _inverter s with
     | Some inv => negb (serial (deref env inv) =? serial (deref env cur))
     | None => false
     end = false
  /\ isReachable (deref env cur) = true
  /\ getEnableCommands (deref env cur) = true
  /\ is_pending (getLastLimitCommandSuccess (deref env cur)) = false
  /\ is_pending (getLastPowerCommandSuccess (deref env cur)) = false
  /\ (getMaxPower (deref env cur) <=? 0) = false.
Proof.
  unfold dispatchGuards. cbv zeta. intros G.
  repeat (apply andb_true_iff in G; destruct G as [G ?]).
  repeat match goal with
         | H : negb _ = true |- _ => apply negb_true_iff in H
         end.
  repeat split; try assumption.
  - destruct (getLocalTime env) as [t|]; [exists t; reflexivity|discriminate].
  - destruct (getInverterByPos env _) as [c|]; [|discriminate].
    f_equal. apply Nat.eqb_eq. assumption.
Qed.

(** a call that passes the tests up to the mode of operation, in the
    unconditional mode, is a call of unconditionalSolarPassthrough(). *)
Lemma loop_unconditional env d (s : PowerLimiterClass) (cur : InverterRef) :
  dispatchGuards env s cur = true ->
  _mode s = UnconditionalFullSolarPassthrough ->
  loop env d s = unconditionalSolarPassthrough env cur (bound env cur s).
Proof.
  intros G Hm.
  destruct (dispatchGuards_true env s cur G)
    as ([t Ht] & G2 & G3 & G4 & G5 & G6 & G7 & G8 & G9 & G10 & G11).
  unfold loop. run_step. rewrite Ht.
  set (s0 := set_verboseLogging _ s).
  run_step. change (_shutdownTimeout s0) with (_shutdownTimeout s).
  rewrite G2, G3. cbn [negb]. run_step.
  change (_mode s0) with (_mode s). rewrite G4, G5.
  run_step. change (_inverter s0) with (_inverter s). rewrite G6.
  run_step. rewrite G7, G8, G9, G10, G11. cbn [negb].
  rewrite Hm. cbn [Mode_eqb]. reflexivity.
Qed.

Lemma announceStatus_lastStatus env status (s : PowerLimiterClass) :
  _lastStatus (snd (announceStatus env status s)) = status.
Proof.
  unfold announceStatus. unfold get. rewrite !run_bind. cbn [fst snd].
  destruct (Status_eqb (_lastStatus s) status) eqn:E.
  - assert (Hs : _lastStatus s = status)
      by (destruct (_lastStatus s), status; try discriminate E; reflexivity).
    destruct (millis env <? _); cbn [andb].
    + exact Hs.
    + rewrite andb_true_r.
      destruct (Status_eqb status DisabledByConfig); [exact Hs|reflexivity].
  - cbn [andb]. rewrite andb_false_r. reflexivity.
Qed.

Lemma keeps_lastStatus_commitPowerLimit env inverter limit enable :
  keeps _lastStatus (commitPowerLimit env inverter limit enable).
Proof. unfold commitPowerLimit, send, println. keeps_tac. Qed.

Lemma shutdown_lastStatus env status (s : PowerLimiterClass) :
  _lastStatus (snd (shutdown env status s)) = status.
Proof.
  rewrite shutdown_eq. cbv zeta.
  pose proof (announceStatus_lastStatus env status s) as H.
  set (s1 := snd (announceStatus env status s)) in *.
  destruct (_inverter s1) as [inv|]; [|exact H].
  destruct (_ || _); [exact H|].
  destruct (negb (isReachable _)); [exact H|].
  assert (H2 : _lastStatus
                 (if _shutdownTimeout s1 =? 0
                  then set_shutdownTimeout (u32 (millis env + 10 * 1000)) s1
                  else s1) = status)
    by (destruct (_shutdownTimeout s1 =? 0); exact H).
  destruct (is_pending (getLastLimitCommandSuccess _)); [exact H2|].
  destruct (is_pending (getLastPowerCommandSuccess _)); [exact H2|].
  cbn [snd]. rewrite keeps_lastStatus_commitPowerLimit. exact H2.
Qed.

(** C10, counterexample. In the unconditional mode with the solar charger
    switched off in the configuration the call shuts the inverter down (it
    stops it and sends the lower power limit of 10 W) and announces
    NoVeDirect. *)
Lemma unconditionalPassthrough_needs_vedirect :
  dispatchGuards sample_env_no_vedirect sample_unconditional 0%nat = true
  /\ _mode sample_unconditional = UnconditionalFullSolarPassthrough
  /\ Vedirect_Enabled (config sample_env_no_vedirect) = false
  /\ _lastStatus (snd (loop sample_env_no_vedirect 128 sample_unconditional))
     = NoVeDirect
  /\ sent (snd (loop sample_env_no_vedirect 128 sample_unconditional))
     = [sendPowerControlRequest 0%nat false;
        sendActivePowerControlRequest_AbsolutNonPersistent 0%nat 10]
  /\ ~ unconditionalPassthrough_as_stated.
Proof.
  split; [reflexivity|]. split; [reflexivity|]. split; [reflexivity|].
  split; [reflexivity|]. split; [reflexivity|].
  intros H.
  specialize (H sample_env_no_vedirect 128 sample_unconditional 0%nat
                eq_refl eq_refl).
  vm_compute in H. discriminate H.
Qed.

(** C10, amended. On every call of loop() that reaches priority step 11
    in the mode UnconditionalFullSolarPassthrough, with the solar charger
    enabled and its data valid, the loop computes the solar-based limit
    (solar voltage times current, converted to its AC equivalent), hands it
    to the limit committer, announces UnconditionalSolarPassthrough and
    returns; with the solar charger disabled or its data invalid it calls
    shutdown() with the status NoVeDirect instead. In both cases the power
    meter is not consulted: other readings of it, or disabling it, leave
    the call as it is. *)
Theorem loop_unconditionalSolarPassthrough (env : Env) (d : Z)
    (s : PowerLimiterClass) (cur : InverterRef) :
  dispatchGuards env s cur = true ->
  _mode s = UnconditionalFullSolarPassthrough ->
  let s0 := bound env cur s in
  let solarPower := i32 (Qtrunc (veFrame_V env * veFrame_I env)%Q) in
  let limit := inverterPowerDcToAc env cur solarPower in
  (Vedirect_Enabled (config env) = true -> isDataValid env = true ->
     loop env d s
     = (tt, snd (announceStatus env UnconditionalSolarPassthrough
                   (snd (setNewPowerLimit env cur limit s0))))
     /\ _lastStatus (snd (loop env d s)) = UnconditionalSolarPassthrough)
  /\ (Vedirect_Enabled (config env) = false \/ isDataValid env = false ->
        loop env d s = (tt, snd (shutdown env NoVeDirect s0))
        /\ _lastStatus (snd (loop env d s)) = NoVeDirect)
  /\ (forall (enabled : bool) (powerTotal : Q) (lastPowerMeterUpdate : Z),
        loop (with_power_meter env enabled powerTotal lastPowerMeterUpdate)
          d s
        = loop env d s).
Proof.
  intros G Hm s0 solarPower limit.
  pose proof (loop_unconditional env d s cur G Hm) as L. fold s0 in L.
  split; [|split].
  - intros Hv Hd.
    assert (E : loop env d s
                = (tt, snd (announceStatus env UnconditionalSolarPassthrough
                              (snd (setNewPowerLimit env cur limit s0))))).
    { rewrite L. unfold unconditionalSolarPassthrough. rewrite Hv, Hd.
      cbn [negb orb]. rewrite run_bind.
      fold solarPower. fold limit.
      destruct (announceStatus env UnconditionalSolarPassthrough
                  (snd (setNewPowerLimit env cur limit s0))) as [[] s2].
      reflexivity. }
    split; [exact E|]. rewrite E. apply announceStatus_lastStatus.
  - intros Hoff.
    assert (E : loop env d s = (tt, snd (shutdown env NoVeDirect s0))).
    { rewrite L. unfold unconditionalSolarPassthrough.
      assert (Hc : negb (Vedirect_Enabled (config env))
                   || negb (isDataValid env) = true).
      { destruct Hoff as [-> | ->]; [reflexivity|apply orb_true_r]. }
      rewrite Hc. rewrite run_bind. reflexivity. }
    split; [exact E|]. rewrite E. apply shutdown_lastStatus.
  - intros enabled powerTotal lastPowerMeterUpdate.
    rewrite L.
    rewrite (loop_unconditional
               (with_power_meter env enabled powerTotal lastPowerMeterUpdate)
               d s cur G Hm).
    reflexivity.
Qed.

Lemma loop_unconditionalSolarPassthrough_witness :
  dispatchGuards sample_env sample_unconditional 0%nat = true
  /\ _mode sample_unconditional = UnconditionalFullSolarPassthrough
  /\ Vedirect_Enabled (config sample_env) = true
  /\ isDataValid sample_env = true
  /\ _lastStatus (snd (loop sample_env 128 sample_unconditional))
     = UnconditionalSolarPassthrough
  /\ loop (with_power_meter sample_env false 0 0) 128 sample_unconditional
     = loop sample_env 128 sample_unconditional.
Proof.
  destruct (loop_unconditionalSolarPassthrough sample_env 128
              sample_unconditional 0%nat eq_refl eq_refl) as (A & _ & C).
  destruct (A eq_refl eq_refl) as [_ A2].
  split; [reflexivity|]. split; [reflexivity|]. split; [reflexivity|].
  split; [reflexivity|]. split; [exact A2|]. exact (C false 0%Q 0).
Defined.

(** *** What the steps before the limit committer leave as it is *)

Create HintDb pkeeps.

Ltac keeps_core_step :=
  first
    [ apply keeps_ret
    | apply keeps_get
    | apply keeps_modify; intros ?; reflexivity
    | apply keeps_logs; [ignores_tac | solve [auto with plogs]]
    | solve [auto with pkeeps]
    | match goal with
      | |- keeps _ (bind _ _) => apply keeps_bind; [|intros ?]
      | |- keeps _ (if ?c then _ else _) => destruct c
      | |- keeps _ (match ?c with _ => _ end) => destruct c
      end ].

Ltac keeps_core := cbv zeta; repeat keeps_core_step.

Lemma keeps_core_send_restart (inv : InverterRef) :
  keeps core (send (sendRestartControlRequest inv)).
Proof.
  intros s. unfold core. cbn. rewrite limitRequests_app.
  cbn. rewrite app_nil_r. reflexivity.
Qed.
#[local] Hint Resolve keeps_core_send_restart : pkeeps.

Lemma keeps_core_calcNextInverterRestart env :
  keeps core (calcNextInverterRestart env).
Proof. unfold calcNextInverterRestart. keeps_core. Qed.
#[local] Hint Resolve keeps_core_calcNextInverterRestart : pkeeps.

Lemma keeps_core_checkInverterRestart env inverter :
  keeps core (checkInverterRestart env inverter).
Proof. unfold checkInverterRestart. keeps_core. Qed.
#[local] Hint Resolve keeps_core_checkInverterRestart : pkeeps.

Lemma keeps_core_updateBatteryDischargeEnabled env :
  keeps core (updateBatteryDischargeEnabled env).
Proof. unfold updateBatteryDischargeEnabled. keeps_core. Qed.
#[local] Hint Resolve keeps_core_updateBatteryDischargeEnabled : pkeeps.

Lemma keeps_core_useFullSolarPassthrough env :
  keeps core (useFullSolarPassthrough env).
Proof. unfold useFullSolarPassthrough. keeps_core. Qed.
#[local] Hint Resolve keeps_core_useFullSolarPassthrough : pkeeps.

Lemma keeps_core_calcPowerLimit env inverter solar discharge :
  keeps core (calcPowerLimit env inverter solar discharge).
Proof. unfold calcPowerLimit. keeps_core. Qed.
#[local] Hint Resolve keeps_core_calcPowerLimit : pkeeps.

Lemma keeps_core_announceStatus env status :
  keeps core (announceStatus env status).
Proof. apply keeps_announceStatus; ignores_tac. Qed.
#[local] Hint Resolve keeps_core_announceStatus : pkeeps.

(** *** One calculation *)

(** calculate() hands a limit to setNewPowerLimit() in a state that agrees
    with the initial one on [core], and sets the backoff by its report. *)
Lemma calculate_shape env d inverter (s0 : PowerLimiterClass) :
  exists (newPowerLimit : Z) (s1 : PowerLimiterClass),
    core s1 = core s0
    /\ let r := setNewPowerLimit env inverter newPowerLimit s1 in
       let s' := snd (calculate env d inverter s0) in
       _calculationBackoffMs s'
       = (if fst r then d
          else Z.min 1024 (u32 (_calculationBackoffMs (snd r) * 2)))
       /\ limitRequests (sent s') = limitRequests (sent (snd r)).
Proof.
  unfold calculate. rewrite !run_bind. cbn [fst snd get].
  match goal with
  | |- context [setNewPowerLimit env inverter ?n ?s] =>
    exists n, s; set (s1 := s); set (npl := n)
  end.
  split.
  - unfold s1.
    rewrite keeps_core_calcPowerLimit.
    rewrite (keeps_logs core (canUseDirectSolarPower env))
      by (ignores_tac || auto with plogs).
    repeat rewrite (keeps_logs core (verbose _))
      by (ignores_tac || auto with plogs).
    rewrite keeps_core_updateBatteryDischargeEnabled.
    rewrite keeps_core_checkInverterRestart.
    rewrite (keeps_logs core (verbose _))
      by (ignores_tac || auto with plogs).
    reflexivity.
  - cbv zeta.
    destruct (setNewPowerLimit env inverter npl s1) as [upd s2].
    cbn [fst snd].
    destruct (logs_verbose 320%nat s2) as [l Hl].
    destruct upd; cbn [negb modify fst snd].
    + rewrite Hl. split; reflexivity.
    + rewrite !run_bind. cbn [fst snd get modify].
      split.
      * rewrite keeps_announceStatus by ignores_tac.
        rewrite Hl. reflexivity.
      * change (limitRequests (sent ?x)) with (snd (core x)).
        rewrite keeps_core_announceStatus. rewrite Hl. reflexivity.
Qed.

(** in the calculation the report of setNewPowerLimit() tells whether a
    limit was committed: the inverter is in reach, no command is pending
    and no shutdown is under way. *)
Lemma setNewPowerLimit_report env (cur : InverterRef) (newPowerLimit : Z)
    (s : PowerLimiterClass) :
  _inverter s = Some cur ->
  (0 <? _shutdownTimeout s) = false ->
  isReachable (deref env cur) = true ->
  is_pending (getLastLimitCommandSuccess (deref env cur)) = false ->
  is_pending (getLastPowerCommandSuccess (deref env cur)) = false ->
  let r := setNewPowerLimit env cur newPowerLimit s in
  _calculationBackoffMs (snd r) = _calculationBackoffMs s
  /\ ((fst r = true /\ committedLimit s (snd r))
      \/ (fst r = false
          /\ limitRequests (sent (snd r)) = limitRequests (sent s))).
Proof.
  intros Hi Ht Hr Hl Hp.
  destruct (Z.ltb_spec newPowerLimit
              (PowerLimiter_LowerPowerLimit (config env))) as [Hlow | Hge].
  - (* below the lower power limit: shutdown *)
    cbv zeta. unfold setNewPowerLimit.
    apply Z.ltb_lt in Hlow. rewrite Hlow.
    unfold shutdown_again, get. rewrite run_bind. cbn [fst snd].
    rewrite shutdown_eq. cbv zeta.
    pose proof (keeps_core_announceStatus env (_lastStatus s) s) as K.
    set (s1 := snd (announceStatus env (_lastStatus s) s)) in *.
    unfold core in K. injection K as KI KT KB KL.
    rewrite KI, Hi, KT, Ht, Hr, Hl, Hp. cbn [negb andb orb].
    rewrite orb_false_r.
    destruct (isProducing (deref env cur)); cbn [negb fst snd].
    + set (s2 := if _shutdownTimeout s =? 0 then _ else s1).
      assert (K2 : limitRequests (sent s2) = limitRequests (sent s)
                   /\ _calculationBackoffMs s2 = _calculationBackoffMs s).
      { unfold s2. destruct (_shutdownTimeout s =? 0);
          split; assumption. }
      destruct K2 as [K2L K2B].
      destruct (commitPowerLimit_disable env cur
                  (PowerLimiter_LowerPowerLimit (config env)) s2)
        as [C1 C2].
      cbv zeta in C1, C2.
      split; [rewrite C2; exact K2B|].
      left. split; [reflexivity|].
      exists cur, (inject_Z (PowerLimiter_LowerPowerLimit (config env))).
      rewrite C1, K2L. reflexivity.
    + split; [exact KB|]. right. split; [reflexivity|exact KL].
  - (* at or above: hysteresis *)
    destruct (setNewPowerLimit_eq env cur newPowerLimit s Hge)
      as (s1 & s2 & [l1 H1] & [l2 H2] & Heq).
    cbv zeta. rewrite Heq. cbv zeta.
    destruct (_ && _); cbn [fst snd].
    + rewrite H1. split; [reflexivity|]. right. split; reflexivity.
    + destruct (commitPowerLimit_enable env cur
                  (effPowerLimit env cur newPowerLimit) s2)
        as (C1 & _ & _ & C4 & _).
      split; [rewrite C4, H2; reflexivity|].
      left. split; [reflexivity|].
      exists cur, (inject_Z (effPowerLimit env cur newPowerLimit)).
      rewrite C1, limitRequests_app, limitRequests_commitCommands, H2.
      reflexivity.
Qed.

(** one calculation either commits a limit and resets the backoff, or
    commits none and doubles the backoff up to 1024 ms. *)
Lemma calculate_backoff env d (cur : InverterRef) (s0 : PowerLimiterClass) :
  _inverter s0 = Some cur ->
  (0 <? _shutdownTimeout s0) = false ->
  isReachable (deref env cur) = true ->
  is_pending (getLastLimitCommandSuccess (deref env cur)) = false ->
  is_pending (getLastPowerCommandSuccess (deref env cur)) = false ->
  let s' := snd (calculate env d cur s0) in
  (committedLimit s0 s' /\ _calculationBackoffMs s' = d)
  \/ (limitRequests (sent s') = limitRequests (sent s0)
      /\ _calculationBackoffMs s'
         = Z.min 1024 (u32 (_calculationBackoffMs s0 * 2))).
Proof.
  intros Hi Ht Hr Hl Hp s'.
  destruct (calculate_shape env d cur s0) as (npl & s1 & K & S).
  cbv zeta in S. fold s' in S. destruct S as [SB SL].
  unfold core in K. injection K as KI KT KB KL.
  destruct (setNewPowerLimit_report env cur npl s1) as [RB RC];
    try assumption; try congruence.
  cbv zeta in RB, RC.
  destruct RC as [[R1 (inv & limit & R2)] | [R1 R2]].
  - left. rewrite R1 in SB. split; [|exact SB].
    exists inv, limit. rewrite SL, R2, KL. reflexivity.
  - right. rewrite R1 in SB. split.
    + rewrite SL, R2, KL. reflexivity.
    + rewrite SB, RB, KB. reflexivity.
Qed.

(** *** The calls of loop() *)

(** a call that passes all tests is one calculation. *)
Lemma loop_calculate env d (s : PowerLimiterClass) (cur : InverterRef) :
  calculationGuards env s cur = true ->
  loop env d s = calculate env d cur (bound env cur s).
Proof.
  unfold calculationGuards. cbv zeta. intros G.
  apply andb_true_iff in G; destruct G as [G C18].
  apply andb_true_iff in G; destruct G as [G C17].
  apply andb_true_iff in G; destruct G as [G C16].
  apply andb_true_iff in G; destruct G as [G C15].
  apply andb_true_iff in G; destruct G as [G C14].
  apply andb_true_iff in G; destruct G as [G C13].
  apply andb_true_iff in G; destruct G as [G C12].
  apply negb_true_iff in C12, C14, C15, C16, C17, C18.
  destruct (dispatchGuards_true env s cur G)
    as ([t Ht] & G2 & G3 & G4 & G5 & G6 & G7 & G8 & G9 & G10 & G11).
  unfold loop. run_step. rewrite Ht.
  set (s0 := set_verboseLogging _ s).
  run_step. change (_shutdownTimeout s0) with (_shutdownTimeout s).
  rewrite G2, G3. cbn [negb]. run_step.
  change (_mode s0) with (_mode s). rewrite G4, G5.
  run_step. change (_inverter s0) with (_inverter s). rewrite G6.
  run_step. rewrite G7, G8, G9, G10, G11. cbn [negb].
  rewrite C12, C13, C14. cbn [negb]. cbv zeta.
  rewrite C15, C16, C17.
  run_step. run_step.
  change (_lastCalculation (set_inverter (Some cur) s0))
    with (_lastCalculation s).
  change (_calculationBackoffMs (set_inverter (Some cur) s0))
    with (_calculationBackoffMs s).
  rewrite C18. reflexivity.
Qed.

Lemma keeps_backoff_announceStatus env status :
  keeps _calculationBackoffMs (announceStatus env status).
Proof. apply keeps_announceStatus; ignores_tac. Qed.
#[local] Hint Resolve keeps_backoff_announceStatus : pkeeps.

Lemma keeps_backoff_commitPowerLimit env inverter limit enable :
  keeps _calculationBackoffMs (commitPowerLimit env inverter limit enable).
Proof. unfold commitPowerLimit, send, println. keeps_core. Qed.
#[local] Hint Resolve keeps_backoff_commitPowerLimit : pkeeps.

Lemma keeps_backoff_shutdown env status :
  keeps _calculationBackoffMs (shutdown env status).
Proof. unfold shutdown. keeps_core. Qed.
#[local] Hint Resolve keeps_backoff_shutdown : pkeeps.

Lemma keeps_backoff_shutdown_again env :
  keeps _calculationBackoffMs (shutdown_again env).
Proof. unfold shutdown_again. keeps_core. Qed.
#[local] Hint Resolve keeps_backoff_shutdown_again : pkeeps.

Lemma keeps_backoff_setNewPowerLimit env inverter limit :
  keeps _calculationBackoffMs (setNewPowerLimit env inverter limit).
Proof. unfold setNewPowerLimit. keeps_core. Qed.
#[local] Hint Resolve keeps_backoff_setNewPowerLimit : pkeeps.

Lemma keeps_backoff_unconditionalSolarPassthrough env inverter :
  keeps _calculationBackoffMs (unconditionalSolarPassthrough env inverter).
Proof. unfold unconditionalSolarPassthrough. keeps_core. Qed.
#[local] Hint Resolve keeps_backoff_unconditionalSolarPassthrough : pkeeps.

(** a call that does not pass all tests leaves the backoff as it is. *)
Lemma loop_backoff_kept env d (s : PowerLimiterClass) :
  (exists cur, calculationGuards env s cur = true)
  \/ _calculationBackoffMs (snd (loop env d s)) = _calculationBackoffMs s.
Proof.
  unfold loop. run_step.
  set (s0 := set_verboseLogging _ s).
  assert (B0 : _calculationBackoffMs s0 = _calculationBackoffMs s)
    by reflexivity.
  destruct (getLocalTime env) as [t|] eqn:G1;
    [|right; rewrite keeps_backoff_announceStatus; exact B0].
  run_step. change (_shutdownTimeout s0) with (_shutdownTimeout s).
  destruct (0 <? _shutdownTimeout s) eqn:G2;
    [right; run_step; rewrite keeps_backoff_shutdown_again; exact B0|].
  destruct (PowerLimiter_Enabled (config env)) eqn:G3; cbn [negb];
    [|right; run_step; rewrite keeps_backoff_shutdown; exact B0].
  run_step. change (_mode s0) with (_mode s).
  destruct (Mode_eqb Disabled (_mode s)) eqn:G4;
    [right; run_step; rewrite keeps_backoff_shutdown; exact B0|].
  destruct (getInverterByPos env (PowerLimiter_InverterId (config env)))
    as [cur|] eqn:G5;
    [|right; run_step; rewrite keeps_backoff_shutdown; exact B0].
  run_step. change (_inverter s0) with (_inverter s).
  destruct (match _inverter s with
            | Some inv =>
              negb (serial (deref env inv) =? serial (deref env cur))
            | None => false
            end) eqn:G6;
    [right; run_step; rewrite keeps_backoff_shutdown; exact B0|].
  run_step.
  set (s1 := set_inverter (Some cur) s0).
  assert (B1 : _calculationBackoffMs s1 = _calculationBackoffMs s)
    by reflexivity.
  destruct (isReachable (deref env cur)) eqn:G7; cbn [negb];
    [|right; rewrite keeps_backoff_announceStatus; exact B1].
  destruct (getEnableCommands (deref env cur)) eqn:G8; cbn [negb];
    [|right; rewrite keeps_backoff_announceStatus; exact B1].
  destruct (is_pending (getLastLimitCommandSuccess (deref env cur))) eqn:G9;
    [right; rewrite keeps_backoff_announceStatus; exact B1|].
  destruct (is_pending (getLastPowerCommandSuccess (deref env cur))) eqn:G10;
    [right; rewrite keeps_backoff_announceStatus; exact B1|].
  destruct (getMaxPower (deref env cur) <=? 0) eqn:G11;
    [right; rewrite keeps_backoff_announceStatus; exact B1|].
  destruct (Mode_eqb UnconditionalFullSolarPassthrough (_mode s)) eqn:G12;
    [right; rewrite keeps_backoff_unconditionalSolarPassthrough; exact B1|].
  destruct (PowerMeter_Enabled (config env)) eqn:G13; cbn [negb];
    [|right; run_step; rewrite keeps_backoff_shutdown; exact B1].
  destruct (30 * 1000 <? u32 (millis env - getLastPowerMeterUpdate env))
    eqn:G14;
    [right; run_step; rewrite keeps_backoff_shutdown; exact B1|].
  cbv zeta.
  destruct (millis env <? _) eqn:G15;
    [right; rewrite keeps_backoff_announceStatus; exact B1|].
  destruct (Statistics_getLastUpdate (deref env cur) <=? _) eqn:G16;
    [right; rewrite keeps_backoff_announceStatus; exact B1|].
  destruct (getLastPowerMeterUpdate env <=? _) eqn:G17;
    [right; rewrite keeps_backoff_announceStatus; exact B1|].
  run_step. run_step.
  change (_lastCalculation s1) with (_lastCalculation s).
  change (_calculationBackoffMs s1) with (_calculationBackoffMs s).
  destruct (millis env <? u32 (_lastCalculation s + _calculationBackoffMs s))
    eqn:G18;
    [right; rewrite keeps_backoff_announceStatus; exact B1|].
  left. exists cur.
  unfold calculationGuards, dispatchGuards. cbv zeta.
  rewrite G1, G2, G3, G4, G5, G6, G7, G8, G9, G10, G11, G12, G13, G14,
    G15, G16, G17, G18.
  rewrite Nat.eqb_refl. reflexivity.
Qed.

Lemma calculationGuards_dispatch env (s : PowerLimiterClass) cur :
  calculationGuards env s cur = true -> dispatchGuards env s cur = true.
Proof.
  unfold calculationGuards. cbv zeta. intros G.
  do 7 (apply andb_true_iff in G; destruct G as [G _]).
  exact G.
Qed.

(** one call of loop() and the backoff. *)
Lemma loop_backoff env d (s : PowerLimiterClass) :
  let s' := snd (loop env d s) in
  (forall cur, calculationGuards env s cur = true ->
     (committedLimit s s' /\ _calculationBackoffMs s' = d)
     \/ (limitRequests (sent s') = limitRequests (sent s)
         /\ _calculationBackoffMs s'
            = Z.min 1024 (u32 (_calculationBackoffMs s * 2))))
  /\ ((forall cur, calculationGuards env s cur = false) ->
        _calculationBackoffMs s' = _calculationBackoffMs s).
Proof.
  intros s'. split.
  - intros cur G. unfold s'. rewrite (loop_calculate env d s cur G).
    destruct (dispatchGuards_true env s cur
                (calculationGuards_dispatch env s cur G))
      as (_ & G2 & _ & _ & _ & _ & G7 & _ & G9 & G10 & _).
    exact (calculate_backoff env d cur (bound env cur s) eq_refl G2 G7 G9 G10).
  - intros Hn. destruct (loop_backoff_kept env d s) as [[cur G] | K].
    + rewrite Hn in G. discriminate G.
    + exact K.
Qed.

(** C4, counterexample. At night a calculation commits nothing and doubles
    the backoff to 256 ms; the mode is then set to the unconditional solar
    passthrough; in the morning the next call commits 365 W and the backoff
    is still 256 ms, not the default of 128 ms. *)
Lemma backoff_kept_by_unconditional_commit :
  let s := run 128 [Tick (sample_env_night 20000);
                    SetMode UnconditionalFullSolarPassthrough]
             sample_startup in
  let s' := snd (loop (sample_env_morning 22000) 128 s) in
  at_startup 128 sample_startup
  /\ _calculationBackoffMs s = 256
  /\ sent s = []
  /\ sent s'
     = [sendActivePowerControlRequest_AbsolutNonPersistent 0%nat 365;
        sendPowerControlRequest 0%nat true]
  /\ _calculationBackoffMs s' = 256
  /\ ~ backoffReset_as_stated.
Proof.
  intros s s'.
  assert (Hs : at_startup 128 sample_startup)
    by (repeat split; reflexivity).
  split; [exact Hs|]. split; [reflexivity|]. split; [reflexivity|].
  split; [reflexivity|]. split; [reflexivity|].
  intros H.
  specialize (H 128
                [Tick (sample_env_night 20000);
                 SetMode UnconditionalFullSolarPassthrough]
                sample_startup (sample_env_morning 22000)).
  assert (Hd : 0 <= 128 <= 1024) by lia.
  specialize (H Hd Hs). cbv zeta in H. fold s in H. fold s' in H.
  assert (Hc : committedLimit s s').
  { exists 0%nat, (inject_Z 365). vm_compute. reflexivity. }
  specialize (H Hc). vm_compute in H. discriminate H.
Qed.

(** C4, amended. With a default of at most 1024 ms, and starting at the
    default, the calculation backoff always lies within [default, 1024]:
    every call of loop() that runs the calculation of the normal mode
    (priority step 16) and commits no limit doubles the interval, capped at
    1024 ms; every such call that commits a limit resets it to the default;
    and every other call, also one that commits a limit in the mode
    UnconditionalFullSolarPassthrough or in a shutdown, leaves it as it is,
    as does a change of the mode. *)
Theorem calculationBackoff_spec (d : Z) :
  0 <= d <= 1024 ->
  (forall (events : list Event) (s0 : PowerLimiterClass),
     at_startup d s0 ->
     d <= _calculationBackoffMs (run d events s0) <= 1024)
  /\ (forall (env : Env) (s : PowerLimiterClass),
        d <= _calculationBackoffMs s <= 1024 ->
        let s' := snd (loop env d s) in
        (forall cur, calculationGuards env s cur = true ->
           (committedLimit s s' /\ _calculationBackoffMs s' = d)
           \/ (limitRequests (sent s') = limitRequests (sent s)
               /\ _calculationBackoffMs s'
                  = Z.min 1024 (2 * _calculationBackoffMs s)))
        /\ ((forall cur, calculationGuards env s cur = false) ->
              _calculationBackoffMs s' = _calculationBackoffMs s))
  /\ (forall (m : Mode) (s : PowerLimiterClass),
        _calculationBackoffMs (snd (setMode m s)) = _calculationBackoffMs s).
Proof.
  intros Hd.
  assert (Hu : forall b, d <= b <= 1024 -> u32 (b * 2) = 2 * b).
  { intros b Hb. rewrite u32_id; [lia|].
    unfold in_u32. change (2 ^ 32) with 4294967296. lia. }
  assert (Step : forall env s,
             d <= _calculationBackoffMs s <= 1024 ->
             d <= _calculationBackoffMs (snd (loop env d s)) <= 1024).
  { intros env s Hb.
    destruct (loop_backoff env d s) as [A _].
    destruct (loop_backoff_kept env d s) as [[cur G] | K].
    - destruct (A cur G) as [[_ E] | [_ E]]; rewrite E.
      + lia.
      + rewrite (Hu _ Hb). lia.
    - rewrite K. exact Hb. }
  split; [|split].
  - intros events s0 (_ & _ & Hb & _).
    assert (Hr : d <= _calculationBackoffMs s0 <= 1024) by lia.
    clear Hb. revert s0 Hr.
    induction events as [|[env | m] rest IH]; intros s0 Hr.
    + exact Hr.
    + cbn [run]. apply IH. apply Step. exact Hr.
    + cbn [run]. apply IH. exact Hr.
  - intros env s Hb s'.
    destruct (loop_backoff env d s) as [A B]. fold s' in A, B.
    split; [|exact B].
    intros cur G. rewrite <- (Hu _ Hb). exact (A cur G).
  - intros m s. reflexivity.
Qed.

Lemma calculationBackoff_spec_witness :
  0 <= 128 <= 1024
  /\ at_startup 128 sample_startup
  /\ 128 <= _calculationBackoffMs
              (run 128
                 [Tick (sample_env_night 20000); Tick (sample_env_night 21000);
                  SetMode UnconditionalFullSolarPassthrough;
                  Tick (sample_env_morning 22000)] sample_startup) <= 1024
  (* a calculation at night commits nothing: 128 ms become 256 ms *)
  /\ calculationGuards (sample_env_night 20000) sample_startup 0%nat = true
  /\ _calculationBackoffMs
       (snd (loop (sample_env_night 20000) 128 sample_startup)) = 256
  (* a calculation in the morning commits 365 W: back to 128 ms *)
  /\ calculationGuards (sample_env_morning 22000)
       (snd (loop (sample_env_night 20000) 128 sample_startup)) 0%nat = true
  /\ _calculationBackoffMs
       (snd (loop (sample_env_morning 22000) 128
               (snd (loop (sample_env_night 20000) 128 sample_startup))))
     = 128.
Proof.
  assert (Hd : 0 <= 128 <= 1024) by lia.
  assert (Hs : at_startup 128 sample_startup)
    by (repeat split; reflexivity).
  destruct (calculationBackoff_spec 128 Hd) as (I & T & _).
  split; [exact Hd|]. split; [exact Hs|].
  split; [exact (I _ sample_startup Hs)|].
  split; [reflexivity|].
  assert (H1 : 128 <= _calculationBackoffMs sample_startup <= 1024)
    by (simpl; lia).
  destruct (T (sample_env_night 20000) sample_startup H1) as [T1 _].
  assert (G1 : calculationGuards (sample_env_night 20000) sample_startup 0%nat
               = true) by reflexivity.
  split.
  - destruct (T1 0%nat G1) as [[(inv & limit & C) _] | [_ E]]; [|exact E].
    vm_compute in C. discriminate C.
  - split; reflexivity.
Defined.

(** * Further properties *)

(** ** Status texts *)


Lemma Status_eqb_eq (a b : Status) : Status_eqb a b = true -> a = b.
Proof. destruct a, b; intros H; try discriminate H; reflexivity. Qed.


(** ** Status announcements *)

(** announceStatus() as a function of the state. *)
Lemma announceStatus_eq env status (s : PowerLimiterClass) :
  announceStatus env status s
  = (tt,
     if Status_eqb (_lastStatus s) status
        && (millis env <? u32 (_lastStatusPrinted s + 10 * 1000))
     then s
     else if Status_eqb status DisabledByConfig
             && Status_eqb (_lastStatus s) status
     then s
     else set_lastStatusPrinted (millis env)
            (set_lastStatus status
               (set_MessageOutput (MessageOutput s ++ [LogStatus status])
                  s))).
Proof.
  unfold announceStatus, get. rewrite !run_bind. cbn [fst snd].
  destruct (_ && _); [reflexivity|].
  destruct (_ && _); reflexivity.
Qed.

Lemma Status_eqb_refl (a : Status) : Status_eqb a a = true.
Proof. destruct a; reflexivity. Qed.

(** once the status is the last one announced, further announcements of it
    are silent: always for DisabledByConfig, and otherwise while the clock
    is less than ten seconds past the last print. *)
Lemma announcements_silent (status : Status) (envs : list Env)
    (s : PowerLimiterClass) :
  _lastStatus s = status ->
  status = DisabledByConfig
  \/ (0 <= _lastStatusPrinted s
      /\ _lastStatusPrinted s + 10000 < 2 ^ 32
      /\ Forall (fun env => millis env < _lastStatusPrinted s + 10000) envs) ->
  announcements status envs s = s.
Proof.
  intros Hs Hc. induction envs as [|env rest IH]; [reflexivity|].
  cbn [announcements]. rewrite announceStatus_eq. cbn [snd].
  rewrite Hs, Status_eqb_refl. cbn [andb].
  assert (E : (if millis env <? u32 (_lastStatusPrinted s + 10 * 1000)
               then s
               else if Status_eqb status DisabledByConfig && true then s
               else set_lastStatusPrinted (millis env)
                      (set_lastStatus status
                         (set_MessageOutput
                            (MessageOutput s ++ [LogStatus status]) s)))
              = s).
  { destruct Hc as [Hc | (H0 & Hw & Hall)].
    - rewrite Hc. cbn [Status_eqb andb].
      destruct (millis env <? _); reflexivity.
    - inversion Hall as [|e l He Hl]; subst.
      rewrite u32_id by (unfold in_u32; lia).
      replace (millis env <? _lastStatusPrinted s + 10 * 1000) with true
        by (symmetry; apply Z.ltb_lt; lia).
      reflexivity. }
  rewrite E. apply IH.
  destruct Hc as [Hc | (H0 & Hw & Hall)]; [left; exact Hc|].
  right. split; [exact H0|]. split; [exact Hw|].
  inversion Hall; assumption.
Qed.

(** X2. announceStatus() called again and again with one status prints at
    most one line while the clock stays within a window of less than ten
    seconds, and at most one line ever for DisabledByConfig; a status other
    than the last one announced is printed at once. *)
Theorem announceStatus_rate_limit (status : Status) (envs : list Env)
    (s : PowerLimiterClass) :
  let s' := announcements status envs s in
  (status = DisabledByConfig
   \/ (exists t0,
         0 <= t0 /\ t0 + 20000 <= 2 ^ 32
         /\ Forall (fun env => t0 <= millis env < t0 + 10000) envs) ->
   MessageOutput s' = MessageOutput s
   \/ MessageOutput s' = MessageOutput s ++ [LogStatus status])
  /\ (forall env,
        _lastStatus s <> status ->
        MessageOutput (snd (announceStatus env status s))
        = MessageOutput s ++ [LogStatus status]).
Proof.
  cbv zeta. split.
  - intros Hc. revert s.
    induction envs as [|env rest IH]; intros s; [left; reflexivity|].
    assert (Hrest : status = DisabledByConfig
                    \/ (exists t0,
                          0 <= t0 /\ t0 + 20000 <= 2 ^ 32
                          /\ Forall (fun env => t0 <= millis env < t0 + 10000)
                               rest)).
    { destruct Hc as [Hc | (t0 & H0 & Hw & Hall)]; [left; exact Hc|].
      right. exists t0. split; [exact H0|]. split; [exact Hw|].
      inversion Hall; assumption. }
    cbn [announcements]. rewrite announceStatus_eq. cbn [snd].
    destruct (_ && _); [apply IH; exact Hrest|].
    destruct (_ && _); [apply IH; exact Hrest|].
    right. rewrite announcements_silent; [reflexivity|reflexivity|].
    destruct Hc as [Hc | (t0 & H0 & Hw & Hall)]; [left; exact Hc|].
    right. cbn.
    inversion Hall as [|e l He Hl]; subst.
    split; [lia|]. split; [lia|].
    eapply Forall_impl; [|exact Hl]. cbn. intros a Ha. lia.
  - intros env Hne. rewrite announceStatus_eq. cbn [snd].
    destruct (Status_eqb (_lastStatus s) status) eqn:E.
    + exfalso. apply Hne. apply Status_eqb_eq. exact E.
    + cbn [andb]. rewrite andb_false_r. reflexivity.
Qed.

Lemma announceStatus_rate_limit_witness :
  (* three announcements of Settling within four seconds print one line *)
  let envs := [sample_env_at 20000; sample_env_at 22000;
               sample_env_at 24000] in
  (exists t0,
     0 <= t0 /\ t0 + 20000 <= 2 ^ 32
     /\ Forall (fun env => t0 <= millis env < t0 + 10000) envs)
  /\ MessageOutput (announcements Settling envs sample_bound)
     = [LogStatus Settling]
  /\ _lastStatus sample_bound <> Settling.
Proof.
  intros envs.
  assert (W : exists t0,
                0 <= t0 /\ t0 + 20000 <= 2 ^ 32
                /\ Forall (fun env => t0 <= millis env < t0 + 10000) envs).
  { exists 20000. split; [lia|]. split; [vm_compute; discriminate|].
    repeat constructor; cbn; lia. }
  split; [exact W|].
  destruct (announceStatus_rate_limit Settling envs sample_bound) as [A _].
  split.
  - destruct (A (or_intror W)) as [E | E]; [|exact E].
    vm_compute in E. discriminate E.
  - discriminate.
Defined.

(** ** Shutdown *)

(** shutdown(): its report, the commands it hands out and the binding it
    leaves. *)
Lemma shutdown_run env status (s : PowerLimiterClass) :
  let r := fst (shutdown env status s) in
  let s' := snd (shutdown env status s) in
  sent s'
  = sent s
    ++ match _inverter s with
       | Some inv =>
         if isProducing (deref env inv) && negb (deadlinePassed env s)
            && commandable env inv
         then shutdownCommands env inv else []
       | None => []
       end
  /\ r = match _inverter s with
         | Some inv =>
           isProducing (deref env inv) && negb (deadlinePassed env s)
         | None => false
         end
  /\ _inverter s' = (if r then _inverter s else None).
Proof.
  cbv zeta. rewrite shutdown_eq. cbv zeta.
  assert (KI : _inverter (snd (announceStatus env status s)) = _inverter s)
    by (apply keeps_announceStatus; ignores_tac).
  assert (KT : _shutdownTimeout (snd (announceStatus env status s))
               = _shutdownTimeout s)
    by (apply keeps_announceStatus; ignores_tac).
  assert (KS : sent (snd (announceStatus env status s)) = sent s)
    by (apply keeps_announceStatus; ignores_tac).
  set (s1 := snd (announceStatus env status s)) in *.
  unfold deadlinePassed, commandable. rewrite KI, KT.
  destruct (_inverter s) as [inv|];
    [|cbn; rewrite KS, app_nil_r; repeat split; reflexivity].
  destruct (isProducing (deref env inv)) eqn:Hp; cbn [negb orb andb];
    [|cbn; rewrite KS, app_nil_r; repeat split; reflexivity].
  destruct ((0 <? _shutdownTimeout s) && (_shutdownTimeout s <? millis env));
    cbn [negb];
    [cbn; rewrite KS, app_nil_r; repeat split; reflexivity|].
  destruct (isReachable (deref env inv)); cbn [negb andb];
    [|cbn; rewrite KS, app_nil_r; repeat split; (reflexivity || exact KI)].
  set (s2 := if _shutdownTimeout s =? 0 then _ else s1).
  assert (K2 : sent s2 = sent s /\ _inverter s2 = Some inv).
  { unfold s2. destruct (_shutdownTimeout s =? 0); split; assumption. }
  destruct K2 as [K2S K2I]. clearbody s2.
  destruct (is_pending (getLastLimitCommandSuccess (deref env inv)));
    cbn [negb andb];
    [cbn; rewrite K2S, app_nil_r; repeat split; (reflexivity || exact K2I)|].
  destruct (is_pending (getLastPowerCommandSuccess (deref env inv)));
    cbn [negb andb];
    [cbn; rewrite K2S, app_nil_r; repeat split; (reflexivity || exact K2I)|].
  cbn [fst snd]. rewrite keeps_inverter_commitPowerLimit.
  split; [|split; [reflexivity|exact K2I]].
  unfold commitPowerLimit, shutdownCommands, send, println, modify, bind, ret.
  rewrite Hp. cbn. rewrite K2S, <- app_assoc. reflexivity.
Qed.

(** X3. shutdown() hands the bound inverter either nothing or exactly a
    stop followed by the configured lower power limit, the latter exactly
    when the inverter is producing, the shutdown deadline has not passed,
    the inverter is in reach and no command is pending; it never starts or
    restarts an inverter. It reports true exactly when an inverter is bound
    and producing and the deadline has not passed; then it keeps the
    binding, and otherwise it clears it. *)
Theorem shutdown_commands (env : Env) (status : Status)
    (s : PowerLimiterClass) :
  let r := fst (shutdown env status s) in
  let s' := snd (shutdown env status s) in
  sent s'
  = sent s
    ++ match _inverter s with
       | Some inv =>
         if isProducing (deref env inv) && negb (deadlinePassed env s)
            && commandable env inv
         then [ sendPowerControlRequest inv false;
                sendActivePowerControlRequest_AbsolutNonPersistent inv
                  (inject_Z (PowerLimiter_LowerPowerLimit (config env))) ]
         else []
       | None => []
       end
  /\ (r = true
      <-> exists inv,
            _inverter s = Some inv /\ isProducing (deref env inv) = true
            /\ deadlinePassed env s = false)
  /\ (r = true -> _inverter s' = _inverter s)
  /\ (r = false -> _inverter s' = None).
Proof.
  cbv zeta.
  destruct (shutdown_run env status s) as (S & R & I). cbv zeta in S, R, I.
  split; [exact S|].
  split; [|split].
  - rewrite R. destruct (_inverter s) as [inv|].
    + rewrite andb_true_iff, negb_true_iff. split.
      * intros [H1 H2]. exists inv. repeat split; assumption.
      * intros (inv' & E & H1 & H2). injection E as <-. split; assumption.
    + split; [discriminate|]. intros (inv' & E & _). discriminate E.
  - intros E. rewrite I, E. reflexivity.
  - intros E. rewrite I, E. reflexivity.
Qed.

Lemma shutdown_commands_witness :
  (* producing, in reach, nothing pending: stopped and limited to 10 W *)
  fst (shutdown sample_env DisabledByConfig sample_bound) = true
  /\ sent (snd (shutdown sample_env DisabledByConfig sample_bound))
     = [ sendPowerControlRequest 0%nat false;
         sendActivePowerControlRequest_AbsolutNonPersistent 0%nat 10 ]
  /\ _inverter (snd (shutdown sample_env DisabledByConfig sample_bound))
     = Some 0%nat
  (* not producing: nothing sent, the binding is cleared *)
  /\ fst (shutdown (sample_env_night 20000) DisabledByConfig sample_bound)
     = false
  /\ _inverter
       (snd (shutdown (sample_env_night 20000) DisabledByConfig sample_bound))
     = None.
Proof.
  destruct (shutdown_commands sample_env DisabledByConfig sample_bound)
    as (S & _ & K & _).
  destruct (shutdown_commands (sample_env_night 20000) DisabledByConfig
              sample_bound) as (_ & _ & _ & C).
  split; [reflexivity|]. split; [exact S|].
  split; [exact (K eq_refl)|]. split; [reflexivity|]. exact (C eq_refl).
Defined.

(** ** DC to AC conversion *)

Lemma Qtrunc_nonneg (q : Q) : (0 <= q)%Q -> Qtrunc q = Qfloor q.
Proof.
  destruct q as [n d]. unfold Qle, Qtrunc, Qfloor. cbn. intros H.
  apply Z.quot_div_nonneg; lia.
Qed.

Lemma Qtrunc_nonpos (q : Q) : (q <= 0)%Q -> Qtrunc q = Qceiling q.
Proof.
  destruct q as [n d]. unfold Qle, Qtrunc, Qceiling, Qfloor. cbn. intros H.
  replace n with (- (- n)) at 1 by lia.
  rewrite Z.quot_opp_l by lia.
  rewrite Z.quot_div_nonneg by lia. reflexivity.
Qed.

Lemma Qtrunc_le (q q' : Q) : (q <= q')%Q -> Qtrunc q <= Qtrunc q'.
Proof.
  intros H.
  destruct (Qlt_le_dec q 0) as [Hq | Hq];
    destruct (Qlt_le_dec q' 0) as [Hq' | Hq'].
  - rewrite !Qtrunc_nonpos by lra. apply Qceiling_resp_le. exact H.
  - rewrite (Qtrunc_nonpos q) by lra. rewrite (Qtrunc_nonneg q') by lra.
    transitivity 0.
    + change 0 with (Qceiling 0). apply Qceiling_resp_le. lra.
    + change 0 with (Qfloor 0). apply Qfloor_resp_le. lra.
  - lra.
  - rewrite !Qtrunc_nonneg by lra. apply Qfloor_resp_le. exact H.
Qed.

Lemma Qtrunc_inject_Z (z : Z) : Qtrunc (inject_Z z) = z.
Proof. unfold Qtrunc. cbn. apply Z.quot_1_r. Qed.

Lemma inject_Z_le (a b : Z) : a <= b -> (inject_Z a <= inject_Z b)%Q.
Proof. intros H. rewrite <- Zle_Qle. exact H. Qed.

(** the two factors of inverterPowerDcToAc() lie between 0 and 1. *)
Lemma inverterPowerDcToAc_factors env inverter :
  percentages env inverter ->
  exists f l : Q,
    (0 <= f <= 1)%Q /\ (0 <= l <= 1)%Q
    /\ forall dcPower,
         inverterPowerDcToAc env inverter dcPower
         = i32 (Qtrunc (inject_Z dcPower * f * l)%Q).
Proof.
  intros [He Hl]. unfold inverterPowerDcToAc. cbv zeta.
  set (e := getChannelFieldValue (deref env inverter) TYPE_AC CH0 FLD_EFF)
    in *.
  set (p := PowerLimiter_SolarPassThroughLosses (config env)) in *.
  exists (if Qlt_bool 0 e then (e / 100)%Q else (967 # 1000)%Q),
         (1 - inject_Z p / 100)%Q.
  split; [|split; [|reflexivity]].
  - destruct (Qlt_bool 0 e) eqn:E.
    + apply Qlt_bool_iff in E.
      split.
      * apply Qle_shift_div_l; lra.
      * apply Qle_shift_div_r; lra.
    + split; [discriminate|]. unfold Qle. cbn. lia.
  - assert (H0 : (0 <= inject_Z p)%Q)
      by (change 0%Q with (inject_Z 0); apply inject_Z_le; lia).
    assert (H1 : (inject_Z p <= 100)%Q)
      by (change 100%Q with (inject_Z 100); apply inject_Z_le; lia).
    assert (D : (0 <= inject_Z p / 100 <= 1)%Q).
    { split.
      - apply Qle_shift_div_l; lra.
      - apply Qle_shift_div_r; lra. }
    lra.
Qed.

Lemma scaled_nonneg (z f l : Q) :
  (0 <= f <= 1)%Q -> (0 <= l <= 1)%Q -> (0 <= z)%Q ->
  (0 <= z * f * l <= z)%Q.
Proof.
  intros Hf Hl Hz.
  assert (H1 : (0 <= z * f <= z)%Q) by (split; nra).
  set (y := (z * f)%Q) in *. clearbody y.
  split; nra.
Qed.

Lemma scaled_nonpos (z f l : Q) :
  (0 <= f <= 1)%Q -> (0 <= l <= 1)%Q -> (z <= 0)%Q ->
  (z <= z * f * l <= 0)%Q.
Proof.
  intros Hf Hl Hz.
  assert (H1 : (z <= z * f <= 0)%Q) by (split; nra).
  set (y := (z * f)%Q) in *. clearbody y.
  split; nra.
Qed.

Lemma scaled_le (z z' f l : Q) :
  (0 <= f)%Q -> (0 <= l)%Q -> (z <= z')%Q -> (z * f * l <= z' * f * l)%Q.
Proof.
  intros Hf Hl Hz.
  assert (H1 : (z * f <= z' * f)%Q) by nra.
  set (y := (z * f)%Q) in *. set (y' := (z' * f)%Q) in *.
  clearbody y y'. nra.
Qed.

(** the truncated product lies between 0 and the DC power. *)
Lemma Qtrunc_scaled (dcPower : Z) (f l : Q) :
  (0 <= f <= 1)%Q -> (0 <= l <= 1)%Q ->
  let ac := Qtrunc (inject_Z dcPower * f * l)%Q in
  (0 <= dcPower -> 0 <= ac <= dcPower)
  /\ (dcPower <= 0 -> dcPower <= ac <= 0).
Proof.
  intros Hf Hl ac. unfold ac. split; intros Hd.
  - assert (Hq : (0 <= inject_Z dcPower)%Q)
      by (change 0%Q with (inject_Z 0); apply inject_Z_le; exact Hd).
    destruct (scaled_nonneg _ f l Hf Hl Hq) as [A B].
    split.
    + change 0 with (Qtrunc 0). apply Qtrunc_le. exact A.
    + rewrite <- (Qtrunc_inject_Z dcPower) at 2. apply Qtrunc_le. exact B.
  - assert (Hq : (inject_Z dcPower <= 0)%Q)
      by (change 0%Q with (inject_Z 0); apply inject_Z_le; exact Hd).
    destruct (scaled_nonpos _ f l Hf Hl Hq) as [A B].
    split.
    + rewrite <- (Qtrunc_inject_Z dcPower) at 1. apply Qtrunc_le. exact A.
    + change 0 with (Qtrunc 0). apply Qtrunc_le. exact B.
Qed.

Lemma Qtrunc_scaled_i32 (dcPower : Z) (f l : Q) :
  (0 <= f <= 1)%Q -> (0 <= l <= 1)%Q -> in_i32 dcPower ->
  i32 (Qtrunc (inject_Z dcPower * f * l)%Q)
  = Qtrunc (inject_Z dcPower * f * l)%Q.
Proof.
  intros Hf Hl Hin. apply i32_id.
  destruct (Qtrunc_scaled dcPower f l Hf Hl) as [A B]. cbv zeta in A, B.
  unfold in_i32 in *.
  destruct (Z.le_ge_cases 0 dcPower) as [H | H].
  - specialize (A H). lia.
  - specialize (B H). lia.
Qed.


Lemma sample_percentages : percentages sample_env 0%nat.
Proof. split; [unfold Qle; cbn; lia | cbn; lia]. Qed.


(** X5. With an efficiency of at most 100 % and losses between 0 % and
    100 %, inverterPowerDcToAc() is monotone: more DC power never gives
    less AC power. *)
Theorem inverterPowerDcToAc_monotone (env : Env) (inverter : InverterRef)
    (dcPower dcPower' : Z) :
  percentages env inverter -> in_i32 dcPower -> in_i32 dcPower' ->
  dcPower <= dcPower' ->
  inverterPowerDcToAc env inverter dcPower
  <= inverterPowerDcToAc env inverter dcPower'.
Proof.
  intros Hp Hin Hin' Hle.
  destruct (inverterPowerDcToAc_factors env inverter Hp)
    as (f & l & Hf & Hl & E).
  rewrite !E.
  rewrite (Qtrunc_scaled_i32 dcPower f l Hf Hl Hin).
  rewrite (Qtrunc_scaled_i32 dcPower' f l Hf Hl Hin').
  apply Qtrunc_le. apply scaled_le; [apply Hf | apply Hl |].
  apply inject_Z_le. exact Hle.
Qed.

Lemma inverterPowerDcToAc_monotone_witness :
  percentages sample_env 0%nat /\ in_i32 260 /\ in_i32 390 /\ 260 <= 390
  /\ inverterPowerDcToAc sample_env 0%nat 260
     <= inverterPowerDcToAc sample_env 0%nat 390.
Proof.
  assert (H1 : in_i32 260) by (unfold in_i32; lia).
  assert (H2 : in_i32 390) by (unfold in_i32; lia).
  assert (H3 : 260 <= 390) by lia.
  split; [exact sample_percentages|]. split; [exact H1|].
  split; [exact H2|]. split; [exact H3|].
  exact (inverterPowerDcToAc_monotone sample_env 0%nat 260 390
           sample_percentages H1 H2 H3).
Defined.

(** ** Thresholds *)

(** the value of testThreshold(). *)
Lemma testThreshold_fst env soc volt compare (s : PowerLimiterClass) :
  fst (testThreshold env soc volt compare s)
  = if Battery_Enabled (config env) && Qlt_bool 0 soc && isValid env
       && (getSoCAgeSeconds env <? 60)
    then compare (inject_Z (getSoC env)) soc
    else if Qle_bool volt 0 then false
    else compare (fst (getLoadCorrectedVoltage env s)) volt.
Proof.
  unfold testThreshold.
  destruct (_ && _ && _ && _); [reflexivity|].
  destruct (Qle_bool volt 0); [reflexivity|].
  rewrite run_bind. reflexivity.
Qed.

Lemma cmp_lt_le (a b : Q) : cmp_lt a b = true -> cmp_le a b = true.
Proof.
  unfold cmp_lt, cmp_le. intros H. apply Qlt_bool_iff in H.
  apply Qle_bool_iff. lra.
Qed.

(** X6. Whenever isBelowStopThreshold() holds, isStopThresholdReached()
    holds as well: both look at the same reading and the same threshold,
    the one with [<] and the other with [<=]. *)
Theorem isBelowStopThreshold_reached (env : Env) (s : PowerLimiterClass) :
  fst (isBelowStopThreshold env s) = true ->
  fst (isStopThresholdReached env s) = true.
Proof.
  unfold isBelowStopThreshold, isStopThresholdReached.
  rewrite !testThreshold_fst.
  destruct (_ && _ && _ && _); [apply cmp_lt_le|].
  destruct (Qle_bool _ 0); [trivial|apply cmp_lt_le].
Qed.

Lemma isBelowStopThreshold_reached_witness :
  fst (isBelowStopThreshold (sample_env_with sample_config 20000 10
                               sample_inverter 10 260 15 false)
         sample_bound) = true
  /\ fst (isStopThresholdReached (sample_env_with sample_config 20000 10
                                    sample_inverter 10 260 15 false)
            sample_bound) = true.
Proof.
  split; [reflexivity|].
  exact (isBelowStopThreshold_reached
           (sample_env_with sample_config 20000 10 sample_inverter 10 260 15
              false) sample_bound eq_refl).
Defined.

Lemma Qlt_bool_inject_Z (z : Z) : Qlt_bool 0 (inject_Z z) = (0 <? z).
Proof.
  destruct (Z.ltb_spec 0 z) as [H | H].
  - apply Qlt_bool_iff. change 0%Q with (inject_Z 0).
    rewrite <- Zlt_Qlt. exact H.
  - unfold Qlt_bool. apply negb_false_iff. apply Qle_bool_iff.
    change 0%Q with (inject_Z 0). apply inject_Z_le. exact H.
Qed.

(** X7. With the stop thresholds below the start thresholds, and the state
    of charge configured for both thresholds or for none, the start and the
    stop threshold are never reached at once. *)
Theorem start_stop_exclusive (env : Env) (s : PowerLimiterClass) :
  thresholdsOrdered (config env) ->
  fst (isStartThresholdReached env s) = true ->
  fst (isStopThresholdReached env s) = false.
Proof.
  intros [Hsoc Hvolt].
  unfold isStartThresholdReached, isStopThresholdReached.
  rewrite !testThreshold_fst, !Qlt_bool_inject_Z.
  set (start := PowerLimiter_BatterySocStartThreshold (config env)) in *.
  set (stop := PowerLimiter_BatterySocStopThreshold (config env)) in *.
  set (vstart := PowerLimiter_VoltageStartThreshold (config env)) in *.
  set (vstop := PowerLimiter_VoltageStopThreshold (config env)) in *.
  assert (E : (0 <? start) = (0 <? stop)).
  { destruct (Z.ltb_spec 0 start), (Z.ltb_spec 0 stop); try reflexivity; lia. }
  rewrite E.
  destruct (Battery_Enabled (config env) && (0 <? stop) && isValid env
            && (getSoCAgeSeconds env <? 60)) eqn:C.
  - unfold cmp_ge, cmp_le. intros H. apply Qle_bool_iff in H.
    rewrite <- Zle_Qle in H.
    destruct (Qle_bool (inject_Z (getSoC env)) (inject_Z stop)) eqn:F;
      [|reflexivity].
    apply Qle_bool_iff in F. rewrite <- Zle_Qle in F.
    assert (P : 0 < stop).
    { apply Z.ltb_lt.
      destruct (0 <? stop); [reflexivity|].
      rewrite andb_false_r in C. discriminate C. }
    lia.
  - destruct (Qle_bool vstart 0) eqn:V1; [discriminate|].
    destruct (Qle_bool vstop 0) eqn:V2; [reflexivity|].
    unfold cmp_ge, cmp_le. intros H. apply Qle_bool_iff in H.
    apply Qle_bool_false_iff. lra.
Qed.

Lemma start_stop_exclusive_witness :
  thresholdsOrdered (config sample_env_full)
  /\ fst (isStartThresholdReached sample_env_full sample_bound) = true
  /\ fst (isStopThresholdReached sample_env_full sample_bound) = false.
Proof.
  assert (H : thresholdsOrdered (config sample_env_full)).
  { split; [left; cbn; lia|]. unfold Qlt. cbn. lia. }
  split; [exact H|]. split; [reflexivity|].
  exact (start_stop_exclusive sample_env_full sample_bound H eq_refl).
Defined.

(** ** Battery charging cycle *)

Lemma logs_discharge {A} (m : M A) (s : PowerLimiterClass) :
  logs m -> _batteryDischargeEnabled (snd (m s)) = _batteryDischargeEnabled s.
Proof. intros H. destruct (H s) as [l ->]. reflexivity. Qed.

(** the value of canUseDirectSolarPower() depends on the object through
    the bound inverter only. *)
Lemma canUseDirectSolarPower_value env (s s' : PowerLimiterClass) :
  _inverter s = _inverter s' ->
  fst (canUseDirectSolarPower env s) = fst (canUseDirectSolarPower env s').
Proof.
  intros H. unfold canUseDirectSolarPower.
  destruct (negb _); [reflexivity|].
  rewrite !run_bind. unfold isBelowStopThreshold.
  rewrite (testThreshold_value env _ _ cmp_lt s s' H).
  destruct (_ || _ || _); reflexivity.
Qed.

Ltac same_inverter :=
  repeat first
    [ reflexivity
    | rewrite logs_inverter by auto with plogs
    | progress cbn [_inverter set_batteryDischargeEnabled snd modify] ].

Ltac same_discharge :=
  repeat first
    [ reflexivity
    | rewrite logs_discharge by auto with plogs
    | progress cbn [_batteryDischargeEnabled set_batteryDischargeEnabled
                      snd modify] ].

(** the flag after the charging cycle conditions. *)
Lemma updateBatteryDischargeEnabled_flag env (s : PowerLimiterClass) :
  _batteryDischargeEnabled (snd (updateBatteryDischargeEnabled env s))
  = dischargeAfterCycle env s.
Proof.
  unfold updateBatteryDischargeEnabled, dischargeAfterCycle. cbv zeta.
  set (start := fst (isStartThresholdReached env s)).
  set (usable := fst (canUseDirectSolarPower env s)).
  assert (VS : forall x, _inverter x = _inverter s ->
                 fst (isStartThresholdReached env x) = start).
  { intros x Hx. apply testThreshold_value. exact Hx. }
  assert (VU : forall x, _inverter x = _inverter s ->
                 fst (canUseDirectSolarPower env x) = usable).
  { intros x Hx. apply canUseDirectSolarPower_value. exact Hx. }
  clearbody start usable.
  rewrite run_bind.
  destruct (fst (isStopThresholdReached env s)); [reflexivity|].
  destruct (PowerLimiter_SolarPassThroughEnabled (config env));
    destruct (PowerLimiter_BatteryDrainStategy (config env));
    destruct start; destruct usable;
    repeat first
      [ rewrite run_bind
      | match goal with
        | |- context [fst (isStartThresholdReached env ?x)] =>
          rewrite (VS x) by same_inverter
        | |- context [fst (canUseDirectSolarPower env ?x)] =>
          rewrite (VU x) by same_inverter
        end
      | progress cbn [ret fst snd modify andb orb negb DrainStrategy_eqb] ];
    same_discharge.
Qed.

Lemma cycles_logs {A} (m : M A) : logs m -> cycles m.
Proof.
  intros H s. destruct (H s) as [l Hl].
  exists (_batteryDischargeEnabled s), l. rewrite Hl.
  destruct s. reflexivity.
Qed.

Lemma cycles_modify (b : bool) : cycles (modify (set_batteryDischargeEnabled b)).
Proof.
  intros s. exists b, []. destruct s. cbn.
  unfold set_MessageOutput, set_batteryDischargeEnabled. cbn.
  rewrite app_nil_r. reflexivity.
Qed.

Lemma cycles_bind {A B} (m : M A) (k : A -> M B) :
  cycles m -> (forall a, cycles (k a)) -> cycles (bind m k).
Proof.
  intros Hm Hk s. rewrite run_bind.
  destruct (Hm s) as (b & l & E).
  destruct (Hk (fst (m s)) (snd (m s))) as (b' & l' & E').
  exists b', (l ++ l'). rewrite E', E.
  unfold set_MessageOutput, set_batteryDischargeEnabled. cbn.
  rewrite app_assoc. reflexivity.
Qed.

Ltac cycles_step :=
  first
    [ apply cycles_logs; solve [auto with plogs]
    | apply cycles_modify
    | match goal with
      | |- cycles (bind _ _) => apply cycles_bind; [|intros ?]
      | |- cycles (if ?c then _ else _) => destruct c
      end ].

Lemma cycles_updateBatteryDischargeEnabled env :
  cycles (updateBatteryDischargeEnabled env).
Proof. unfold updateBatteryDischargeEnabled. repeat cycles_step. Qed.

(** X8. The battery charging cycle conditions of loop() change nothing but
    the battery discharge flag (and print). They leave it false when the
    stop threshold is reached; otherwise true when the start threshold is
    reached; otherwise, with solar passthrough enabled and the strategy
    EMPTY_AT_NIGHT, true exactly when direct solar power cannot be used;
    and otherwise as it was. *)
Theorem updateBatteryDischargeEnabled_cycle (env : Env)
    (s : PowerLimiterClass) :
  let stop := fst (isStopThresholdReached env s) in
  let start := fst (isStartThresholdReached env s) in
  let usable := fst (canUseDirectSolarPower env s) in
  let discharge :=
    if stop then false
    else if start then true
    else if PowerLimiter_SolarPassThroughEnabled (config env)
    then match PowerLimiter_BatteryDrainStategy (config env) with
         | EMPTY_AT_NIGHT => negb usable
         | EMPTY_WHEN_FULL => _batteryDischargeEnabled s
         end
    else _batteryDischargeEnabled s in
  exists l,
    snd (updateBatteryDischargeEnabled env s)
    = set_MessageOutput (MessageOutput s ++ l)
        (set_batteryDischargeEnabled discharge s).
Proof.
  cbv zeta.
  destruct (cycles_updateBatteryDischargeEnabled env s) as (b & l & E).
  exists l. rewrite E. f_equal. f_equal.
  assert (F : _batteryDischargeEnabled
                (snd (updateBatteryDischargeEnabled env s)) = b)
    by (rewrite E; reflexivity).
  rewrite updateBatteryDischargeEnabled_flag in F. rewrite <- F.
  unfold dischargeAfterCycle. cbv zeta.
  destruct (fst (isStopThresholdReached env s)); [reflexivity|].
  destruct (fst (isStartThresholdReached env s));
    destruct (PowerLimiter_SolarPassThroughEnabled (config env));
    destruct (PowerLimiter_BatteryDrainStategy (config env));
    reflexivity.
Qed.

(** ** Power limit calculator *)

(** the value of calcPowerLimit(), case by case. *)
Lemma calcPowerLimit_cases env inverter (solarPowerEnabled
    batteryDischargeEnabled : bool) (s : PowerLimiterClass) :
  fst (calcPowerLimit env inverter solarPowerEnabled
         batteryDischargeEnabled s)
  = if batteryDischargeEnabled
    then if fst (useFullSolarPassthrough env s)
         then Z.max (rawPowerLimit env inverter) (solarAcPower env inverter s)
         else if getAutoPowerStatus env then 0
              else rawPowerLimit env inverter
    else if solarPowerEnabled
         then if getAutoPowerStatus env then 0
              else Z.min (rawPowerLimit env inverter)
                     (solarAcPower env inverter s)
         else 0.
Proof.
  unfold calcPowerLimit.
  fold (rawPowerLimit env inverter).
  destruct solarPowerEnabled, batteryDischargeEnabled; cbn [negb andb].
  all: try reflexivity.
  all: rewrite run_bind; fold (solarAcPower env inverter s).
  all: rewrite run_bind.
  all: try (rewrite (useFullSolarPassthrough_value env
                       (snd (getSolarChargePower env s)) s)
              by (first [apply logs_inverter | apply logs_latch];
                  apply logs_getSolarChargePower)).
  all: cbn [ret fst snd].
  all: try rewrite gtb_max.
  all: destruct (getAutoPowerStatus env);
       try destruct (fst (useFullSolarPassthrough env s));
       try reflexivity.
  all: unfold verbose, get; rewrite !run_bind;
       destruct (_verboseLogging _); reflexivity.
Qed.

(** X9. While the battery must not be discharged, calcPowerLimit() never
    asks for more than the AC equivalent of the solar charge power (and for
    nothing if that is negative); with discharge enabled and the full solar
    passthrough active it never asks for less than that. *)
Theorem calcPowerLimit_solar_bounds (env : Env) (inverter : InverterRef)
    (solarPowerEnabled : bool) (s : PowerLimiterClass) :
  let solarAC := solarAcPower env inverter s in
  fst (calcPowerLimit env inverter solarPowerEnabled false s)
  <= Z.max 0 solarAC
  /\ (fst (useFullSolarPassthrough env s) = true ->
      solarAC <= fst (calcPowerLimit env inverter solarPowerEnabled true s)).
Proof.
  cbv zeta. rewrite !calcPowerLimit_cases. split.
  - destruct solarPowerEnabled; [|lia].
    destruct (getAutoPowerStatus env); lia.
  - intros H. rewrite H. lia.
Qed.

Lemma calcPowerLimit_solar_bounds_witness :
  solarAcPower sample_env 0%nat sample_bound = 239
  /\ fst (calcPowerLimit sample_env 0%nat true false sample_bound) <= 239
  /\ fst (useFullSolarPassthrough sample_env_full sample_bound) = true
  /\ solarAcPower sample_env_full 0%nat sample_bound
     <= fst (calcPowerLimit sample_env_full 0%nat true true sample_bound).
Proof.
  destruct (calcPowerLimit_solar_bounds sample_env 0%nat true sample_bound)
    as [A _].
  destruct (calcPowerLimit_solar_bounds sample_env_full 0%nat true
              sample_bound) as [_ B].
  split; [reflexivity|]. split; [exact A|].
  split; [reflexivity|]. exact (B eq_refl).
Defined.

(** ** Limit committer *)

Lemma Qfloor_half (z : Z) : Qfloor (inject_Z z + (1 # 2)) = z.
Proof.
  unfold Qfloor, Qplus, inject_Z. cbn.
  symmetry. apply (Z.div_unique _ 2 z 1); lia.
Qed.

(** round() of a value between two non-negative integers lies between
    them. *)
Lemma round_between (a b : Z) (q : Q) :
  0 <= a -> (inject_Z a <= q)%Q -> (q <= inject_Z b)%Q ->
  a <= round q <= b.
Proof.
  intros Ha Hl Hu.
  assert (H0 : (0 <= q)%Q).
  { apply Qle_trans with (inject_Z a); [|exact Hl].
    change 0%Q with (inject_Z 0). apply inject_Z_le. exact Ha. }
  unfold round. apply Qle_bool_iff in H0. rewrite H0.
  split.
  - rewrite <- (Qfloor_half a) at 1. apply Qfloor_resp_le. lra.
  - rewrite <- (Qfloor_half b) at 1. apply Qfloor_resp_le. lra.
Qed.

(** with ordered limits the effective limit of a request at or above the
    lower power limit lies between the lower power limit and the maximum
    power of the inverter. *)
Lemma effPowerLimit_range env inverter requested :
  limitsOrdered env inverter ->
  PowerLimiter_LowerPowerLimit (config env) <= requested ->
  PowerLimiter_LowerPowerLimit (config env)
  <= effPowerLimit env inverter requested
  <= getMaxPower (deref env inverter).
Proof.
  intros (H0 & Hlu & Hlm & Hfit) Hreq.
  unfold effPowerLimit. cbv zeta.
  pose proof (countProducing_le (deref env inverter)
                (getChannelsByType_DC (deref env inverter))) as Hp.
  set (p := countProducing _ _) in *.
  set (t := Z.of_nat _) in *.
  set (lower := PowerLimiter_LowerPowerLimit (config env)) in *.
  set (upper := PowerLimiter_UpperPowerLimit (config env)) in *.
  set (m := Z.min requested upper).
  assert (Hm : lower <= m <= upper) by (unfold m; lia).
  destruct ((0 <? p) && negb (p =? t)) eqn:E; [|lia].
  apply andb_true_iff in E. destruct E as [E1 E2].
  apply Z.ltb_lt in E1. apply negb_true_iff, Z.eqb_neq in E2.
  assert (Hq : m <= round (inject_Z m * inject_Z t / inject_Z p)
               <= m * t).
  { assert (P1 : (1 <= inject_Z p)%Q)
      by (change 1%Q with (inject_Z 1); apply inject_Z_le; lia).
    assert (PT : (inject_Z p <= inject_Z t)%Q) by (apply inject_Z_le; lia).
    assert (M0 : (0 <= inject_Z m)%Q)
      by (change 0%Q with (inject_Z 0); apply inject_Z_le; lia).
    apply round_between; [lia| |].
    - apply Qle_shift_div_l; [lra|]. nra.
    - rewrite inject_Z_mult. apply Qle_shift_div_r; [lra|].
      assert (MT : (0 <= inject_Z m * inject_Z t)%Q) by nra.
      set (y := (inject_Z m * inject_Z t)%Q) in *. clearbody y. nra. }
  assert (Hmt : m * t <= upper * t) by nia.
  rewrite i32_id by (unfold in_i32; lia).
  lia.
Qed.

(** the commands of setNewPowerLimit(): none, those of a shutdown, or
    those of a commit of the effective limit. *)
Lemma setNewPowerLimit_sent env inverter requested (s : PowerLimiterClass) :
  let s' := snd (setNewPowerLimit env inverter requested s) in
  (requested < PowerLimiter_LowerPowerLimit (config env)
   /\ setNewPowerLimit env inverter requested s
      = shutdown env (_lastStatus s) s)
  \/ (PowerLimiter_LowerPowerLimit (config env) <= requested
      /\ ((fst (setNewPowerLimit env inverter requested s) = false
           /\ exists l, s' = set_MessageOutput (MessageOutput s ++ l) s)
          \/ (fst (setNewPowerLimit env inverter requested s) = true
              /\ sent s'
                 = sent s
                   ++ commitCommands env inverter
                        (effPowerLimit env inverter requested)
              /\ _lastRequestedPowerLimit s'
                 = effPowerLimit env inverter requested
              /\ _lastPowerLimitMillis s' = millis env
              /\ _inverter s' = _inverter s
              /\ _shutdownTimeout s' = _shutdownTimeout s
              /\ _mode s' = _mode s))).
Proof.
  cbv zeta.
  destruct (Z.ltb_spec requested (PowerLimiter_LowerPowerLimit (config env)))
    as [Hlow | Hge].
  - left. split; [exact Hlow|].
    unfold setNewPowerLimit. apply Z.ltb_lt in Hlow. rewrite Hlow.
    unfold shutdown_again, get. rewrite run_bind. reflexivity.
  - right. split; [exact Hge|].
    destruct (setNewPowerLimit_eq env inverter requested s Hge)
      as (s1 & s2 & [l1 H1] & [l2 H2] & Heq).
    rewrite Heq. cbv zeta.
    destruct (_ && _); cbn [fst snd].
    + left. split; [reflexivity|]. exists l1. exact H1.
    + right. split; [reflexivity|].
      destruct (commitPowerLimit_enable env inverter
                  (effPowerLimit env inverter requested) s2)
        as (C1 & C2 & C3 & _ & C5 & C6).
      cbv zeta in C1, C2, C3, C5, C6.
      assert (C7 : keeps _mode
                     (commitPowerLimit env inverter
                        (effPowerLimit env inverter requested) true))
        by (unfold commitPowerLimit, send, println; keeps_tac).
      rewrite C1, C2, C3, C5, C6, C7, H2.
      repeat split; reflexivity.
Qed.

(** X10. With ordered limits (0 <= lower <= upper, lower <= maximum power
    of the inverter, upper times the number of DC channels within int32),
    every power limit that setNewPowerLimit() hands the bound inverter lies
    between the configured lower power limit and the maximum power of the
    inverter, whatever limit is requested. *)
Theorem setNewPowerLimit_limit_range (env : Env) (inverter : InverterRef)
    (requested : Z) (s : PowerLimiterClass) :
  limitsOrdered env inverter ->
  _inverter s = Some inverter ->
  exists l,
    sent (snd (setNewPowerLimit env inverter requested s)) = sent s ++ l
    /\ Forall (limitWithin (PowerLimiter_LowerPowerLimit (config env))
                 (getMaxPower (deref env inverter))) l.
Proof.
  intros Ho Hi.
  pose proof Ho as (H0 & Hlu & Hlm & Hfit).
  destruct (setNewPowerLimit_sent env inverter requested s)
    as [[Hlow E] | [Hge [[_ [l E]] | (_ & E & _)]]]; cbv zeta in E.
  - rewrite E.
    destruct (shutdown_run env (_lastStatus s) s) as (S & _). cbv zeta in S.
    rewrite S, Hi.
    eexists. split; [reflexivity|].
    destruct (_ && _ && _); [|constructor].
    unfold shutdownCommands.
    constructor; [exact I|]. constructor; [|constructor].
    cbn. eexists. split; [reflexivity|]. lia.
  - exists []. rewrite E. cbn. rewrite app_nil_r. split; [reflexivity|].
    constructor.
  - rewrite E. eexists. split; [reflexivity|].
    pose proof (effPowerLimit_range env inverter requested Ho Hge) as R.
    unfold commitCommands.
    constructor.
    + cbn. eexists. split; [reflexivity|]. exact R.
    + destruct (isProducing _); [constructor|].
      constructor; [exact I|constructor].
Qed.

Lemma setNewPowerLimit_limit_range_witness :
  limitsOrdered sample_env_half 0%nat
  /\ _inverter sample_bound = Some 0%nat
  /\ sent (snd (setNewPowerLimit sample_env_half 0%nat 450 sample_bound))
     = [sendActivePowerControlRequest_AbsolutNonPersistent 0%nat 600]
  /\ exists l,
       sent (snd (setNewPowerLimit sample_env_half 0%nat 450 sample_bound))
       = sent sample_bound ++ l
       /\ Forall (limitWithin 10 600) l.
Proof.
  assert (H : limitsOrdered sample_env_half 0%nat).
  { unfold limitsOrdered. cbn. lia. }
  split; [exact H|]. split; [reflexivity|]. split; [reflexivity|].
  exact (setNewPowerLimit_limit_range sample_env_half 0%nat 450 sample_bound
           H eq_refl).
Defined.

(** ** Restart scheduler *)

Lemma keeps_sent_calcNextInverterRestart env :
  keeps sent (calcNextInverterRestart env).
Proof. unfold calcNextInverterRestart, println. keeps_tac. Qed.

(** with a time of day, an hour of the day and a clock that does not wrap,
    calcNextInverterRestart() puts the restart between one minute and one
    day ahead. *)
Lemma calcNextInverterRestart_ahead env (s : PowerLimiterClass) :
  restartSchedulable env ->
  millis env + 60000
  <= _nextInverterRestart (snd (calcNextInverterRestart env s))
  <= millis env + 1440 * 60000.
Proof.
  intros (HR & (t & Ht & Hh & Hm) & H0 & Hw).
  rewrite (calcNextInverterRestart_value env s t (proj1 HR) Ht). cbv zeta.
  set (R := PowerLimiter_RestartHour (config env)) in *.
  rewrite !u16_id by (change (2 ^ 16) with 65536; lia).
  change (2 ^ 32) with 4294967296 in Hw.
  destruct (Z.gtb_spec R (tm_hour t)) as [Hgt | Hle].
  - rewrite (u32_id (R * 60 - _))
      by (unfold in_u32; change (2 ^ 32) with 4294967296; lia).
    rewrite (u32_id (_ * 60000))
      by (unfold in_u32; change (2 ^ 32) with 4294967296; lia).
    rewrite u32_id
      by (unfold in_u32; change (2 ^ 32) with 4294967296; lia).
    lia.
  - rewrite (u32_id (1440 - _ + _))
      by (unfold in_u32; change (2 ^ 32) with 4294967296; lia).
    rewrite (u32_id (_ * 60000))
      by (unfold in_u32; change (2 ^ 32) with 4294967296; lia).
    rewrite u32_id
      by (unfold in_u32; change (2 ^ 32) with 4294967296; lia).
    lia.
Qed.

(** the commands of the restart scheduler of loop(). *)
Lemma checkInverterRestart_sent env inverter (s : PowerLimiterClass) :
  sent (snd (checkInverterRestart env inverter s))
  = sent s
    ++ (if (1 <? _nextInverterRestart s)
           && (_nextInverterRestart s <=? millis env)
        then [sendRestartControlRequest inverter] else []).
Proof.
  unfold checkInverterRestart, get. rewrite run_bind. cbn [fst snd].
  rewrite run_bind. cbv beta.
  match goal with
  | |- sent (snd (?m ?x)) = _ =>
    set (s1 := x);
    assert (K : keeps sent m)
  end.
  { unfold println. keeps_tac.
    all: try (apply keeps_sent_calcNextInverterRestart). }
  rewrite K. unfold s1.
  destruct (_ && _).
  - rewrite !run_bind. rewrite keeps_sent_calcNextInverterRestart.
    reflexivity.
  - cbn. rewrite app_nil_r. reflexivity.
Qed.

(** the deadline the restart scheduler of loop() leaves. *)
Lemma checkInverterRestart_next env inverter (s : PowerLimiterClass) :
  restartSchedulable env ->
  let n := _nextInverterRestart s in
  let due := (1 <? n) && (n <=? millis env) in
  let n' := _nextInverterRestart (snd (checkInverterRestart env inverter s)) in
  (due = true -> millis env + 60000 <= n' <= millis env + 1440 * 60000)
  /\ (due = false -> n' = n \/ millis env + 60000 <= n').
Proof.
  intros Hs. cbv zeta.
  pose proof Hs as (HR & (t & Ht & _) & H0 & Hw).
  unfold checkInverterRestart, get. rewrite run_bind. cbn [fst snd].
  rewrite run_bind. cbv beta.
  destruct ((1 <? _nextInverterRestart s)
            && (_nextInverterRestart s <=? millis env)) eqn:Hdue.
  - split; [intros _|discriminate].
    rewrite !run_bind. cbn [fst snd].
    match goal with
    | |- context [calcNextInverterRestart env ?x] =>
      pose proof (calcNextInverterRestart_ahead env x Hs) as A;
      set (s1 := snd (calcNextInverterRestart env x)) in *
    end.
    replace (_nextInverterRestart s1 =? 0) with false
      by (symmetry; apply Z.eqb_neq; lia).
    rewrite andb_false_r. exact A.
  - split; [discriminate|intros _].
    cbn [ret fst snd]. rewrite run_bind. cbn [fst snd].
    replace (0 <=? PowerLimiter_RestartHour (config env)) with true
      by (symmetry; apply Z.leb_le; lia).
    cbn [andb].
    destruct (_nextInverterRestart s =? 0); [|left; reflexivity].
    rewrite run_bind. cbn [fst snd].
    destruct (_nextCalculateCheck s <? millis env); [|left; reflexivity].
    rewrite Ht. right.
    pose proof (calcNextInverterRestart_ahead env s Hs) as A. lia.
Qed.

(** X11. With a time of day, a restart hour of the day and a clock more
    than a day from its wrap-around, the restart scheduler of loop() hands
    the inverter a restart exactly when a deadline above 1 has come, and
    then moves the deadline between one minute and one day ahead; a second
    run at the same clock sends nothing. *)
Theorem checkInverterRestart_once (env : Env) (inverter : InverterRef)
    (s : PowerLimiterClass) :
  restartSchedulable env ->
  let due := 1 < _nextInverterRestart s <= millis env in
  let s' := snd (checkInverterRestart env inverter s) in
  (due ->
     sent s' = sent s ++ [sendRestartControlRequest inverter]
     /\ millis env + 60000 <= _nextInverterRestart s'
        <= millis env + 1440 * 60000)
  /\ (~ due -> sent s' = sent s)
  /\ sent (snd (checkInverterRestart env inverter s')) = sent s'.
Proof.
  intros Hs due s'.
  pose proof (checkInverterRestart_sent env inverter s) as S.
  destruct (checkInverterRestart_next env inverter s Hs) as [N1 N2].
  cbv zeta in N1, N2. fold s' in S, N1, N2.
  assert (D : due <-> (1 <? _nextInverterRestart s)
                      && (_nextInverterRestart s <=? millis env) = true).
  { unfold due. rewrite andb_true_iff, Z.ltb_lt, Z.leb_le. reflexivity. }
  destruct ((1 <? _nextInverterRestart s)
            && (_nextInverterRestart s <=? millis env)) eqn:E.
  - assert (Hd : due) by (apply D; reflexivity).
    specialize (N1 eq_refl).
    split; [intros _; split; [exact S|exact N1]|].
    split; [intros Hn; exfalso; exact (Hn Hd)|].
    rewrite checkInverterRestart_sent.
    replace (_nextInverterRestart s' <=? millis env) with false
      by (symmetry; apply Z.leb_gt; lia).
    rewrite andb_false_r, app_nil_r. reflexivity.
  - assert (Hd : ~ due) by (intros Hd; apply D in Hd; discriminate Hd).
    rewrite app_nil_r in S.
    split; [intros Hd'; exfalso; exact (Hd Hd')|].
    split; [intros _; exact S|].
    rewrite checkInverterRestart_sent.
    replace ((1 <? _nextInverterRestart s')
             && (_nextInverterRestart s' <=? millis env)) with false;
      [rewrite app_nil_r; reflexivity|].
    symmetry. destruct (N2 eq_refl) as [N | N].
    + rewrite N. exact E.
    + replace (_nextInverterRestart s' <=? millis env) with false
        by (symmetry; apply Z.leb_gt; lia).
      apply andb_false_r.
Qed.

Lemma checkInverterRestart_once_witness :
  restartSchedulable sample_env_restart_11
  /\ 1 < _nextInverterRestart sample_restart_due
         <= millis sample_env_restart_11
  /\ sent (snd (checkInverterRestart sample_env_restart_11 0%nat
                  sample_restart_due))
     = [sendRestartControlRequest 0%nat]
  /\ _nextInverterRestart
       (snd (checkInverterRestart sample_env_restart_11 0%nat
               sample_restart_due))
     = 20000 + 30 * 60000.
Proof.
  assert (H : restartSchedulable sample_env_restart_11).
  { unfold restartSchedulable. cbn.
    split; [lia|]. split; [|split; [lia|vm_compute; reflexivity]].
    eexists. split; [reflexivity|]. cbn. lia. }
  assert (D : 1 < _nextInverterRestart sample_restart_due
                  <= millis sample_env_restart_11) by (cbn; lia).
  destruct (checkInverterRestart_once sample_env_restart_11 0%nat
              sample_restart_due H) as (A & _).
  destruct (A D) as [A1 _].
  split; [exact H|]. split; [exact D|]. split; [exact A1|]. reflexivity.
Defined.

(** ** State shown by the web application *)

(** X12. getPowerLimiterState() changes nothing and reports: inactive while
    no inverter is bound or the bound inverter is out of reach; otherwise
    charging while the inverter is not producing, solar only while it is
    producing with the battery discharge disabled, solar and battery while
    it is producing with the discharge enabled; the return at the end of
    the function is never reached. In particular the state is inactive
    right after a shutdown() that reported the inverter as stopped. *)
Theorem getPowerLimiterState_table (env : Env)
    (PL_UI_STATE_INACTIVE PL_UI_STATE_CHARGING PL_UI_STATE_USE_SOLAR_ONLY
       PL_UI_STATE_USE_SOLAR_AND_BATTERY : Z) (s : PowerLimiterClass) :
  let state env s :=
    getPowerLimiterState env PL_UI_STATE_INACTIVE PL_UI_STATE_CHARGING
      PL_UI_STATE_USE_SOLAR_ONLY PL_UI_STATE_USE_SOLAR_AND_BATTERY s in
  state env s
  = (match _inverter s with
     | None => PL_UI_STATE_INACTIVE
     | Some inv =>
       if negb (isReachable (deref env inv)) then PL_UI_STATE_INACTIVE
       else if negb (isProducing (deref env inv)) then PL_UI_STATE_CHARGING
       else if _batteryDischargeEnabled s
       then PL_UI_STATE_USE_SOLAR_AND_BATTERY
       else PL_UI_STATE_USE_SOLAR_ONLY
     end, s)
  /\ (forall env0 status,
        fst (shutdown env0 status s) = false ->
        fst (state env (snd (shutdown env0 status s)))
        = PL_UI_STATE_INACTIVE).
Proof.
  cbv zeta. split.
  - unfold getPowerLimiterState, get. rewrite run_bind. cbn [fst snd].
    destruct (_inverter s) as [inv|]; [|reflexivity].
    destruct (isReachable (deref env inv)); [|reflexivity].
    cbn [negb]. rewrite run_bind. cbn [fst snd].
    destruct (isProducing (deref env inv)), (_batteryDischargeEnabled s);
      reflexivity.
  - intros env0 status H.
    destruct (shutdown_run env0 status s) as (_ & _ & I). cbv zeta in I.
    rewrite H in I.
    unfold getPowerLimiterState, get. rewrite run_bind. cbn [fst snd].
    rewrite I. reflexivity.
Qed.

Lemma getPowerLimiterState_table_witness :
  fst (getPowerLimiterState sample_env 0 1 2 3 sample_bound) = 2
  /\ fst (shutdown (sample_env_night 20000) DisabledByConfig sample_bound)
     = false
  /\ fst (getPowerLimiterState sample_env 0 1 2 3
            (snd (shutdown (sample_env_night 20000) DisabledByConfig
                    sample_bound))) = 0.
Proof.
  destruct (getPowerLimiterState_table sample_env 0 1 2 3 sample_bound)
    as [_ B].
  split; [reflexivity|]. split; [reflexivity|].
  exact (B (sample_env_night 20000) DisabledByConfig eq_refl).
Defined.

(** ** The control loop *)

(** *** What the member functions leave as it is *)

Ltac frame_step :=
  first
    [ apply keeps_ret
    | apply keeps_get
    | apply keeps_modify; intros ?;
      first [ reflexivity
            | match goal with H : ignores _ _ |- _ => apply H end ]
    | apply keeps_logs;
      [first [assumption | ignores_tac] | solve [auto with plogs]]
    | solve [auto with pkeeps]
    | match goal with
      | |- keeps _ (bind _ _) => apply keeps_bind; [|intros ?]
      | |- keeps _ (if ?c then _ else _) => destruct c
      | |- keeps _ (match ?c with _ => _ end) => destruct c
      end ].

Ltac frame_tac := cbv zeta; repeat frame_step.

Section Frames.

Context {X : Type} (f : PowerLimiterClass -> X).
Hypothesis f_log : ignores f set_MessageOutput.

Lemma keeps_println (m : LogMsg) : keeps f (println m).
Proof. apply keeps_logs; [exact f_log|apply logs_println]. Qed.

Lemma keeps_calcNextInverterRestart env :
  ignores f set_nextInverterRestart -> keeps f (calcNextInverterRestart env).
Proof. intros H. unfold calcNextInverterRestart, println. frame_tac. Qed.

Lemma keeps_checkInverterRestart env inverter :
  ignores f set_nextInverterRestart -> ignores f set_nextCalculateCheck ->
  ignores f set_sent ->
  keeps f (checkInverterRestart env inverter).
Proof.
  intros H1 H2 H3.
  pose proof (keeps_calcNextInverterRestart env H1) as K.
  unfold checkInverterRestart, println, send. frame_tac.
Qed.

Lemma keeps_updateBatteryDischargeEnabled env :
  ignores f set_batteryDischargeEnabled ->
  keeps f (updateBatteryDischargeEnabled env).
Proof. intros H. unfold updateBatteryDischargeEnabled. frame_tac. Qed.

Lemma keeps_useFullSolarPassthrough env :
  ignores f set_fullSolarPassThroughEnabled ->
  keeps f (useFullSolarPassthrough env).
Proof. intros H. unfold useFullSolarPassthrough. frame_tac. Qed.

Lemma keeps_calcPowerLimit env inverter solar discharge :
  ignores f set_fullSolarPassThroughEnabled ->
  keeps f (calcPowerLimit env inverter solar discharge).
Proof.
  intros H. pose proof (keeps_useFullSolarPassthrough env H) as K.
  unfold calcPowerLimit. frame_tac.
Qed.

Lemma keeps_commitPowerLimit env inverter limit enable :
  ignores f set_sent -> ignores f set_lastRequestedPowerLimit ->
  ignores f set_lastPowerLimitMillis ->
  keeps f (commitPowerLimit env inverter limit enable).
Proof. intros H1 H2 H3. unfold commitPowerLimit, println, send. frame_tac. Qed.

Lemma keeps_shutdown env status :
  ignores f set_lastStatus -> ignores f set_lastStatusPrinted ->
  ignores f set_inverter -> ignores f set_shutdownTimeout ->
  ignores f set_sent -> ignores f set_lastRequestedPowerLimit ->
  ignores f set_lastPowerLimitMillis ->
  keeps f (shutdown env status).
Proof.
  intros H1 H2 H3 H4 H5 H6 H7.
  pose proof (keeps_announceStatus f env status H1 H2 f_log) as KA.
  pose proof (fun inv limit =>
                keeps_commitPowerLimit env inv limit false H5 H6 H7) as KC.
  unfold shutdown. frame_tac.
Qed.

End Frames.

(** *** One calculation, step by step *)

(** calculate() runs the restart scheduler, then hands a limit to
    setNewPowerLimit(), then notes the time of the calculation; nothing
    else touches the commands or the fields of [committed]. *)
Lemma calculate_run env d inverter (s0 : PowerLimiterClass) :
  exists (newPowerLimit : Z) (s1 : PowerLimiterClass),
    sent s1
    = sent s0
      ++ (if (1 <? _nextInverterRestart s0)
             && (_nextInverterRestart s0 <=? millis env)
          then [sendRestartControlRequest inverter] else [])
    /\ committed s1 = committed s0
    /\ let r := setNewPowerLimit env inverter newPowerLimit s1 in
       let s' := snd (calculate env d inverter s0) in
       sent s' = sent (snd r)
       /\ committed s' = committed (snd r)
       /\ _lastCalculation s' = millis env.
Proof.
  unfold calculate. rewrite !run_bind. cbn [fst snd get].
  match goal with
  | |- context [setNewPowerLimit env inverter ?n ?s] =>
    exists n, s; set (s1 := s); set (npl := n)
  end.
  split; [|split].
  - unfold s1.
    rewrite (keeps_calcPowerLimit sent) by ignores_tac.
    rewrite (keeps_logs sent (canUseDirectSolarPower env))
      by (ignores_tac || auto with plogs).
    repeat rewrite (keeps_logs sent (verbose _))
      by (ignores_tac || auto with plogs).
    rewrite (keeps_updateBatteryDischargeEnabled sent) by ignores_tac.
    rewrite checkInverterRestart_sent.
    rewrite (keeps_logs sent (verbose _))
      by (ignores_tac || auto with plogs).
    rewrite !(keeps_logs _nextInverterRestart (verbose _))
      by (ignores_tac || auto with plogs).
    reflexivity.
  - unfold s1.
    rewrite (keeps_calcPowerLimit committed) by ignores_tac.
    rewrite (keeps_logs committed (canUseDirectSolarPower env))
      by (ignores_tac || auto with plogs).
    repeat rewrite (keeps_logs committed (verbose _))
      by (ignores_tac || auto with plogs).
    rewrite (keeps_updateBatteryDischargeEnabled committed) by ignores_tac.
    rewrite (keeps_checkInverterRestart committed) by ignores_tac.
    rewrite (keeps_logs committed (verbose _))
      by (ignores_tac || auto with plogs).
    reflexivity.
  - cbv zeta.
    destruct (setNewPowerLimit env inverter npl s1) as [upd s2].
    cbn [fst snd].
    destruct (logs_verbose 320%nat s2) as [l Hl].
    destruct upd; cbn [negb modify fst snd].
    + rewrite Hl. repeat split; reflexivity.
    + rewrite !run_bind. cbn [fst snd get modify].
      rewrite !keeps_announceStatus by ignores_tac.
      rewrite Hl. repeat split; reflexivity.
Qed.

(** *** The ways out of loop() *)

Lemma shutdown_then_ret env status (s : PowerLimiterClass) :
  (shutdown env status ;; ret tt) s = (tt, snd (shutdown env status s)).
Proof. rewrite run_bind. reflexivity. Qed.

Lemma shutdown_again_eq env (s : PowerLimiterClass) :
  shutdown_again env s = shutdown env (_lastStatus s) s.
Proof. unfold shutdown_again, get. rewrite run_bind. reflexivity. Qed.

(** a call of loop() is an announcement or a shutdown before an inverter
    is picked up, an announcement with the configured inverter picked up,
    or, with the tests up to the mode of operation passed, the
    unconditional solar passthrough, a shutdown, an announcement or a
    calculation. *)
Lemma loop_cases env d (s : PowerLimiterClass) :
  let s0 := set_verboseLogging (PowerLimiter_VerboseLogging (config env)) s in
  (exists status, loop env d s = announceStatus env status s0)
  \/ (exists status, loop env d s = (tt, snd (shutdown env status s0)))
  \/ (exists cur status,
        getInverterByPos env (PowerLimiter_InverterId (config env)) = Some cur
        /\ loop env d s = announceStatus env status (bound env cur s))
  \/ (exists cur,
        dispatchGuards env s cur = true
        /\ (loop env d s
            = unconditionalSolarPassthrough env cur (bound env cur s)
            \/ (exists status,
                  loop env d s
                  = (tt, snd (shutdown env status (bound env cur s))))
            \/ (exists status,
                  loop env d s = announceStatus env status (bound env cur s))
            \/ (calculationGuards env s cur = true
                /\ loop env d s = calculate env d cur (bound env cur s)))).
Proof.
  intros s0. unfold loop. run_step. fold s0.
  destruct (getLocalTime env) as [t|] eqn:G1;
    [|left; eexists; reflexivity].
  run_step. change (_shutdownTimeout s0) with (_shutdownTimeout s).
  destruct (0 <? _shutdownTimeout s) eqn:G2.
  { right; left. exists (_lastStatus s0).
    rewrite run_bind, shutdown_again_eq. reflexivity. }
  destruct (PowerLimiter_Enabled (config env)) eqn:G3; cbn [negb];
    [|right; left; eexists; apply shutdown_then_ret].
  run_step. change (_mode s0) with (_mode s).
  destruct (Mode_eqb Disabled (_mode s)) eqn:G4;
    [right; left; eexists; apply shutdown_then_ret|].
  destruct (getInverterByPos env (PowerLimiter_InverterId (config env)))
    as [cur|] eqn:G5;
    [|right; left; eexists; apply shutdown_then_ret].
  run_step. change (_inverter s0) with (_inverter s).
  destruct (match _inverter s with
            | Some inv =>
              negb (serial (deref env inv) =? serial (deref env cur))
            | None => false
            end) eqn:G6;
    [right; left; eexists; apply shutdown_then_ret|].
  run_step.
  change (set_inverter (Some cur) s0) with (bound env cur s).
  set (s1 := bound env cur s).
  destruct (isReachable (deref env cur)) eqn:G7; cbn [negb];
    [|right; right; left; exists cur; eexists; split; reflexivity].
  destruct (getEnableCommands (deref env cur)) eqn:G8; cbn [negb];
    [|right; right; left; exists cur; eexists; split; reflexivity].
  destruct (is_pending (getLastLimitCommandSuccess (deref env cur))) eqn:G9;
    [right; right; left; exists cur; eexists; split; reflexivity|].
  destruct (is_pending (getLastPowerCommandSuccess (deref env cur))) eqn:G10;
    [right; right; left; exists cur; eexists; split; reflexivity|].
  destruct (getMaxPower (deref env cur) <=? 0) eqn:G11;
    [right; right; left; exists cur; eexists; split; reflexivity|].
  right; right; right. exists cur.
  assert (G : dispatchGuards env s cur = true).
  { unfold dispatchGuards. cbv zeta.
    rewrite G1, G2, G3, G4, G5, G6, G7, G8, G9, G10, G11.
    rewrite Nat.eqb_refl. reflexivity. }
  split; [exact G|].
  destruct (Mode_eqb UnconditionalFullSolarPassthrough (_mode s)) eqn:G12;
    [left; reflexivity|].
  right.
  destruct (PowerMeter_Enabled (config env)) eqn:G13; cbn [negb];
    [|left; eexists; apply shutdown_then_ret].
  destruct (30 * 1000 <? u32 (millis env - getLastPowerMeterUpdate env))
    eqn:G14;
    [left; eexists; apply shutdown_then_ret|].
  right. cbv zeta.
  destruct (millis env <? _) eqn:G15; [left; eexists; reflexivity|].
  destruct (Statistics_getLastUpdate (deref env cur) <=? _) eqn:G16;
    [left; eexists; reflexivity|].
  destruct (getLastPowerMeterUpdate env <=? _) eqn:G17;
    [left; eexists; reflexivity|].
  run_step. run_step.
  change (_lastCalculation s1) with (_lastCalculation s).
  change (_calculationBackoffMs s1) with (_calculationBackoffMs s).
  destruct (millis env <? u32 (_lastCalculation s + _calculationBackoffMs s))
    eqn:G18;
    [left; eexists; reflexivity|].
  right. split; [|reflexivity].
  unfold calculationGuards. cbv zeta.
  rewrite G, G12, G13, G14, G15, G16, G17, G18. reflexivity.
Qed.

(** *** The commands of one call *)

(** shutdown(): the commands and the last requested limit. *)
Lemma shutdown_hands env status (s : PowerLimiterClass) :
  let s' := snd (shutdown env status s) in
  exists l,
    sent s' = sent s ++ l
    /\ ((l = [] /\ _lastRequestedPowerLimit s' = _lastRequestedPowerLimit s)
        \/ (exists inv,
              _inverter s = Some inv
              /\ commandable env inv = true
              /\ isProducing (deref env inv) = true
              /\ l = shutdownCommands env inv
              /\ _lastRequestedPowerLimit s'
                 = PowerLimiter_LowerPowerLimit (config env))).
Proof.
  cbv zeta.
  destruct (shutdown_run env status s) as (S & _ & _). cbv zeta in S.
  eexists. split; [exact S|].
  rewrite shutdown_eq. cbv zeta.
  assert (KI : _inverter (snd (announceStatus env status s)) = _inverter s)
    by (apply keeps_announceStatus; ignores_tac).
  assert (KT : _shutdownTimeout (snd (announceStatus env status s))
               = _shutdownTimeout s)
    by (apply keeps_announceStatus; ignores_tac).
  assert (KL : _lastRequestedPowerLimit (snd (announceStatus env status s))
               = _lastRequestedPowerLimit s)
    by (apply keeps_announceStatus; ignores_tac).
  set (s1 := snd (announceStatus env status s)) in *.
  unfold deadlinePassed. rewrite KI, KT.
  destruct (_inverter s) as [inv|]; [|left; split; [reflexivity|exact KL]].
  destruct (isProducing (deref env inv)) eqn:Hp; cbn [negb orb andb];
    [|left; split; [reflexivity|exact KL]].
  destruct ((0 <? _shutdownTimeout s) && (_shutdownTimeout s <? millis env));
    cbn [negb]; [left; split; [reflexivity|exact KL]|].
  unfold commandable at 1.
  destruct (isReachable (deref env inv)) eqn:Hr; cbn [negb andb];
    [|left; split; [reflexivity|exact KL]].
  set (s2 := if _shutdownTimeout s =? 0 then _ else s1).
  assert (K2 : _lastRequestedPowerLimit s2 = _lastRequestedPowerLimit s).
  { unfold s2. destruct (_shutdownTimeout s =? 0); exact KL. }
  clearbody s2.
  destruct (is_pending (getLastLimitCommandSuccess (deref env inv))) eqn:H1;
    cbn [negb andb]; [left; split; [reflexivity|exact K2]|].
  destruct (is_pending (getLastPowerCommandSuccess (deref env inv))) eqn:H2;
    cbn [negb andb]; [left; split; [reflexivity|exact K2]|].
  right. exists inv. unfold commandable. rewrite Hp, Hr, H1, H2.
  split; [reflexivity|]. split; [reflexivity|]. split; [reflexivity|].
  split; [reflexivity|].
  cbn [snd]. unfold commitPowerLimit, send, println, modify, bind, ret.
  rewrite Hp. reflexivity.
Qed.

(** setNewPowerLimit() for the bound inverter: the commands and the last
    requested limit. *)
Lemma setNewPowerLimit_hands env inverter requested (s : PowerLimiterClass) :
  _inverter s = Some inverter ->
  let s' := snd (setNewPowerLimit env inverter requested s) in
  exists l,
    sent s' = sent s ++ l
    /\ handsOver env inverter (_lastRequestedPowerLimit s) l
         (_lastRequestedPowerLimit s').
Proof.
  intros Hi. cbv zeta.
  destruct (setNewPowerLimit_sent env inverter requested s)
    as [[Hlow E] | [Hge [[_ [l E]] | (_ & E1 & E2 & _)]]]; cbv zeta in *.
  - rewrite E.
    destruct (shutdown_hands env (_lastStatus s) s)
      as (l & S & [[L R] | (inv & I & C & P & L & R)]); cbv zeta in *.
    + exists l. split; [exact S|]. left. split; assumption.
    + exists l. split; [exact S|]. right; left.
      rewrite Hi in I. injection I as <-.
      repeat split; assumption.
  - exists []. rewrite E. cbn. rewrite app_nil_r.
    split; [reflexivity|]. left. split; reflexivity.
  - eexists. split; [exact E1|]. right; right.
    eexists. split; [reflexivity|exact E2].
Qed.

Lemma sent_bound env cur (s : PowerLimiterClass) :
  sent (bound env cur s) = sent s
  /\ _lastRequestedPowerLimit (bound env cur s) = _lastRequestedPowerLimit s
  /\ _inverter (bound env cur s) = Some cur.
Proof. repeat split; reflexivity. Qed.


(** the commands of one call of loop(), and the last requested limit it
    leaves. *)
Lemma loop_sent env d (s : PowerLimiterClass) :
  let s' := snd (loop env d s) in
  exists l,
    sent s' = sent s ++ l
    /\ ((l = [] /\ _lastRequestedPowerLimit s' = _lastRequestedPowerLimit s)
        \/ (exists inv,
              _inverter s = Some inv
              /\ commandable env inv = true
              /\ isProducing (deref env inv) = true
              /\ l = shutdownCommands env inv
              /\ _lastRequestedPowerLimit s'
                 = PowerLimiter_LowerPowerLimit (config env))
        \/ (exists cur l0 l1,
              dispatchGuards env s cur = true
              /\ l = l0 ++ l1
              /\ (l0 = [] \/ l0 = [sendRestartControlRequest cur])
              /\ handsOver env cur (_lastRequestedPowerLimit s) l1
                   (_lastRequestedPowerLimit s'))).
Proof.
  cbv zeta.
  assert (Announce : forall status (x : PowerLimiterClass),
            sent x = sent s ->
            _lastRequestedPowerLimit x = _lastRequestedPowerLimit s ->
            sent (snd (announceStatus env status x)) = sent s ++ []
            /\ _lastRequestedPowerLimit (snd (announceStatus env status x))
               = _lastRequestedPowerLimit s).
  { intros status x Hx Lx.
    rewrite !keeps_announceStatus by ignores_tac.
    rewrite app_nil_r. split; assumption. }
  assert (Hands : forall cur l1 limit',
            dispatchGuards env s cur = true ->
            handsOver env cur (_lastRequestedPowerLimit s) l1 limit' ->
            exists l0 l2,
              dispatchGuards env s cur = true
              /\ l1 = l0 ++ l2
              /\ (l0 = [] \/ l0 = [sendRestartControlRequest cur])
              /\ handsOver env cur (_lastRequestedPowerLimit s) l2 limit').
  { intros cur l1 limit' G H. exists [], l1.
    split; [exact G|]. split; [reflexivity|]. split; [left; reflexivity|].
    exact H. }
  destruct (loop_cases env d s)
    as [[status E] | [[status E] | [(cur & status & _ & E)
        | (cur & G & [E | [[status E] | [[status E] | [_ E]]]])]]];
    cbv zeta in E; rewrite E.
  - (* an announcement *)
    exists [].
    destruct (Announce status
                (set_verboseLogging
                   (PowerLimiter_VerboseLogging (config env)) s)
                eq_refl eq_refl) as [A1 A2].
    split; [exact A1|]. left. split; [reflexivity|exact A2].
  - (* a shutdown of the inverter bound before *)
    cbn [snd].
    destruct (shutdown_hands env status
                (set_verboseLogging
                   (PowerLimiter_VerboseLogging (config env)) s))
      as (l & S & H); cbv zeta in *.
    exists l. split; [exact S|].
    destruct H as [H | H]; [left; exact H|right; left; exact H].
  - (* an announcement with the inverter picked up *)
    exists []. destruct (Announce status (bound env cur s) eq_refl eq_refl)
      as [A1 A2].
    split; [exact A1|]. left. split; [reflexivity|exact A2].
  - (* the unconditional solar passthrough *)
    unfold unconditionalSolarPassthrough.
    destruct (negb (Vedirect_Enabled (config env))
              || negb (isDataValid env)).
    + rewrite shutdown_then_ret. cbn [snd].
      destruct (shutdown_hands env NoVeDirect (bound env cur s))
        as (l & S & H); cbv zeta in *.
      exists l. split; [exact S|]. right; right.
      exists cur. apply (Hands cur l _ G).
      destruct H as [H | (inv & I & C & P & L & R)]; [left; exact H|].
      injection I as <-. right; left. repeat split; assumption.
    + rewrite run_bind.
      match goal with
      | |- context [setNewPowerLimit env cur ?n (bound env cur s)] =>
        destruct (setNewPowerLimit_hands env cur n (bound env cur s) eq_refl)
          as (l & S & H); cbv zeta in S, H;
        set (s2 := snd (setNewPowerLimit env cur n (bound env cur s))) in *
      end.
      rewrite !keeps_announceStatus by ignores_tac.
      exists l. split; [exact S|]. right; right.
      exists cur. exact (Hands cur l _ G H).
  - (* a shutdown with the inverter picked up *)
    cbn [snd].
    destruct (shutdown_hands env status (bound env cur s))
      as (l & S & H); cbv zeta in *.
    exists l. split; [exact S|]. right; right.
    exists cur. apply (Hands cur l _ G).
    destruct H as [H | (inv & I & C & P & L & R)]; [left; exact H|].
    injection I as <-. right; left. repeat split; assumption.
  - (* an announcement after the tests *)
    exists []. destruct (Announce status (bound env cur s) eq_refl eq_refl)
      as [A1 A2].
    split; [exact A1|]. left. split; [reflexivity|exact A2].
  - (* a calculation *)
    destruct (calculate_run env d cur (bound env cur s))
      as (npl & s1 & S1 & C1 & R). cbv zeta in R.
    destruct R as (S' & C' & _).
    unfold committed in C1, C'. injection C1 as L1 _ _ I1 _.
    injection C' as L' _ _ _ _.
    destruct (setNewPowerLimit_hands env cur npl s1 I1) as (l1 & S & H).
    cbv zeta in S, H.
    rewrite S', S, S1, L'. rewrite L1 in H. cbn [sent bound] in *.
    rewrite <- app_assoc.
    eexists. split; [reflexivity|]. right; right.
    exists cur. eexists _, l1. split; [exact G|]. split; [reflexivity|].
    split; [|exact H].
    destruct (_ && _); [right|left]; reflexivity.
Qed.


(** X14. A call of loop() starts an inverter only if all tests up to the
    mode of operation are passed with that inverter as the configured one
    (valid time, no shutdown under way, limiter enabled and not disabled by
    MQTT, the same inverter as bound before, in reach, commands enabled,
    nothing pending, maximum power known), only if the inverter is not
    producing, and only right after the power limit of the same commit. *)
Theorem loop_start_guarded (env : Env) (d : Z) (s : PowerLimiterClass) :
  exists l,
    sent (snd (loop env d s)) = sent s ++ l
    /\ forall inv,
         In (sendPowerControlRequest inv true) l ->
         dispatchGuards env s inv = true
         /\ isProducing (deref env inv) = false
         /\ exists l0 limit,
              l = l0
                  ++ [ sendActivePowerControlRequest_AbsolutNonPersistent inv
                         limit;
                       sendPowerControlRequest inv true ].
Proof.
  destruct (loop_sent env d s) as (l & S & H). cbv zeta in S, H.
  exists l. split; [exact S|].
  intros inv Hin.
  destruct H as [[L _] | [(inv' & _ & _ & _ & L & _)
                | (cur & l0 & l1 & G & L & H0 & H1)]]; subst l.
  - destruct Hin.
  - cbn in Hin. destruct Hin as [Hin | [Hin | []]]; discriminate Hin.
  - apply in_app_or in Hin. destruct Hin as [Hin | Hin].
    { destruct H0 as [-> | ->]; [destruct Hin|].
      destruct Hin as [Hin | []]. discriminate Hin. }
    destruct H1 as [[-> _] | [(_ & _ & -> & _) | (eff & -> & _)]].
    + destruct Hin.
    + cbn in Hin. destruct Hin as [Hin | [Hin | []]]; discriminate Hin.
    + unfold commitCommands in *.
      destruct (isProducing (deref env cur)) eqn:P.
      * destruct Hin as [Hin | []]. discriminate Hin.
      * destruct Hin as [Hin | [Hin | []]]; [discriminate Hin|].
        injection Hin as <-.
        split; [exact G|]. split; [exact P|].
        exists l0, (inject_Z eff). reflexivity.
Qed.

Lemma loop_start_guarded_witness :
  (* in the morning the inverter is off: 365 W are committed, then the
     inverter is started *)
  sent (snd (loop (sample_env_morning 22000) 128 sample_startup))
  = [ sendActivePowerControlRequest_AbsolutNonPersistent 0%nat 365;
      sendPowerControlRequest 0%nat true ]
  /\ dispatchGuards (sample_env_morning 22000) sample_startup 0%nat = true
  /\ isProducing (deref (sample_env_morning 22000) 0%nat) = false.
Proof.
  destruct (loop_start_guarded (sample_env_morning 22000) 128 sample_startup)
    as (l & S & H).
  assert (E : l = [ sendActivePowerControlRequest_AbsolutNonPersistent 0%nat
                      365;
                    sendPowerControlRequest 0%nat true ]).
  { vm_compute in S. symmetry. exact S. }
  split; [reflexivity|].
  assert (Hin : In (sendPowerControlRequest 0%nat true) l)
    by (rewrite E; right; left; reflexivity).
  destruct (H 0%nat Hin) as (G & P & _).
  split; [exact G|exact P].
Defined.

(** *** A change of the configured inverter *)

(** X15. While the limiter is bound to an inverter other (by its serial)
    than the configured one, a call of loop() hands the configured inverter
    nothing and does not pick it up: it sends nothing, or the stop and the
    lower power limit to the inverter bound before, and it keeps that
    binding until the inverter bound before is not producing or the
    shutdown deadline has passed. With a valid time, the limiter enabled
    and no shutdown under way the status announced is InverterChanged. *)
Theorem loop_inverter_changed (env : Env) (d : Z) (s : PowerLimiterClass)
    (old cur : InverterRef) :
  _inverter s = Some old ->
  getInverterByPos env (PowerLimiter_InverterId (config env)) = Some cur ->
  serial (deref env old) <> serial (deref env cur) ->
  let s' := snd (loop env d s) in
  (sent s' = sent s
   \/ sent s'
      = sent s
        ++ [ sendPowerControlRequest old false;
             sendActivePowerControlRequest_AbsolutNonPersistent old
               (inject_Z (PowerLimiter_LowerPowerLimit (config env))) ])
  /\ (_inverter s' = Some old
      \/ (_inverter s' = None
          /\ (isProducing (deref env old) = false
              \/ deadlinePassed env s = true)))
  /\ (getLocalTime env <> None -> _shutdownTimeout s <= 0 ->
      PowerLimiter_Enabled (config env) = true -> _mode s <> Disabled ->
      _lastStatus s' = InverterChanged).
Proof.
  intros Hi Hc Hs s'.
  set (s0 := set_verboseLogging (PowerLimiter_VerboseLogging (config env)) s).
  assert (Shut : forall status,
            let x := snd (shutdown env status s0) in
            (sent x = sent s
             \/ sent x = sent s ++ shutdownCommands env old)
            /\ (_inverter x = Some old
                \/ (_inverter x = None
                    /\ (isProducing (deref env old) = false
                        \/ deadlinePassed env s = true)))).
  { intros status x.
    destruct (shutdown_run env status s0) as (S & R & I). cbv zeta in S, R, I.
    fold x in S, R, I.
    change (_inverter s0) with (_inverter s) in S, R, I.
    change (sent s0) with (sent s) in S.
    change (deadlinePassed env s0) with (deadlinePassed env s) in S, R.
    rewrite Hi in S, R, I. split.
    - rewrite S. destruct (_ && _ && _); [right; reflexivity|].
      left. apply app_nil_r.
    - rewrite I, R.
      destruct (isProducing (deref env old));
        [|right; split; [reflexivity|left; reflexivity]].
      destruct (deadlinePassed env s);
        [right; split; [reflexivity|right; reflexivity]|].
      left. reflexivity. }
  assert (Mismatch : negb (serial (deref env old) =? serial (deref env cur))
                     = true).
  { apply negb_true_iff, Z.eqb_neq. exact Hs. }
  unfold s', loop. run_step. fold s0.
  destruct (getLocalTime env) as [t|] eqn:G1.
  2:{ rewrite !keeps_announceStatus by ignores_tac.
      split; [left; reflexivity|]. split; [left; exact Hi|].
      intros H. exfalso. apply H. reflexivity. }
  run_step. change (_shutdownTimeout s0) with (_shutdownTimeout s).
  destruct (0 <? _shutdownTimeout s) eqn:G2.
  { rewrite run_bind, shutdown_again_eq. cbn [snd].
    destruct (Shut (_lastStatus s0)) as [A B].
    split; [exact A|]. split; [exact B|].
    intros _ H. apply Z.ltb_lt in G2. lia. }
  destruct (PowerLimiter_Enabled (config env)) eqn:G3; cbn [negb].
  2:{ rewrite shutdown_then_ret. cbn [snd].
      destruct (Shut DisabledByConfig) as [A B].
      split; [exact A|]. split; [exact B|]. intros _ _ H. discriminate H. }
  run_step. change (_mode s0) with (_mode s).
  destruct (Mode_eqb Disabled (_mode s)) eqn:G4.
  { rewrite shutdown_then_ret. cbn [snd].
    destruct (Shut DisabledByMqtt) as [A B].
    split; [exact A|]. split; [exact B|]. intros _ _ _ H.
    exfalso. apply H. destruct (_mode s); try discriminate G4. reflexivity. }
  rewrite Hc. run_step. change (_inverter s0) with (_inverter s).
  rewrite Hi, Mismatch.
  rewrite shutdown_then_ret. cbn [snd].
  destruct (Shut InverterChanged) as [A B].
  split; [exact A|]. split; [exact B|].
  intros _ _ _ _. apply shutdown_lastStatus.
Qed.

Lemma loop_inverter_changed_witness :
  _inverter sample_bound_other = Some 7%nat
  /\ getInverterByPos sample_env_two_inverters
       (PowerLimiter_InverterId (config sample_env_two_inverters))
     = Some 0%nat
  /\ serial (deref sample_env_two_inverters 7%nat)
     <> serial (deref sample_env_two_inverters 0%nat)
  /\ sent (snd (loop sample_env_two_inverters 128 sample_bound_other))
     = [ sendPowerControlRequest 7%nat false;
         sendActivePowerControlRequest_AbsolutNonPersistent 7%nat 10 ]
  /\ _inverter (snd (loop sample_env_two_inverters 128 sample_bound_other))
     = Some 7%nat
  /\ _lastStatus (snd (loop sample_env_two_inverters 128 sample_bound_other))
     = InverterChanged.
Proof.
  assert (Hs : serial (deref sample_env_two_inverters 7%nat)
               <> serial (deref sample_env_two_inverters 0%nat))
    by (cbn; discriminate).
  destruct (loop_inverter_changed sample_env_two_inverters 128
              sample_bound_other 7%nat 0%nat eq_refl eq_refl Hs)
    as (_ & _ & C).
  split; [reflexivity|]. split; [reflexivity|]. split; [exact Hs|].
  split; [reflexivity|]. split; [reflexivity|].
  apply C.
  - discriminate.
  - cbn. lia.
  - reflexivity.
  - discriminate.
Defined.

(** *** The last requested limit *)

Lemma lastLimitRequest_app (a b : list Command) :
  lastLimitRequest (a ++ b)
  = match lastLimitRequest b with
    | Some limit => Some limit
    | None => lastLimitRequest a
    end.
Proof.
  unfold lastLimitRequest. rewrite limitRequests_app, rev_app_distr.
  destruct (rev (limitRequests b)) as [|c rest] eqn:E; [reflexivity|].
  assert (Hc : is_limit_request c = true).
  { assert (Hin : In c (limitRequests b)).
    { apply in_rev. rewrite E. left. reflexivity. }
    unfold limitRequests in Hin. apply filter_In in Hin. apply Hin. }
  cbn. destruct c; try discriminate Hc. reflexivity.
Qed.

(** one call of loop() keeps the last requested limit in step with the
    power limit requests handed out. *)
Lemma loop_limitInSync env d (s : PowerLimiterClass) :
  limitInSync s -> limitInSync (snd (loop env d s)).
Proof.
  unfold limitInSync, getLastRequestedPowerLimit, get. cbn [fst].
  intros Hs limit.
  destruct (loop_sent env d s) as (l & S & H). cbv zeta in S, H.
  rewrite S, lastLimitRequest_app.
  assert (N : lastLimitRequest [] = None) by reflexivity.
  assert (D : forall inv,
            lastLimitRequest (shutdownCommands env inv)
            = Some (inject_Z (PowerLimiter_LowerPowerLimit (config env))))
    by reflexivity.
  destruct H as [[L R] | [(inv & _ & _ & _ & L & R)
                | (cur & l0 & l1 & _ & L & H0 & H1)]]; subst l.
  - rewrite N, R. apply Hs.
  - rewrite D, R. intros E. injection E as <-. reflexivity.
  - rewrite lastLimitRequest_app.
    assert (E0 : lastLimitRequest l0 = None)
      by (destruct H0 as [-> | ->]; reflexivity).
    destruct H1 as [[-> R] | [(_ & _ & -> & R) | (eff & -> & R)]].
    + rewrite N, E0, R. apply Hs.
    + rewrite D, R. intros E. injection E as <-. reflexivity.
    + assert (E1 : lastLimitRequest (commitCommands env cur eff)
                   = Some (inject_Z eff)).
      { unfold commitCommands. destruct (isProducing _); reflexivity. }
      rewrite E1, R. intros E. injection E as <-. reflexivity.
Qed.

(** X16. Whatever calls of loop() and changes of the mode happen, what
    getLastRequestedPowerLimit() returns is the limit of the last power
    limit request handed to an inverter, once it was so at some time (as at
    startup, before any command). *)
Theorem lastRequestedPowerLimit_in_sync (d : Z) (events : list Event)
    (s0 : PowerLimiterClass) :
  limitInSync s0 -> limitInSync (run d events s0).
Proof.
  revert s0. induction events as [|[env | m] rest IH]; intros s0 H.
  - exact H.
  - cbn [run]. apply IH. apply loop_limitInSync. exact H.
  - cbn [run]. apply IH. exact H.
Qed.

Lemma lastRequestedPowerLimit_in_sync_witness :
  let s := run 128 [Tick (sample_env_night 20000);
                    Tick (sample_env_morning 22000)] sample_startup in
  limitInSync sample_startup
  /\ limitInSync s
  /\ lastLimitRequest (sent s) = Some (inject_Z 365)
  /\ fst (getLastRequestedPowerLimit s) = 365.
Proof.
  intros s.
  assert (H : limitInSync sample_startup).
  { intros limit E. discriminate E. }
  split; [exact H|].
  split; [exact (lastRequestedPowerLimit_in_sync 128 _ sample_startup H)|].
  split; reflexivity.
Defined.

(** *** The pace of the calculations *)





(** *** The mode of operation *)

Lemma keeps_mode_shutdown env status : keeps _mode (shutdown env status).
Proof.
  apply keeps_shutdown; intros ? ?; reflexivity.
Qed.

Lemma keeps_mode_setNewPowerLimit env inverter limit :
  keeps _mode (setNewPowerLimit env inverter limit).
Proof.
  pose proof (keeps_mode_shutdown env) as KS.
  pose proof (fun inv l e =>
                keeps_commitPowerLimit _mode
                  (fun _ _ => eq_refl) env inv l e
                  (fun _ _ => eq_refl) (fun _ _ => eq_refl)
                  (fun _ _ => eq_refl)) as KC.
  unfold setNewPowerLimit, shutdown_again. frame_tac.
Qed.

Lemma loop_mode env d (s : PowerLimiterClass) :
  _mode (snd (loop env d s)) = _mode s.
Proof.
  destruct (loop_cases env d s)
    as [[status E] | [[status E] | [(cur & status & _ & E)
        | (cur & G & [E | [[status E] | [[status E] | [C E]]]])]]];
    cbv zeta in E; rewrite E; cbn [snd].
  - rewrite keeps_announceStatus by ignores_tac. reflexivity.
  - rewrite keeps_mode_shutdown. reflexivity.
  - rewrite keeps_announceStatus by ignores_tac. reflexivity.
  - unfold unconditionalSolarPassthrough.
    destruct (_ || _).
    + rewrite shutdown_then_ret. cbn [snd].
      rewrite keeps_mode_shutdown. reflexivity.
    + rewrite run_bind. rewrite keeps_announceStatus by ignores_tac.
      rewrite keeps_mode_setNewPowerLimit. reflexivity.
  - rewrite keeps_mode_shutdown. reflexivity.
  - rewrite keeps_announceStatus by ignores_tac. reflexivity.
  - destruct (calculate_run env d cur (bound env cur s))
      as (npl & s1 & _ & C1 & R). cbv zeta in R.
    destruct R as (_ & C' & _).
    unfold committed in C1, C'.
    injection C1 as _ _ _ _ M1. injection C' as _ _ _ _ M'.
    rewrite M', keeps_mode_setNewPowerLimit, M1. reflexivity.
Qed.

(** X18. No call of loop() changes the mode of operation: over any
    sequence of calls it stays as it was set from outside. *)
Theorem loop_keeps_mode (d : Z) (envs : list Env) (s : PowerLimiterClass) :
  _mode (run d (map Tick envs) s) = _mode s.
Proof.
  revert s. induction envs as [|env rest IH]; intros s; [reflexivity|].
  cbn [map run]. rewrite IH. apply loop_mode.
Qed.

(** one call of loop() of a limiter that is switched off and holds no
    inverter. *)
Lemma loop_off env d (s : PowerLimiterClass) :
  _inverter s = None ->
  PowerLimiter_Enabled (config env) = false \/ _mode s = Disabled ->
  sent (snd (loop env d s)) = sent s
  /\ _inverter (snd (loop env d s)) = None.
Proof.
  intros Hi Hoff.
  set (s0 := set_verboseLogging (PowerLimiter_VerboseLogging (config env)) s).
  assert (Shut : forall status,
            sent (snd (shutdown env status s0)) = sent s
            /\ _inverter (snd (shutdown env status s0)) = None).
  { intros status.
    destruct (shutdown_run env status s0) as (S & R & I). cbv zeta in S, R, I.
    change (_inverter s0) with (_inverter s) in S, R, I.
    change (sent s0) with (sent s) in S.
    rewrite Hi in S, R, I. rewrite R in I. rewrite app_nil_r in S.
    split; assumption. }
  unfold loop. run_step. fold s0.
  destruct (getLocalTime env) as [t|].
  2:{ rewrite !keeps_announceStatus by ignores_tac. split; [reflexivity|].
      exact Hi. }
  run_step.
  destruct (0 <? _shutdownTimeout s0).
  { rewrite run_bind, shutdown_again_eq. cbn [snd]. apply Shut. }
  destruct (PowerLimiter_Enabled (config env)) eqn:G3; cbn [negb];
    [|rewrite shutdown_then_ret; apply Shut].
  destruct Hoff as [Hoff | Hoff]; [discriminate Hoff|].
  run_step. change (_mode s0) with (_mode s). rewrite Hoff.
  cbn [Mode_eqb]. rewrite shutdown_then_ret. apply Shut.
Qed.

(** X23. A limiter that holds no inverter and is switched off, by the
    configuration throughout or by the mode Disabled, hands no inverter
    any command and picks none up, however often loop() is called. *)
Theorem loop_off_silent (d : Z) (envs : list Env) (s : PowerLimiterClass) :
  _inverter s = None ->
  _mode s = Disabled
  \/ Forall (fun env => PowerLimiter_Enabled (config env) = false) envs ->
  sent (run d (map Tick envs) s) = sent s
  /\ _inverter (run d (map Tick envs) s) = None.
Proof.
  revert s. induction envs as [|env rest IH]; intros s Hi Hoff.
  - split; [reflexivity|exact Hi].
  - cbn [map run].
    assert (Hstep : PowerLimiter_Enabled (config env) = false
                    \/ _mode s = Disabled).
    { destruct Hoff as [Hm | Hall]; [right; exact Hm|].
      left. inversion Hall; assumption. }
    destruct (loop_off env d s Hi Hstep) as [S I].
    destruct (IH (snd (loop env d s)) I) as [S' I'].
    { destruct Hoff as [Hm | Hall].
      - left. rewrite loop_mode. exact Hm.
      - right. inversion Hall; assumption. }
    split; [rewrite S'; exact S|exact I'].
Qed.

Lemma loop_off_silent_witness :
  let s := set_mode Disabled sample_startup in
  let envs := [sample_env_at 20000; sample_env_morning 22000] in
  _inverter s = None /\ _mode s = Disabled
  /\ sent (run 128 (map Tick envs) s) = []
  /\ _inverter (run 128 (map Tick envs) s) = None.
Proof.
  intros s envs.
  destruct (loop_off_silent 128 envs s eq_refl (or_introl eq_refl))
    as [A B].
  split; [reflexivity|]. split; [reflexivity|].
  split; [exact A|exact B].
Defined.

(** *** How much one call sends *)

(** X19. One call of loop() hands the inverters at most three commands,
    among them at most one power limit request, at most one start or stop
    and at most one restart. *)
Theorem loop_commands_few (env : Env) (d : Z) (s : PowerLimiterClass) :
  exists l,
    sent (snd (loop env d s)) = sent s ++ l
    /\ (length l <= 3)%nat
    /\ (length (limitRequests l) <= 1)%nat
    /\ (length (filter (fun c => match c with
                                 | sendPowerControlRequest _ _ => true
                                 | _ => false
                                 end) l) <= 1)%nat
    /\ (length (filter (fun c => match c with
                                 | sendRestartControlRequest _ => true
                                 | _ => false
                                 end) l) <= 1)%nat.
Proof.
  destruct (loop_sent env d s) as (l & S & H). cbv zeta in S, H.
  exists l. split; [exact S|].
  destruct H as [[L _] | [(inv & _ & _ & _ & L & _)
                | (cur & l0 & l1 & _ & L & H0 & H1)]]; subst l.
  - cbn. repeat split; lia.
  - cbn. repeat split; lia.
  - unfold limitRequests. rewrite !filter_app, !length_app.
    destruct H0 as [-> | ->];
      destruct H1 as [[-> _] | [(_ & _ & -> & _) | (eff & -> & _)]];
      unfold commitCommands; try destruct (isProducing (deref env cur));
      cbn; repeat split; lia.
Qed.

(** ** A committed limit settles *)

(** X20. Once setNewPowerLimit() has committed a limit, a further request
    whose effective limit differs from the committed one by less than the
    hysteresis, made less than 60 seconds later, sends nothing: the call
    reports false and the last requested limit stays the committed one. *)
Theorem setNewPowerLimit_settles (env env' : Env) (inverter : InverterRef)
    (requested requested' : Z) (s : PowerLimiterClass) :
  PowerLimiter_LowerPowerLimit (config env) <= requested ->
  PowerLimiter_LowerPowerLimit (config env') <= requested' ->
  fst (setNewPowerLimit env inverter requested s) = true ->
  let s1 := snd (setNewPowerLimit env inverter requested s) in
  let eff := effPowerLimit env inverter requested in
  let eff' := effPowerLimit env' inverter requested' in
  - 2 ^ 31 < eff' - eff < 2 ^ 31 ->
  Z.abs (eff' - eff)
  < PowerLimiter_TargetPowerConsumptionHysteresis (config env') ->
  u32 (millis env' - millis env) < 60 * 1000 ->
  let r := setNewPowerLimit env' inverter requested' s1 in
  fst r = false
  /\ sent (snd r) = sent s1
  /\ _lastRequestedPowerLimit (snd r) = eff.
Proof.
  intros Hlow Hlow' Hr s1 eff eff' Hov Hd Ha r.
  assert (C : _lastRequestedPowerLimit s1 = eff
              /\ _lastPowerLimitMillis s1 = millis env).
  { destruct (setNewPowerLimit_sent env inverter requested s)
      as [[Hl _] | [_ [[Hf _] | (_ & _ & E2 & E3 & _)]]]; cbv zeta in *.
    - lia.
    - rewrite Hr in Hf. discriminate Hf.
    - split; assumption. }
  destruct C as [C1 C2].
  destruct (setNewPowerLimit_eq env' inverter requested' s1 Hlow')
    as (x1 & x2 & [l1 H1] & _ & Heq).
  cbv zeta in Heq. fold eff' in Heq. rewrite C1, C2 in Heq.
  rewrite (diff_no_overflow eff' eff Hov) in Heq.
  replace (Z.abs (eff' - eff)
           <? PowerLimiter_TargetPowerConsumptionHysteresis (config env'))
    with true in Heq by (symmetry; apply Z.ltb_lt; exact Hd).
  replace (u32 (millis env' - millis env) <? 60 * 1000) with true in Heq
    by (symmetry; apply Z.ltb_lt; exact Ha).
  cbn [andb] in Heq. unfold r. rewrite Heq. cbn [fst snd]. rewrite H1.
  split; [reflexivity|]. split; [reflexivity|]. exact C1.
Qed.

Lemma setNewPowerLimit_settles_witness :
  (* 300 W committed at 20000 ms; 302 W requested two seconds later *)
  let s1 := snd (setNewPowerLimit (sample_env_at 20000) 0%nat 300
                   sample_bound) in
  fst (setNewPowerLimit (sample_env_at 20000) 0%nat 300 sample_bound) = true
  /\ sent s1 = [sendActivePowerControlRequest_AbsolutNonPersistent 0%nat 300]
  /\ fst (setNewPowerLimit (sample_env_at 22000) 0%nat 302 s1) = false
  /\ sent (snd (setNewPowerLimit (sample_env_at 22000) 0%nat 302 s1))
     = sent s1.
Proof.
  intros s1.
  assert (L1 : PowerLimiter_LowerPowerLimit (config (sample_env_at 20000))
               <= 300) by (cbn; lia).
  assert (L2 : PowerLimiter_LowerPowerLimit (config (sample_env_at 22000))
               <= 302) by (cbn; lia).
  assert (O : - 2 ^ 31 < effPowerLimit (sample_env_at 22000) 0%nat 302
                         - effPowerLimit (sample_env_at 20000) 0%nat 300
              < 2 ^ 31) by (vm_compute; split; reflexivity).
  assert (D : Z.abs (effPowerLimit (sample_env_at 22000) 0%nat 302
                     - effPowerLimit (sample_env_at 20000) 0%nat 300)
              < PowerLimiter_TargetPowerConsumptionHysteresis
                  (config (sample_env_at 22000)))
    by (vm_compute; reflexivity).
  assert (A : u32 (millis (sample_env_at 22000) - millis (sample_env_at 20000))
              < 60 * 1000) by (vm_compute; reflexivity).
  destruct (setNewPowerLimit_settles (sample_env_at 20000)
              (sample_env_at 22000) 0%nat 300 302 sample_bound
              L1 L2 eq_refl O D A) as (R & S & _).
  split; [reflexivity|]. split; [reflexivity|].
  split; [exact R|exact S].
Defined.

(** * The battery interface *)

(** BatteryClass::init() with its switch as a chain of comparisons. *)
Lemma Battery_init_eq env (b : BatteryClass) :
  Battery.init env b
  = let b0 :=
      match _upProvider b with
      | Some p => set_upProvider None (battery_call (provider_deinit p) b)
      | None => b
      end in
    let verboseLogging := Battery_VerboseLogging env in
    if negb (Battery_Enabled (Configuration_get env)) then b0
    else if Battery_Provider env =? 0
    then Battery.make_provider env PylontechCanReceiver verboseLogging b0
    else if Battery_Provider env =? 1
    then Battery.make_provider env JkBms_Controller verboseLogging b0
    else if Battery_Provider env =? 3
    then Battery.make_provider env VictronSmartShunt verboseLogging b0
    else battery_println (LogUnknownProvider (Battery_Provider env)) b0.
Proof.
  unfold Battery.init. cbv zeta.
  destruct (negb _); [reflexivity|].
  destruct (Battery_Provider env) as [|p|p]; try reflexivity.
  destruct p as [[q|q|]|[q|q|]|]; reflexivity.
Qed.

Lemma make_provider_run env p verboseLogging (b : BatteryClass) :
  _upProvider (Battery.make_provider env p verboseLogging b)
  = if match p with
       | PylontechCanReceiver => PylontechCanReceiver_init env verboseLogging
       | JkBms_Controller => JkBms_Controller_init env verboseLogging
       | VictronSmartShunt => 0 <=? battery_rx (PinMapping_get env)
       end
    then Some p else None.
Proof.
  unfold Battery.make_provider, Battery.provider_init_run.
  destruct p; cbn.
  - destruct (PylontechCanReceiver_init env verboseLogging); reflexivity.
  - destruct (JkBms_Controller_init env verboseLogging); reflexivity.
  - unfold VictronSmartShuntProvider.init. cbn.
    destruct (Z.ltb_spec (battery_rx (PinMapping_get env)) 0) as [H | H];
      destruct (Z.leb_spec 0 (battery_rx (PinMapping_get env)));
      try lia; reflexivity.
Qed.

(** X21. After BatteryClass::init() the battery has a provider exactly
    when the battery interface is enabled, the configured provider is 0
    (Pylontech), 1 (JK BMS) or 3 (Victron SmartShunt), and the init() of
    that provider succeeds, which for the SmartShunt means that the rx pin
    is not negative. In every other case (interface disabled, another
    provider number, init failed) no provider is left and getStats()
    returns the dummy stats. A provider held before is deinitialised
    first. *)
Theorem Battery_init_provider (env : BatteryEnv) (b : BatteryClass) :
  let b' := Battery.init env b in
  let verboseLogging := Battery_VerboseLogging env in
  (forall p,
     _upProvider b' = Some p
     <-> Battery_Enabled (Configuration_get env) = true
         /\ ((Battery_Provider env = 0 /\ p = PylontechCanReceiver
              /\ PylontechCanReceiver_init env verboseLogging = true)
             \/ (Battery_Provider env = 1 /\ p = JkBms_Controller
                 /\ JkBms_Controller_init env verboseLogging = true)
             \/ (Battery_Provider env = 3 /\ p = VictronSmartShunt
                 /\ 0 <= battery_rx (PinMapping_get env))))
  /\ (Battery.getStats b' = sspDummyStats <-> _upProvider b' = None)
  /\ (forall q,
        _upProvider b = Some q ->
        exists rest,
          battery_calls b' = battery_calls b ++ provider_deinit q :: rest).
Proof.
  cbv zeta. split; [|split].
  - intros p. rewrite Battery_init_eq. cbv zeta.
    set (b0 := match _upProvider b with Some _ => _ | None => b end).
    assert (P0 : _upProvider b0 = None).
    { unfold b0. destruct (_upProvider b) eqn:E; [reflexivity|exact E]. }
    destruct (Battery_Enabled (Configuration_get env)); cbn [negb].
    2:{ rewrite P0. split; [discriminate|]. intros [H _]. discriminate H. }
    destruct (Z.eqb_spec (Battery_Provider env) 0) as [E0 | E0];
      [|destruct (Z.eqb_spec (Battery_Provider env) 1) as [E1 | E1];
        [|destruct (Z.eqb_spec (Battery_Provider env) 3) as [E3 | E3]]].
    + rewrite make_provider_run, E0.
      destruct (PylontechCanReceiver_init env (Battery_VerboseLogging env)).
      * split.
        -- intros H. injection H as <-. split; [reflexivity|].
           left. repeat split; reflexivity.
        -- intros [_ [(_ & -> & _) | [(H & _) | (H & _)]]];
             [reflexivity|discriminate H|discriminate H].
      * split; [discriminate|].
        intros [_ [(_ & _ & H) | [(H & _) | (H & _)]]]; discriminate H.
    + rewrite make_provider_run, E1.
      destruct (JkBms_Controller_init env (Battery_VerboseLogging env)).
      * split.
        -- intros H. injection H as <-. split; [reflexivity|].
           right; left. repeat split; reflexivity.
        -- intros [_ [(H & _) | [(_ & -> & _) | (H & _)]]];
             [discriminate H|reflexivity|discriminate H].
      * split; [discriminate|].
        intros [_ [(H & _) | [(_ & _ & H) | (H & _)]]]; discriminate H.
    + rewrite make_provider_run, E3.
      destruct (Z.leb_spec 0 (battery_rx (PinMapping_get env))) as [R | R].
      * split.
        -- intros H. injection H as <-. split; [reflexivity|].
           right; right. repeat split; try reflexivity. exact R.
        -- intros [_ [(H & _) | [(H & _) | (_ & -> & _)]]];
             [discriminate H|discriminate H|reflexivity].
      * split; [discriminate|].
        intros [_ [(H & _) | [(H & _) | (_ & _ & H)]]];
          [discriminate H|discriminate H|lia].
    + cbn. rewrite P0. split; [discriminate|].
      intros [_ [(H & _) | [(H & _) | (H & _)]]]; contradiction.
  - unfold Battery.getStats.
    destruct (_upProvider (Battery.init env b)); split;
      try discriminate; reflexivity.
  - intros q Hq. rewrite Battery_init_eq. cbv zeta. rewrite Hq.
    set (b0 := set_upProvider None (battery_call (provider_deinit q) b)).
    assert (C0 : battery_calls b0 = battery_calls b ++ [provider_deinit q])
      by reflexivity.
    destruct (Battery_Enabled (Configuration_get env)); cbn [negb];
      [|exists []; exact C0].
    assert (MP : forall p,
              exists rest,
                battery_calls
                  (Battery.make_provider env p (Battery_VerboseLogging env) b0)
                = battery_calls b ++ provider_deinit q :: rest).
    { intros p. unfold Battery.make_provider, Battery.provider_init_run.
      destruct p; cbn.
      - destruct (PylontechCanReceiver_init env _); cbn;
          rewrite <- app_assoc; eexists; reflexivity.
      - destruct (JkBms_Controller_init env _); cbn;
          rewrite <- app_assoc; eexists; reflexivity.
      - unfold VictronSmartShuntProvider.init. cbn.
        destruct (battery_rx (PinMapping_get env) <? 0); cbn;
          rewrite <- ?app_assoc; eexists; reflexivity. }
    destruct (_ =? 0); [apply MP|].
    destruct (_ =? 1); [apply MP|].
    destruct (_ =? 3); [apply MP|].
    exists []. exact C0.
Qed.

Lemma Battery_init_provider_witness :
  (* the SmartShunt configured with rx pin 22, a Pylontech provider held
     before *)
  let env := {| Configuration_get := sample_config;
                Battery_VerboseLogging := false;
                Battery_Provider := 3;
                Mqtt_PublishInterval := 5;
                PinMapping_get := {| battery_rx := 22; battery_tx := 21 |};
                MqttSettings_getConnected := true;
                battery_millis := 20000;
                PylontechCanReceiver_init := fun _ => true;
                JkBms_Controller_init := fun _ => true |} in
  let b := {| _upProvider := Some PylontechCanReceiver;
              _lastMqttPublish := 0;
              battery_calls := [];
              battery_MessageOutput := [] |} in
  _upProvider (Battery.init env b) = Some VictronSmartShunt
  /\ battery_calls (Battery.init env b)
     = [ provider_deinit PylontechCanReceiver;
         provider_init VictronSmartShunt false;
         VeDirectShunt_init 22 21 false ].
Proof.
  intros env b.
  destruct (Battery_init_provider env b) as (A & _ & _).
  split; [|reflexivity].
  apply (A VictronSmartShunt). split; [reflexivity|].
  right; right. repeat split; try reflexivity. cbn. lia.
Defined.

(** calls of BatteryClass::loop() at clocks less than the publish interval
    past the last publication publish nothing. *)
Lemma battery_loops_quiet (interval : Z) (envs : list BatteryEnv)
    (b : BatteryClass) :
  0 <= interval * 1000 < 2 ^ 32 ->
  Forall (fun env =>
            Mqtt_PublishInterval env = interval
            /\ _lastMqttPublish b <= battery_millis env
               < _lastMqttPublish b + interval * 1000) envs ->
  publications (battery_calls (battery_loops envs b))
  = publications (battery_calls b).
Proof.
  intros HI. revert b.
  induction envs as [|env rest IH]; intros b Hall; [reflexivity|].
  inversion Hall as [|e l Hhead Hrest]; subst.
  destruct Hhead as [He Ht].
  cbn [battery_loops].
  assert (E : _lastMqttPublish (Battery.loop env b) = _lastMqttPublish b
              /\ publications (battery_calls (Battery.loop env b))
                 = publications (battery_calls b)).
  { unfold Battery.loop.
    destruct (_upProvider b) as [p|]; [|split; reflexivity].
    cbn [_lastMqttPublish battery_call].
    rewrite He.
    rewrite (u32_id (_ - _)) by (unfold in_u32; lia).
    rewrite (u32_id (interval * 1000)) by exact HI.
    replace (battery_millis env - _lastMqttPublish b <? interval * 1000)
      with true by (symmetry; apply Z.ltb_lt; lia).
    rewrite orb_true_r. split; [reflexivity|].
    cbn. unfold publications. rewrite filter_app. cbn.
    apply app_nil_r. }
  destruct E as [E1 E2].
  rewrite IH; [exact E2|].
  rewrite E1. exact Hrest.
Qed.

(** X22. Over calls of BatteryClass::loop() at clocks that do not go back
    and stay within one publish interval, the stats are published over
    MQTT at most once. *)
Theorem battery_publish_rate (interval t0 : Z) (envs : list BatteryEnv)
    (b : BatteryClass) :
  0 <= interval * 1000 -> 0 <= t0 -> t0 + interval * 1000 <= 2 ^ 32 ->
  Forall (fun env =>
            Mqtt_PublishInterval env = interval
            /\ t0 <= battery_millis env < t0 + interval * 1000) envs ->
  StronglySorted (fun e e' => battery_millis e <= battery_millis e') envs ->
  (length (publications (battery_calls (battery_loops envs b)))
   <= length (publications (battery_calls b)) + 1)%nat.
Proof.
  intros HI H0 Hw. revert b.
  induction envs as [|env rest IH]; intros b Hall Hs; [cbn; lia|].
  inversion Hall as [|e l Hhead Hrest]; subst.
  destruct Hhead as [He Ht].
  inversion Hs as [|e l Hs' Hle]; subst.
  cbn [battery_loops].
  assert (C : publications (battery_calls (Battery.loop env b))
              = publications (battery_calls b)
              \/ (_lastMqttPublish (Battery.loop env b) = battery_millis env
                  /\ length (publications
                               (battery_calls (Battery.loop env b)))
                     = S (length (publications (battery_calls b))))).
  { unfold Battery.loop.
    destruct (_upProvider b) as [p|]; [|left; reflexivity].
    destruct (_ || _).
    - left. cbn. unfold publications. rewrite filter_app. cbn.
      apply app_nil_r.
    - right. split; [reflexivity|].
      cbn. unfold publications. rewrite !filter_app, !length_app. cbn. lia. }
  destruct C as [C | [C1 C2]].
  - rewrite <- C. apply IH; assumption.
  - rewrite (battery_loops_quiet (Mqtt_PublishInterval env)).
    + rewrite C2. lia.
    + lia.
    + rewrite C1.
      apply Forall_forall. intros e Hin.
      rewrite Forall_forall in Hrest, Hle.
      destruct (Hrest e Hin) as [R1 R2]. specialize (Hle e Hin).
      split; [exact R1|]. lia.
Qed.

Lemma battery_publish_rate_witness :
  let env t := {| Configuration_get := sample_config;
                  Battery_VerboseLogging := false;
                  Battery_Provider := 3;
                  Mqtt_PublishInterval := 5;
                  PinMapping_get := {| battery_rx := 22; battery_tx := 21 |};
                  MqttSettings_getConnected := true;
                  battery_millis := t;
                  PylontechCanReceiver_init := fun _ => true;
                  JkBms_Controller_init := fun _ => true |} in
  let b := {| _upProvider := Some VictronSmartShunt;
              _lastMqttPublish := 10000;
              battery_calls := [];
              battery_MessageOutput := [] |} in
  let envs := [env 20000; env 21000; env 24000] in
  0 <= 5 * 1000 /\ 0 <= 20000 /\ 20000 + 5 * 1000 <= 2 ^ 32
  /\ publications (battery_calls (battery_loops envs b))
     = [stats_mqttPublish VictronSmartShunt]
  /\ (length (publications (battery_calls (battery_loops envs b))) <= 1)%nat.
Proof.
  intros env b envs.
  assert (A1 : 0 <= 5 * 1000) by lia.
  assert (A2 : 0 <= 20000) by lia.
  assert (A3 : 20000 + 5 * 1000 <= 2 ^ 32) by (vm_compute; discriminate).
  assert (A4 : Forall (fun e => Mqtt_PublishInterval e = 5
                                /\ 20000 <= battery_millis e
                                   < 20000 + 5 * 1000) envs)
    by (repeat constructor; cbn; lia).
  assert (A5 : StronglySorted
                 (fun e e' => battery_millis e <= battery_millis e') envs)
    by (repeat constructor; cbn; lia).
  split; [exact A1|]. split; [exact A2|]. split; [exact A3|].
  split; [reflexivity|].
  exact (battery_publish_rate 5 20000 envs b A1 A2 A3 A4 A5).
Defined.
